(** * mbest-sample-api: the request handlers of [src/server.js]

    A shallow embedding of the Express handlers of the sample backend
    (posts CRUD and the bearer-token authentication) over an explicit
    model of the SQLite store, together with the platform functions the
    handlers call ([String.prototype.trim], [Number], [split],
    [Buffer] with the [base64url] and [utf8] encodings); then the
    greeting route, the start-up of the listener with its retry on the
    next port, and the posts-only server the file also holds.

    Conventions of the model.
    - A JavaScript string is kept as the byte sequence of its UTF-8 form
      (a Rocq [string]); this is also the form SQLite stores and compares.
    - A timestamp column holds [new Date().toISOString()]; the model keeps
      the instant itself (milliseconds since the epoch, a [Z]) of which the
      column is the rendering.
    - A TEXT column is stored whole and compared whole; read back into
      JavaScript it ends before its first U+0000 ([column_text]).
    - A body property is one [String] converts ([value]) or one it throws
      on ([parsed]); the handlers on converting bodies are [handle], on
      any parsed body [serve].
    - The clock readings a handler takes ([new Date()], [Date.now()]) are
      inputs of the handler.
    - A handler is a function from the store and its inputs to a response
      and the store it leaves. *)

From Stdlib Require Import ZArith List Bool Ascii String Lia.
From Stdlib Require Import Permutation Sorted.
Import ListNotations.

Set Warnings "-register-all".

Local Open Scope string_scope.
Local Open Scope list_scope.
Local Open Scope Z_scope.

(** ** Characters and strings *)

Definition code (c : ascii) : Z := Z.of_N (N_of_ascii c).

Definition chr (n : Z) : ascii := ascii_of_N (Z.to_N n).

Definition between (lo hi : Z) (c : ascii) : bool :=
  (lo <=? code c) && (code c <=? hi).

Definition is_empty (s : string) : bool :=
  match s with EmptyString => true | String _ _ => false end.

Fixpoint reverse_onto (s acc : string) : string :=
  match s with
  | EmptyString => acc
  | String c r => reverse_onto r (String c acc)
  end.

Definition reverse (s : string) : string := reverse_onto s EmptyString.

(** [s.startsWith(p)] *)
Fixpoint startsWith (p s : string) : bool :=
  match p, s with
  | EmptyString, _ => true
  | String a p', String b s' => Ascii.eqb a b && startsWith p' s'
  | String _ _, EmptyString => false
  end.

(** [s.slice(n)] for [0 <= n]: the string without its first [n] units. *)
Fixpoint slice (n : nat) (s : string) : string :=
  match n, s with
  | O, _ => s
  | S n', String _ r => slice n' r
  | S _, EmptyString => EmptyString
  end.

(** [s.split(sep)] for a one-character separator: never the empty list. *)
Fixpoint split (sep : ascii) (s : string) : list string :=
  match s with
  | EmptyString => [EmptyString]
  | String c r =>
      if Ascii.eqb c sep then EmptyString :: split sep r
      else match split sep r with
           | h :: t => String c h :: t
           | [] => [String c EmptyString]
           end
  end.

(** *** White space

    ECMAScript's WhiteSpace and LineTerminator code points, in UTF-8:
    U+0009..U+000D and U+0020 (one byte), U+00A0 (two bytes), U+1680,
    U+2000..U+200A, U+2028, U+2029, U+202F, U+205F, U+3000 and U+FEFF
    (three bytes). *)

Definition ws1 (a : ascii) : bool := between 9 13 a || (code a =? 32).

Definition ws2 (a b : ascii) : bool := (code a =? 0xC2) && (code b =? 0xA0).

Definition ws3 (a b c : ascii) : bool :=
  let x := code a in
  let y := code b in
  let z := code c in
  ((x =? 0xE1) && (y =? 0x9A) && (z =? 0x80))
  || ((x =? 0xE2) && (y =? 0x80)
      && (((0x80 <=? z) && (z <=? 0x8A)) || (z =? 0xA8) || (z =? 0xA9) || (z =? 0xAF)))
  || ((x =? 0xE2) && (y =? 0x81) && (z =? 0x9F))
  || ((x =? 0xE3) && (y =? 0x80) && (z =? 0x80))
  || ((x =? 0xEF) && (y =? 0xBB) && (z =? 0xBF)).

Section Strip.

Variable w1 : ascii -> bool.
Variable w2 : ascii -> ascii -> bool.
Variable w3 : ascii -> ascii -> ascii -> bool.

(** Drops the longest prefix made of the characters [w1], [w2], [w3]
    recognise (of one, two and three bytes). *)
Fixpoint strip (s : string) : string :=
  match s with
  | String a r1 =>
      if w1 a then strip r1
      else match r1 with
           | String b r2 =>
               if w2 a b then strip r2
               else match r2 with
                    | String c r3 => if w3 a b c then strip r3 else s
                    | EmptyString => s
                    end
           | EmptyString => s
           end
  | EmptyString => s
  end.

End Strip.

Definition trimStart (s : string) : string := strip ws1 ws2 ws3 s.

Definition trimEnd (s : string) : string :=
  reverse (strip ws1 (fun a b => ws2 b a) (fun a b c => ws3 c b a) (reverse s)).

(** [s.trim()] *)
Definition trim (s : string) : string := trimEnd (trimStart s).

(** ** Numbers

    What the handlers need of a double: whether it is NaN, infinite, an
    integer (with its exact value; the sign of zero is dropped) or a
    fraction [m * 2^e] with [e < 0]. *)

Inductive number : Type :=
  | NaN
  | Infinity (negative : bool)
  | Int (z : Z)
  | Frac (m e : Z).

Definition Number_isInteger (n : number) : bool :=
  match n with Int _ => true | _ => false end.

Definition negate (n : number) : number :=
  match n with
  | NaN => NaN
  | Infinity b => Infinity (negb b)
  | Int z => Int (- z)
  | Frac m e => Frac (- m) e
  end.

(** [a / b] rounded to the nearest integer, ties to even ([0 <= a], [0 < b]). *)
Definition half_even (a b : Z) : Z :=
  let q := a / b in
  let r := a mod b in
  if 2 * r <? b then q
  else if b <? 2 * r then q + 1
  else q + q mod 2.

(** The double nearest to [p / q] ([0 <= p], [0 < q]): 53 significant bits,
    least exponent -1074, overflow to infinity at [2^1024]. *)
Definition to_double (p q : Z) : number :=
  if p =? 0 then Int 0
  else
    let k := Z.log2 p - Z.log2 q in
    let above := if 0 <=? k then q * 2 ^ k <=? p else q <=? p * 2 ^ (- k) in
    let f := if above then k else k - 1 in
    let e := Z.max (f - 52) (-1074) in
    if 0 <=? e then
      let n := half_even p (q * 2 ^ e) in
      if 2 ^ 1024 <=? n * 2 ^ e then Infinity false else Int (n * 2 ^ e)
    else
      let n := half_even (p * 2 ^ (- e)) q in
      if n mod 2 ^ (- e) =? 0 then Int (n / 2 ^ (- e)) else Frac n e.

(** The double nearest to [m * 10^x]. *)
Definition scale10 (m x : Z) : number :=
  if 0 <=? x then to_double (m * 10 ^ x) 1 else to_double m (10 ^ (- x)).

Definition digit_of (base : Z) (c : ascii) : option Z :=
  let v :=
    if between 48 57 c then code c - 48
    else if between 97 102 c then code c - 87
    else if between 65 70 c then code c - 55
    else -1 in
  if (0 <=? v) && (v <? base) then Some v else None.

(** The longest prefix of digits of [s] in [base], and what follows it. *)
Fixpoint digits (base : Z) (s : string) : list Z * string :=
  match s with
  | EmptyString => ([], EmptyString)
  | String c r =>
      match digit_of base c with
      | Some d => let '(ds, rest) := digits base r in (d :: ds, rest)
      | None => ([], s)
      end
  end.

Definition digits_value (base : Z) (ds : list Z) : Z :=
  fold_left (fun a d => base * a + d) ds 0.

Definition sign (s : string) : bool * string :=
  match s with
  | String "-" r => (true, r)
  | String "+" r => (false, r)
  | _ => (false, s)
  end.

(** ExponentPart, or nothing: the decimal exponent of what follows a mantissa. *)
Definition exponent (s : string) : option Z :=
  match s with
  | EmptyString => Some 0
  | String c r =>
      if Ascii.eqb c "e" || Ascii.eqb c "E" then
        let '(neg, r1) := sign r in
        match digits 10 r1 with
        | (d :: ds, EmptyString) =>
            let v := digits_value 10 (d :: ds) in
            Some (if neg then - v else v)
        | _ => None
        end
      else None
  end.

(** StrUnsignedDecimalLiteral, [Infinity] apart. *)
Definition decimal (s : string) : option number :=
  let '(ip, r) := digits 10 s in
  match r with
  | String "." r1 =>
      let '(fp, r2) := digits 10 r1 in
      match ip ++ fp, exponent r2 with
      | _ :: _, Some x =>
          Some (scale10 (digits_value 10 (ip ++ fp)) (x - Z.of_nat (List.length fp)))
      | _, _ => None
      end
  | _ =>
      match ip, exponent r with
      | _ :: _, Some x => Some (scale10 (digits_value 10 ip) x)
      | _, _ => None
      end
  end.

(** NonDecimalIntegerLiteral: [0x], [0o], [0b] followed by digits. *)
Definition nondecimal (s : string) : option number :=
  match s with
  | String "0" (String p r) =>
      let base :=
        if Ascii.eqb p "x" || Ascii.eqb p "X" then 16
        else if Ascii.eqb p "o" || Ascii.eqb p "O" then 8
        else if Ascii.eqb p "b" || Ascii.eqb p "B" then 2
        else 0 in
      if base =? 0 then None
      else match digits base r with
           | (d :: ds, EmptyString) => Some (to_double (digits_value base (d :: ds)) 1)
           | _ => None
           end
  | _ => None
  end.

(** [Number(s)] for a string [s] (ECMAScript's StringToNumber). *)
Definition Number (s : string) : number :=
  let t := trim s in
  if is_empty t then Int 0
  else match nondecimal t with
       | Some n => n
       | None =>
           let '(neg, u) := sign t in
           if String.eqb u "Infinity" then Infinity neg
           else match decimal u with
                | Some n => if neg then negate n else n
                | None => NaN
                end
       end.

(** The decimal digits of [n], least significant first. *)
Fixpoint le_digits (fuel : nat) (n : Z) : list Z :=
  match fuel with
  | O => []
  | S f => n mod 10 :: if n <? 10 then [] else le_digits f (n / 10)
  end.

Fixpoint string_of_digits (ds : list Z) : string :=
  match ds with
  | [] => EmptyString
  | d :: r => String (chr (48 + d)) (string_of_digits r)
  end.

(** [String(n)] for an integer [n] below [10^21] in magnitude (all the
    integers SQLite hands to JavaScript as numbers are). *)
Definition Number_toString (z : Z) : string :=
  let n := Z.abs z in
  let body := string_of_digits (rev (le_digits (S (Z.to_nat (Z.log2 n))) n)) in
  if z <? 0 then String "-" body else body.

(** ** Buffers

    A [Buffer] is its bytes (a [string] again).  [Buffer.from(s)] of a
    string is its UTF-8 form, the string itself in this model. *)

(** *** [buf.toString("utf8")]

    The decoder replaces every maximal ill-formed part by U+FFFD and goes
    on (the WHATWG decoder, which V8 follows).  [needed] continuation
    bytes are awaited, the next of them within [lo..hi]; [pending] holds
    the bytes of the character read so far. *)

Definition replacement : string :=
  String (chr 0xEF) (String (chr 0xBF) (String (chr 0xBD) EmptyString)).

Fixpoint utf8_decode (needed : nat) (lo hi : Z) (pending : string) (s : string) : string :=
  match s with
  | EmptyString => match needed with O => EmptyString | S _ => replacement end
  | String c r =>
      let b := code c in
      let start :=
        if b <=? 0x7F then String c (utf8_decode 0 0x80 0xBF EmptyString r)
        else if (0xC2 <=? b) && (b <=? 0xDF) then
          utf8_decode 1 0x80 0xBF (String c EmptyString) r
        else if (0xE0 <=? b) && (b <=? 0xEF) then
          utf8_decode 2 (if b =? 0xE0 then 0xA0 else 0x80)
                        (if b =? 0xED then 0x9F else 0xBF) (String c EmptyString) r
        else if (0xF0 <=? b) && (b <=? 0xF4) then
          utf8_decode 3 (if b =? 0xF0 then 0x90 else 0x80)
                        (if b =? 0xF4 then 0x8F else 0xBF) (String c EmptyString) r
        else (replacement ++ utf8_decode 0 0x80 0xBF EmptyString r)%string in
      match needed with
      | O => start
      | S n =>
          if (lo <=? b) && (b <=? hi) then
            match n with
            | O => (pending ++ String c (utf8_decode 0 0x80 0xBF EmptyString r))%string
            | S _ => utf8_decode n 0x80 0xBF (pending ++ String c EmptyString)%string r
            end
          else (replacement ++ start)%string
      end
  end.

Definition toString_utf8 (buf : string) : string :=
  utf8_decode 0 0x80 0xBF EmptyString buf.

(** Well-formed UTF-8 (Unicode's table 3-7): what a JavaScript string
    without lone surrogates is in this model. *)
Definition continuation (b : Z) : bool := (0x80 <=? b) && (b <=? 0xBF).

Fixpoint utf8_valid (s : string) : bool :=
  match s with
  | EmptyString => true
  | String a r1 =>
      let x := code a in
      if x <=? 0x7F then utf8_valid r1
      else match r1 with
           | EmptyString => false
           | String b r2 =>
               let y := code b in
               if (0xC2 <=? x) && (x <=? 0xDF) then continuation y && utf8_valid r2
               else match r2 with
                    | EmptyString => false
                    | String c r3 =>
                        let z := code c in
                        if (0xE0 <=? x) && (x <=? 0xEF) then
                          ((if x =? 0xE0 then 0xA0 else 0x80) <=? y)
                          && (y <=? (if x =? 0xED then 0x9F else 0xBF))
                          && continuation z && utf8_valid r3
                        else match r3 with
                             | EmptyString => false
                             | String e r4 =>
                                 (0xF0 <=? x) && (x <=? 0xF4)
                                 && ((if x =? 0xF0 then 0x90 else 0x80) <=? y)
                                 && (y <=? (if x =? 0xF4 then 0x8F else 0xBF))
                                 && continuation z && continuation (code e)
                                 && utf8_valid r4
                             end
                    end
           end
  end.

(** *** The [base64url] encoding *)

Definition alphabet : string :=
  "ABCDEFGHIJKLMNOPQRSTUVWXYZabcdefghijklmnopqrstuvwxyz0123456789-_".

Definition b64 (n : Z) : ascii :=
  match String.get (Z.to_nat n) alphabet with Some c => c | None => "A"%char end.

(** The value of a character of either alphabet ([+/] or [-_]). *)
Definition unbase64 (c : ascii) : option Z :=
  let x := code c in
  if between 65 90 c then Some (x - 65)
  else if between 97 122 c then Some (x - 71)
  else if between 48 57 c then Some (x + 4)
  else if (x =? 45) || (x =? 43) then Some 62
  else if (x =? 95) || (x =? 47) then Some 63
  else None.

(** [buf.toString("base64url")]: no padding. *)
Fixpoint base64url_encode (buf : string) : string :=
  match buf with
  | EmptyString => EmptyString
  | String a EmptyString =>
      let x := code a in
      String (b64 (x / 4)) (String (b64 (x mod 4 * 16)) EmptyString)
  | String a (String b EmptyString) =>
      let x := code a in
      let y := code b in
      String (b64 (x / 4)) (String (b64 (x mod 4 * 16 + y / 16))
        (String (b64 (y mod 16 * 4)) EmptyString))
  | String a (String b (String c r)) =>
      let x := code a in
      let y := code b in
      let z := code c in
      String (b64 (x / 4)) (String (b64 (x mod 4 * 16 + y / 16))
        (String (b64 (y mod 16 * 4 + z / 64)) (String (b64 (z mod 64))
          (base64url_encode r))))
  end.

(** The sextets Node's decoder reads: characters outside the alphabet are
    skipped and the first [=] ends the input. *)
Fixpoint sextets (s : string) : list Z :=
  match s with
  | EmptyString => []
  | String c r =>
      if Ascii.eqb c "=" then []
      else match unbase64 c with
           | Some v => v :: sextets r
           | None => sextets r
           end
  end.

Fixpoint bytes_of_sextets (l : list Z) : string :=
  match l with
  | a :: b :: c :: d :: r =>
      String (chr (a * 4 + b / 16)) (String (chr (b mod 16 * 16 + c / 4))
        (String (chr (c mod 4 * 64 + d)) (bytes_of_sextets r)))
  | [a; b; c] =>
      String (chr (a * 4 + b / 16)) (String (chr (b mod 16 * 16 + c / 4)) EmptyString)
  | [a; b] => String (chr (a * 4 + b / 16)) EmptyString
  | _ => EmptyString
  end.

(** [Buffer.from(s, "base64url")]: it never throws on a string. *)
Definition base64url_decode (s : string) : string := bytes_of_sextets (sextets s).

(** ** Case mapping

    [String.prototype.toLowerCase] follows the Unicode case tables.  The
    handlers are stated over any mapping that is idempotent and is the
    ASCII mapping on ASCII text; [ascii_case] is the instance that leaves
    every other byte as it is. *)

Fixpoint map_string (f : ascii -> ascii) (s : string) : string :=
  match s with
  | EmptyString => EmptyString
  | String c r => String (f c) (map_string f r)
  end.

Fixpoint all_chars (p : ascii -> bool) (s : string) : bool :=
  match s with
  | EmptyString => true
  | String c r => p c && all_chars p r
  end.

Definition is_ascii (s : string) : bool := all_chars (fun c => code c <? 128) s.

Definition ascii_lower (c : ascii) : ascii :=
  if between 65 90 c then chr (code c + 32) else c.

Definition ascii_toLowerCase (s : string) : string := map_string ascii_lower s.

Class CaseMapping : Type := {
  toLowerCase : string -> string;
  toLowerCase_idempotent : forall s, toLowerCase (toLowerCase s) = toLowerCase s;
  toLowerCase_ascii : forall s, is_ascii s = true -> toLowerCase s = ascii_toLowerCase s
}.

(** ** Requests and responses *)

(** A property of a parsed JSON body as the handlers use it, when
    [String] converts it: absent, a string, or any other value, of which
    only [ToBoolean] and [ToString] matter.  (For the objects and arrays
    [String] throws on, see [parsed] below.) *)
Inductive value : Type :=
  | Undefined
  | Str (s : string)
  | Other (truthy : bool) (text : string).

(** A parsed body, one entry per key; [[]] also stands for a missing body. *)
Definition body : Type := list (string * value).

(** [body?.key] *)
Fixpoint property (b : body) (key : string) : value :=
  match b with
  | [] => Undefined
  | (k, v) :: r => if String.eqb k key then v else property r key
  end.

(** [String(v || "")] *)
Definition String_or_empty (v : value) : string :=
  match v with
  | Undefined => EmptyString
  | Str s => s
  | Other true text => text
  | Other false _ => EmptyString
  end.

(** The JSON a response carries.  [JDate ms] is the string
    [toISOString()] gives for the instant [ms]. *)
Inductive json : Type :=
  | JNull
  | JBool (b : bool)
  | JNum (z : Z)
  | JStr (s : string)
  | JDate (ms : Z)
  | JArr (items : list json)
  | JObj (fields : list (string * json)).

Record response : Type := { status : Z; payload : json }.

(** [data] is [None] for [undefined], which [JSON.stringify] leaves out. *)
Definition sendSuccess (data : option json) (status : Z) : response :=
  {| status := status;
     payload := JObj (("success", JBool true)
                      :: match data with Some j => [("data", j)] | None => [] end) |}.

Definition sendError (error : string) (status : Z) : response :=
  {| status := status;
     payload := JObj [("success", JBool false);
                      ("error", JStr (if is_empty error then "Unknown error" else error))] |}.

Definition parseId (idParam : string) : number := Number idParam.

Definition validatePostInput (b : body) : string + (string * string) :=
  let title := trim (String_or_empty (property b "title")) in
  let content := trim (String_or_empty (property b "content")) in
  if is_empty title then inl "title is required."
  else if is_empty content then inl "content is required."
  else inr (title, content).

(** ** The store *)

Module Post.
Record row : Type := {
  id : Z;
  title : string;
  content : string;
  created_at : Z;
  updated_at : Z
}.
End Post.

Module User.
Record row : Type := {
  id : Z;
  name : string;
  email : string;
  password : string;
  created_at : Z;
  updated_at : Z
}.
End User.

(** The two tables in row order, each with the counter [sqlite_sequence]
    keeps for its AUTOINCREMENT key. *)
Record db : Type := {
  posts : list Post.row;
  posts_seq : Z;
  users : list User.row;
  users_seq : Z
}.

Definition empty_db : db :=
  {| posts := []; posts_seq := 0; users := []; users_seq := 0 |}.

(** AUTOINCREMENT: one more than the largest key the table has or ever had. *)
Definition next_rowid (ids : list Z) (seq : Z) : Z :=
  Z.max (fold_right Z.max 0 ids) seq + 1.

(** [id = ?] with a JavaScript number bound to [?]: SQLite compares the
    integer key with the double exactly. *)
Definition id_is (id : number) (rowid : Z) : bool :=
  match id with Int z => z =? rowid | _ => false end.

(** A TEXT column as the driver hands it to JavaScript.  [node:sqlite]
    makes the string from the C string [sqlite3_column_text] points to,
    so it ends before the first U+0000 of the stored text; a bound
    parameter is stored whole, and a WHERE clause compares what is
    stored. *)
Fixpoint column_text (s : string) : string :=
  match s with
  | EmptyString => EmptyString
  | String c r => if code c =? 0 then EmptyString else String c (column_text r)
  end.

(** A row of a SELECT over [posts], as [.get] and [.all] return it. *)
Definition read_post (p : Post.row) : Post.row :=
  {| Post.id := Post.id p;
     Post.title := column_text (Post.title p);
     Post.content := column_text (Post.content p);
     Post.created_at := Post.created_at p;
     Post.updated_at := Post.updated_at p |}.

Fixpoint insert_desc (p : Post.row) (l : list Post.row) : list Post.row :=
  match l with
  | [] => [p]
  | q :: r => if Post.id q <=? Post.id p then p :: l else q :: insert_desc p r
  end.

(** [SELECT ... FROM posts ORDER BY id DESC] *)
Definition select_posts_desc (d : db) : list Post.row :=
  map read_post (fold_right insert_desc [] (posts d)).

(** [SELECT ... FROM posts WHERE id = ?] with [.get] *)
Definition select_post (d : db) (id : number) : option Post.row :=
  option_map read_post (find (fun p => id_is id (Post.id p)) (posts d)).

(** [INSERT INTO posts (title, content, created_at, updated_at)]: the new
    key and the store. *)
Definition insert_post (d : db) (title content : string) (created updated : Z) : Z * db :=
  let rowid := next_rowid (map Post.id (posts d)) (posts_seq d) in
  (rowid,
   {| posts := posts d ++ [{| Post.id := rowid; Post.title := title; Post.content := content;
                              Post.created_at := created; Post.updated_at := updated |}];
      posts_seq := rowid;
      users := users d;
      users_seq := users_seq d |}).

Definition count_changes {A : Type} (hit : A -> bool) (l : list A) : Z :=
  Z.of_nat (List.length (filter hit l)).

(** [UPDATE posts SET title = ?, content = ?, updated_at = ? WHERE id = ?]:
    the number of rows changed and the store. *)
Definition update_post (d : db) (title content : string) (updated : Z) (id : number) : Z * db :=
  (count_changes (fun p => id_is id (Post.id p)) (posts d),
   {| posts := map (fun p =>
                      if id_is id (Post.id p)
                      then {| Post.id := Post.id p; Post.title := title; Post.content := content;
                              Post.created_at := Post.created_at p; Post.updated_at := updated |}
                      else p) (posts d);
      posts_seq := posts_seq d;
      users := users d;
      users_seq := users_seq d |}).

(** [DELETE FROM posts WHERE id = ?] *)
Definition delete_post (d : db) (id : number) : Z * db :=
  (count_changes (fun p => id_is id (Post.id p)) (posts d),
   {| posts := filter (fun p => negb (id_is id (Post.id p))) (posts d);
      posts_seq := posts_seq d;
      users := users d;
      users_seq := users_seq d |}).

(** A row of a SELECT over [users], as the driver returns it: [password]
    is there only when the statement names the column. *)
Record user : Type := {
  user_id : Z;
  user_name : string;
  user_email : string;
  user_password : option string;
  user_createdAt : Z
}.

Definition select_columns (with_password : bool) (u : User.row) : user :=
  {| user_id := User.id u;
     user_name := column_text (User.name u);
     user_email := column_text (User.email u);
     user_password := if with_password then Some (column_text (User.password u)) else None;
     user_createdAt := User.created_at u |}.

(** [SELECT id FROM users WHERE email = ?] and, with the password column,
    [SELECT id, name, email, password, created_at AS createdAt FROM users
    WHERE email = ?] *)
Definition select_user_by_email (with_password : bool) (d : db) (email : string) : option user :=
  option_map (select_columns with_password)
    (find (fun u => String.eqb (User.email u) email) (users d)).

(** [SELECT id, name, email, created_at AS createdAt FROM users WHERE id = ?] *)
Definition select_user_by_id (d : db) (id : number) : option user :=
  option_map (select_columns false) (find (fun u => id_is id (User.id u)) (users d)).

(** [... FROM users WHERE id = ? AND email = ?] *)
Definition select_user_by_id_and_email (d : db) (id : number) (email : string) : option user :=
  option_map (select_columns false)
    (find (fun u => id_is id (User.id u) && String.eqb (User.email u) email) (users d)).

(** [INSERT INTO users (name, email, password, created_at, updated_at)]:
    [email] is UNIQUE, and the statement throws when a row has it. *)
Definition insert_user (d : db) (name email password : string) (created updated : Z)
  : string + (Z * db) :=
  if existsb (fun u => String.eqb (User.email u) email) (users d)
  then inl "UNIQUE constraint failed: users.email"
  else
    let rowid := next_rowid (map User.id (users d)) (users_seq d) in
    inr (rowid,
         {| posts := posts d;
            posts_seq := posts_seq d;
            users := users d ++ [{| User.id := rowid; User.name := name; User.email := email;
                                    User.password := password;
                                    User.created_at := created; User.updated_at := updated |}];
            users_seq := rowid |}).

(** *** Start-up: each table is seeded when it is empty. *)

Definition seed_posts (now : Z) (d : db) : db :=
  match posts d with
  | _ :: _ => d
  | [] =>
      let d1 := snd (insert_post d "First post" "This is sample seed data for CRUD demo." now now) in
      let d2 := snd (insert_post d1 "Second post" "Try list/detail/create/edit/delete flow." now now) in
      snd (insert_post d2 "Third post" "Data is persisted in SQLite database." now now)
  end.

Definition seed_users (now : Z) (d : db) : db :=
  match users d with
  | _ :: _ => d
  | [] =>
      match insert_user d "Demo User" "demo@sample.com" "1234" now now with
      | inr (_, d') => d'
      | inl _ => d
      end
  end.

Definition bootstrap (now_posts now_users : Z) (d : db) : db :=
  seed_users now_users (seed_posts now_posts d).

(** ** The token codec *)

Definition mapUser (row : user) : json :=
  JObj [("id", JNum (user_id row));
        ("name", JStr (user_name row));
        ("email", JStr (user_email row));
        ("createdAt", JDate (user_createdAt row))].

(** [date_now] is the reading of [Date.now()]. *)
Definition createToken (u : user) (date_now : Z) : string :=
  base64url_encode
    (Number_toString (user_id u) ++ ":" ++ user_email u ++ ":" ++ Number_toString date_now)%string.

Record claims : Type := { claims_id : number; claims_email : string }.

(** [!email] for the second element of the split, [None] when there is none. *)
Definition falsy (email : option string) : bool :=
  match email with Some e => is_empty e | None => true end.

(** No step of the [try] block throws on a string, so the [catch] branch
    adds no case: [None] is the [null] of the guard. *)
Definition parseToken (token : string) : option claims :=
  let decoded := toString_utf8 (base64url_decode token) in
  let parts := split ":" decoded in
  let idRaw := nth 0 parts EmptyString in
  let email := nth_error parts 1 in
  let id := Number idRaw in
  if negb (Number_isInteger id) || falsy email then None
  else Some {| claims_id := id;
               claims_email := match email with Some e => e | None => EmptyString end |}.

(** [authorization] is [req.headers.authorization], [None] when the request
    has no such header. *)
Definition readBearerToken (authorization : option string) : option string :=
  let header := match authorization with Some h => h | None => EmptyString end in
  if negb (startsWith "Bearer " header) then None
  else Some (trim (slice 7 header)).

(** ** The handlers *)

Definition post_json (p : Post.row) : json :=
  JObj [("id", JNum (Post.id p));
        ("title", JStr (Post.title p));
        ("content", JStr (Post.content p));
        ("createdAt", JDate (Post.created_at p));
        ("updatedAt", JDate (Post.updated_at p))].

(** The number a handler answers with, as JSON (an integer here). *)
Definition number_json (n : number) : json :=
  match n with Int z => JNum z | _ => JNull end.

(** [GET /api/posts] *)
Definition list_posts (d : db) : response * db :=
  (sendSuccess (Some (JArr (map post_json (select_posts_desc d)))) 200, d).

(** [GET /api/posts/:id] *)
Definition get_post (d : db) (idParam : string) : response * db :=
  let id := parseId idParam in
  if negb (Number_isInteger id) then (sendError "Invalid id." 422, d)
  else match select_post d id with
       | None => (sendError "Post not found." 404, d)
       | Some post => (sendSuccess (Some (post_json post)) 200, d)
       end.

(** [POST /api/posts]; [now] is the reading of [new Date()]. *)
Definition create_post (d : db) (b : body) (now : Z) : response * db :=
  match validatePostInput b with
  | inl error => (sendError error 422, d)
  | inr (title, content) =>
      let '(lastInsertRowid, d') := insert_post d title content now now in
      let createdPost := select_post d' (Int lastInsertRowid) in
      (sendSuccess (option_map post_json createdPost) 201, d')
  end.

(** [PUT /api/posts/:id] *)
Definition update_post_by_id (d : db) (idParam : string) (b : body) (now : Z) : response * db :=
  let id := parseId idParam in
  if negb (Number_isInteger id) then (sendError "Invalid id." 422, d)
  else match validatePostInput b with
       | inl error => (sendError error 422, d)
       | inr (title, content) =>
           let '(changes, d') := update_post d title content now id in
           if changes =? 0 then (sendError "Post not found." 404, d')
           else (sendSuccess (option_map post_json (select_post d' id)) 200, d')
       end.

(** [DELETE /api/posts/:id] *)
Definition delete_post_by_id (d : db) (idParam : string) : response * db :=
  let id := parseId idParam in
  if negb (Number_isInteger id) then (sendError "Invalid id." 422, d)
  else
    let '(changes, d') := delete_post d id in
    if changes =? 0 then (sendError "Post not found." 404, d')
    else (sendSuccess (Some (JObj [("id", number_json id)])) 200, d').

(** The end of the [try] block of signup, from the INSERT on: the
    INSERT, the read-back of the new row and the answer.  The [catch]
    turns the error of a statement into a 500; reading a property of the
    [undefined] a missing row gives is such an error too. *)
Definition signup_insert (d : db) (name email password : string) (now date_now : Z)
  : response * db :=
  match insert_user d name email password now now with
  | inl message => (sendError message 500, d)
  | inr (lastInsertRowid, d') =>
      match select_user_by_id d' (Int lastInsertRowid) with
      | Some user =>
          (sendSuccess
             (Some (JObj [("token", JStr (createToken user date_now));
                          ("user", mapUser user)])) 201, d')
      | None => (sendError "Cannot read properties of undefined (reading 'id')" 500, d')
      end
  end.

(** [POST /api/auth/signup]; [now] is the reading of [new Date()] and
    [date_now] the later one of [Date.now()]. *)
Definition signup `{CaseMapping} (d : db) (b : body) (now date_now : Z) : response * db :=
  let name := trim (String_or_empty (property b "name")) in
  let email := toLowerCase (trim (String_or_empty (property b "email"))) in
  let password := trim (String_or_empty (property b "password")) in
  if is_empty name || is_empty email || is_empty password
  then (sendError "name, email, password are required." 422, d)
  else match select_user_by_email false d email with
       | Some _ => (sendError "This email is already registered." 409, d)
       | None => signup_insert d name email password now date_now
       end.

(** [POST /api/auth/login] *)
Definition login `{CaseMapping} (d : db) (b : body) (date_now : Z) : response * db :=
  let email := toLowerCase (trim (String_or_empty (property b "email"))) in
  let password := trim (String_or_empty (property b "password")) in
  if is_empty email || is_empty password
  then (sendError "email and password are required." 422, d)
  else match select_user_by_email true d email with
       | None => (sendError "Invalid email or password." 401, d)
       | Some user =>
           match user_password user with
           | Some stored =>
               if String.eqb stored password
               then (sendSuccess
                       (Some (JObj [("token", JStr (createToken user date_now));
                                    ("user", mapUser user)])) 200, d)
               else (sendError "Invalid email or password." 401, d)
           | None => (sendError "Invalid email or password." 401, d)
           end
       end.

(** [GET /api/auth/me] *)
Definition me (d : db) (authorization : option string) : response * db :=
  match readBearerToken authorization with
  | None => (sendError "Bearer token is required." 401, d)
  | Some token =>
      if is_empty token then (sendError "Bearer token is required." 401, d)
      else match parseToken token with
           | None => (sendError "Invalid token." 401, d)
           | Some c =>
               match select_user_by_id_and_email d (claims_id c) (claims_email c) with
               | None => (sendError "Invalid token." 401, d)
               | Some user => (sendSuccess (Some (JObj [("user", mapUser user)])) 200, d)
               end
           end
  end.

(** *** The server as a transition system

    The requests that reach the store, each with the clock readings its
    handler takes.  (The health, greeting, sum and fail routes and the
    fallback neither read nor write it.) *)

Inductive request : Type :=
  | GET_posts
  | GET_post (id : string)
  | POST_posts (b : body) (now : Z)
  | PUT_post (id : string) (b : body) (now : Z)
  | DELETE_post (id : string)
  | POST_signup (b : body) (now date_now : Z)
  | POST_login (b : body) (date_now : Z)
  | GET_me (authorization : option string).

Definition handle `{CaseMapping} (d : db) (r : request) : response * db :=
  match r with
  | GET_posts => list_posts d
  | GET_post id => get_post d id
  | POST_posts b now => create_post d b now
  | PUT_post id b now => update_post_by_id d id b now
  | DELETE_post id => delete_post_by_id d id
  | POST_signup b now date_now => signup d b now date_now
  | POST_login b date_now => login d b date_now
  | GET_me authorization => me d authorization
  end.

(** *** Properties that do not convert

    [String(v)] throws a TypeError on an object or array that gives no
    primitive, as [{toString: 1}] does.  Every handler converts the
    properties it reads before its [try] block, so the handler throws, the
    statements of the block are not run, and Express's own error handler
    answers with status 500 and its HTML page, which is no envelope. *)

Inductive parsed : Type :=
  | Converts (v : value)
  | No_primitive.

Definition parsed_body : Type := list (string * parsed).

(** [body?.key] *)
Fixpoint parsed_property (b : parsed_body) (key : string) : parsed :=
  match b with
  | [] => Converts Undefined
  | (k, v) :: r => if String.eqb k key then v else parsed_property r key
  end.

(** The properties of the keys, converted in this order; [None] when one
    of the conversions throws. *)
Fixpoint converted (b : parsed_body) (keys : list string) : option body :=
  match keys with
  | [] => Some []
  | key :: rest =>
      match parsed_property b key, converted b rest with
      | Converts v, Some b' => Some ((key, v) :: b')
      | _, _ => None
      end
  end.

(** What a request comes to: the answer of the handler, or the TypeError
    the handler throws. *)
Inductive outcome : Type :=
  | Answers (a : response)
  | Uncaught.

Definition answered (result : response * db) : outcome * db :=
  (Answers (fst result), snd result).

Inductive parsed_request : Type :=
  | Req_GET_posts
  | Req_GET_post (id : string)
  | Req_POST_posts (b : parsed_body) (now : Z)
  | Req_PUT_post (id : string) (b : parsed_body) (now : Z)
  | Req_DELETE_post (id : string)
  | Req_POST_signup (b : parsed_body) (now date_now : Z)
  | Req_POST_login (b : parsed_body) (date_now : Z)
  | Req_GET_me (authorization : option string).

(** The handlers on any parsed body.  [PUT] checks the id before it
    validates the body. *)
Definition serve `{CaseMapping} (d : db) (r : parsed_request) : outcome * db :=
  match r with
  | Req_GET_posts => answered (list_posts d)
  | Req_GET_post id => answered (get_post d id)
  | Req_POST_posts b now =>
      match converted b ["title"; "content"] with
      | Some b' => answered (create_post d b' now)
      | None => (Uncaught, d)
      end
  | Req_PUT_post id b now =>
      if negb (Number_isInteger (parseId id))
      then (Answers (sendError "Invalid id." 422), d)
      else match converted b ["title"; "content"] with
           | Some b' => answered (update_post_by_id d id b' now)
           | None => (Uncaught, d)
           end
  | Req_DELETE_post id => answered (delete_post_by_id d id)
  | Req_POST_signup b now date_now =>
      match converted b ["name"; "email"; "password"] with
      | Some b' => answered (signup d b' now date_now)
      | None => (Uncaught, d)
      end
  | Req_POST_login b date_now =>
      match converted b ["email"; "password"] with
      | Some b' => answered (login d b' date_now)
      | None => (Uncaught, d)
      end
  | Req_GET_me authorization => answered (me d authorization)
  end.

(** The stores the server can be in: a fresh file after start-up, and what
    a request or a restart makes of such a store. *)
Inductive reachable `{CaseMapping} : db -> Prop :=
  | reachable_fresh : forall t1 t2, reachable (bootstrap t1 t2 empty_db)
  | reachable_restart : forall t1 t2 d, reachable d -> reachable (bootstrap t1 t2 d)
  | reachable_request : forall d r, reachable d -> reachable (snd (handle d r)).

(** The mapping that changes ASCII letters only. *)
#[global, refine] Instance ascii_case : CaseMapping :=
  {| toLowerCase := ascii_toLowerCase |}.
Proof.
  - intros s. unfold ascii_toLowerCase.
    induction s as [|c r IH]; simpl; [reflexivity|].
    rewrite IH. f_equal. destruct c as [[] [] [] [] [] [] [] []]; reflexivity.
  - reflexivity.
Defined.

(** ** The utility routes *)

(** [GET /api/greeting]; [name] is [req.query.name] and [now] the reading
    of [new Date()]. *)
Definition greeting (name : value) (now : Z) : response :=
  let trimmed_name := trim (String_or_empty name) in
  let name := if is_empty trimmed_name then "Guest" else trimmed_name in
  sendSuccess (Some (JObj [("message", JStr ("Hello, " ++ name ++ "!")%string);
                           ("createdAt", JDate now)])) 200.

(** ** Listening

    [startServer] binds a port and, when the port is taken, tries the next
    one. *)

(** [port + 1] on doubles. *)
Definition plus_one (port : number) : number :=
  match port with
  | NaN => NaN
  | Infinity negative => Infinity negative
  | Int z => if 0 <=? z + 1 then to_double (z + 1) 1 else negate (to_double (- (z + 1)) 1)
  | Frac m e =>
      let q := 2 ^ (- e) in
      if 0 <=? m + q then to_double (m + q) q else negate (to_double (- (m + q)) q)
  end.

(** [Number(process.env.PORT) || 4000]; a variable that is not set reads
    as [undefined]. *)
Definition PORT (env_PORT : option string) : number :=
  match match env_PORT with Some s => Number s | None => NaN end with
  | NaN => Int 4000
  | Int 0 => Int 4000
  | n => n
  end.

(** [!process.env.PORT] *)
Definition not_set (env_PORT : option string) : bool :=
  match env_PORT with
  | Some (String _ _) => false
  | _ => true
  end.

(** What [app.listen(port)] comes to: the server listens, or it emits an
    [error] event with a code; a port that is none makes [listen] itself
    throw, with a code that is not [EADDRINUSE], which ends start-up as
    the event of that code does. *)
Inductive bound : Type :=
  | is_listening
  | emits (code : string).

(** How start-up ends: listening on a port, [process.exit(code)], or an
    error nothing catches. *)
Inductive started : Type :=
  | Listens (port : number)
  | Exits (code : Z)
  | Throws (code : string).

Section Listen.

(** The state of the ports of the machine, and the environment variable. *)
Variable listen : number -> bound.
Variable env_PORT : option string.

(** The ports tried, in order, and how start-up ends. *)
Fixpoint startServer (port : number) (retriesLeft : nat) : list number * started :=
  match listen port with
  | is_listening => ([port], Listens port)
  | emits code =>
      match retriesLeft with
      | S retries =>
          if String.eqb code "EADDRINUSE" && not_set env_PORT
          then let '(tried, end_) := startServer (plus_one port) retries in
               (port :: tried, end_)
          else if String.eqb code "EADDRINUSE" then ([port], Exits 1)
          else ([port], Throws code)
      | O =>
          if String.eqb code "EADDRINUSE" then ([port], Exits 1)
          else ([port], Throws code)
      end
  end.

(** [startServer(PORT)], [retriesLeft] taking its default. *)
Definition main : list number * started := startServer (PORT env_PORT) 10.

End Listen.

(** ** The posts-only server

    The second server of [src/server.js]: the posts routes alone, with a
    store that has no users table, its messages and seed rows in Korean.
    Its store is the posts part of [db]. *)

Module Ko.

Definition validatePostInput (b : body) : string + (string * string) :=
  let title := trim (String_or_empty (property b "title")) in
  let content := trim (String_or_empty (property b "content")) in
  if is_empty title then inl "title은 필수입니다."
  else if is_empty content then inl "content는 필수입니다."
  else inr (title, content).

Definition seed_posts (now : Z) (d : db) : db :=
  match posts d with
  | _ :: _ => d
  | [] =>
      let d1 := snd (insert_post d "첫 번째 글" "CRUD 예시를 위한 샘플 데이터입니다." now now) in
      let d2 := snd (insert_post d1 "두 번째 글"
                       "목록/상세/쓰기/수정/삭제 라우트를 확인해보세요." now now) in
      snd (insert_post d2 "세 번째 글"
             "SQLite 저장소라 서버 재시작 후에도 데이터가 유지됩니다." now now)
  end.

(** [GET /api/posts] *)
Definition list_posts (d : db) : response * db :=
  (sendSuccess (Some (JArr (map post_json (select_posts_desc d)))) 200, d).

(** [GET /api/posts/:id] *)
Definition get_post (d : db) (idParam : string) : response * db :=
  let id := parseId idParam in
  if negb (Number_isInteger id) then (sendError "유효한 id가 아닙니다." 422, d)
  else match select_post d id with
       | None => (sendError "게시글을 찾을 수 없습니다." 404, d)
       | Some post => (sendSuccess (Some (post_json post)) 200, d)
       end.

(** [POST /api/posts] *)
Definition create_post (d : db) (b : body) (now : Z) : response * db :=
  match validatePostInput b with
  | inl error => (sendError error 422, d)
  | inr (title, content) =>
      let '(lastInsertRowid, d') := insert_post d title content now now in
      let createdPost := select_post d' (Int lastInsertRowid) in
      (sendSuccess (option_map post_json createdPost) 201, d')
  end.

(** [PUT /api/posts/:id] *)
Definition update_post_by_id (d : db) (idParam : string) (b : body) (now : Z) : response * db :=
  let id := parseId idParam in
  if negb (Number_isInteger id) then (sendError "유효한 id가 아닙니다." 422, d)
  else match validatePostInput b with
       | inl error => (sendError error 422, d)
       | inr (title, content) =>
           let '(changes, d') := update_post d title content now id in
           if changes =? 0 then (sendError "게시글을 찾을 수 없습니다." 404, d')
           else (sendSuccess (option_map post_json (select_post d' id)) 200, d')
       end.

(** [DELETE /api/posts/:id] *)
Definition delete_post_by_id (d : db) (idParam : string) : response * db :=
  let id := parseId idParam in
  if negb (Number_isInteger id) then (sendError "유효한 id가 아닙니다." 422, d)
  else
    let '(changes, d') := delete_post d id in
    if changes =? 0 then (sendError "게시글을 찾을 수 없습니다." 404, d')
    else (sendSuccess (Some (JObj [("id", number_json id)])) 200, d').

Inductive request : Type :=
  | GET_posts
  | GET_post (id : string)
  | POST_posts (b : body) (now : Z)
  | PUT_post (id : string) (b : body) (now : Z)
  | DELETE_post (id : string).

Definition handle (d : db) (r : request) : response * db :=
  match r with
  | GET_posts => list_posts d
  | GET_post id => get_post d id
  | POST_posts b now => create_post d b now
  | PUT_post id b now => update_post_by_id d id b now
  | DELETE_post id => delete_post_by_id d id
  end.

End Ko.

(** * The vocabulary of the properties *)

(** [p] may stand before [q] in a listing by descending [id]. *)
Definition id_desc (p q : Post.row) : Prop := Post.id q <= Post.id p.

(** The keys of the posts are distinct, positive and not above the
    counter of the table. *)
Definition posts_ok (d : db) : Prop :=
  NoDup (map Post.id (posts d))
  /\ forall p, In p (posts d) -> 0 < Post.id p <= posts_seq d.

(** The same of the users, whose emails moreover are distinct, not empty
    and in lower case. *)
Definition users_ok `{CaseMapping} (d : db) : Prop :=
  NoDup (map User.id (users d))
  /\ NoDup (map User.email (users d))
  /\ forall u, In u (users d) ->
       0 < User.id u <= users_seq d
       /\ toLowerCase (User.email u) = User.email u
       /\ User.email u <> EmptyString.

Definition store_ok `{CaseMapping} (d : db) : Prop := posts_ok d /\ users_ok d.

(** Whether the key occurs anywhere in a JSON value. *)
Fixpoint has_key (k : string) (j : json) : bool :=
  match j with
  | JArr items => existsb (has_key k) items
  | JObj fields =>
      existsb (fun kv => String.eqb (fst kv) k || has_key k (snd kv)) fields
  | _ => false
  end.

(** A user row with its password blanked. *)
Definition erase_password (u : User.row) : User.row :=
  {| User.id := User.id u; User.name := User.name u; User.email := User.email u;
     User.password := EmptyString;
     User.created_at := User.created_at u; User.updated_at := User.updated_at u |}.

(** Two stores that differ at most in the passwords of their user rows. *)
Definition same_but_passwords (d1 d2 : db) : Prop :=
  posts d1 = posts d2 /\ posts_seq d1 = posts_seq d2 /\ users_seq d1 = users_seq d2
  /\ map erase_password (users d1) = map erase_password (users d2).

(** The sixty-four values of a base64 character. *)
Definition sextet_values : list Z := map Z.of_nat (seq 0 64).

(** A decimal digit, as a value. *)
Definition digit (d : Z) : Prop := 0 <= d <= 9.

(** ASCII that is no white space, and the characters of a decimal numeral
    (with the sign). *)
Definition plain (c : ascii) : bool := between 33 127 c.

Definition numeric (c : ascii) : bool := between 45 57 c.

(** A character a numeral can begin with: a digit, a sign, the point, or
    the [I] of [Infinity]. *)
Definition numeral_start (c : ascii) : bool :=
  between 48 57 c || Ascii.eqb c "+" || Ascii.eqb c "-" || Ascii.eqb c "."
  || Ascii.eqb c "I".

(** Text without U+0000, which the driver reads back whole. *)
Definition no_nul (s : string) : bool := all_chars (fun c => negb (code c =? 0)) s.

(** Text without a colon. *)
Definition no_colon (s : string) : bool := all_chars (fun c => negb (Ascii.eqb c ":")) s.

(** A text as validation passes it on: not empty, and with no white space
    at either end. *)
Definition trimmed (s : string) : Prop := s <> EmptyString /\ trim s = s.

(** Every stored text the handlers require is such a text. *)
Definition text_ok (d : db) : Prop :=
  (forall p, In p (posts d) -> trimmed (Post.title p) /\ trimmed (Post.content p))
  /\ (forall u, In u (users d) -> trimmed (User.name u) /\ trimmed (User.password u))
  /\ users d <> [].

(** The store after a sequence of requests. *)
Definition run `{CaseMapping} (d : db) (requests : list request) : db :=
  fold_left (fun d r => snd (handle d r)) requests d.

(** The statuses a route answers with. *)
Definition statuses_of (r : parsed_request) : list Z :=
  match r with
  | Req_GET_posts => [200]
  | Req_GET_post _ => [200; 404; 422]
  | Req_POST_posts _ _ => [201; 422]
  | Req_PUT_post _ _ _ => [200; 404; 422]
  | Req_DELETE_post _ => [200; 404; 422]
  | Req_POST_signup _ _ _ => [201; 409; 422]
  | Req_POST_login _ _ => [200; 401; 422]
  | Req_GET_me _ => [200; 401]
  end.

(** A body, and a request, all of whose properties convert. *)
Definition all_convert (b : body) : parsed_body :=
  map (fun kv => (fst kv, Converts (snd kv))) b.

Definition converting (r : request) : parsed_request :=
  match r with
  | GET_posts => Req_GET_posts
  | GET_post id => Req_GET_post id
  | POST_posts b now => Req_POST_posts (all_convert b) now
  | PUT_post id b now => Req_PUT_post id (all_convert b) now
  | DELETE_post id => Req_DELETE_post id
  | POST_signup b now date_now => Req_POST_signup (all_convert b) now date_now
  | POST_login b date_now => Req_POST_login (all_convert b) date_now
  | GET_me authorization => Req_GET_me authorization
  end.

(** The body of a request and the keys its handler converts, in order. *)
Definition read_keys (r : parsed_request) : parsed_body * list string :=
  match r with
  | Req_POST_posts b _ => (b, ["title"; "content"])
  | Req_PUT_post _ b _ => (b, ["title"; "content"])
  | Req_POST_signup b _ _ => (b, ["name"; "email"; "password"])
  | Req_POST_login b _ => (b, ["email"; "password"])
  | _ => ([], [])
  end.

(** An answer in the envelope: [{success: true, data}] with a status of
    success, or [{success: false, error}] with a text that is not empty
    and another status. *)
Definition envelope (a : response) : Prop :=
  ((status a = 200 \/ status a = 201)
   /\ exists data, payload a = JObj [("success", JBool true); ("data", data)])
  \/ (status a <> 200 /\ status a <> 201
      /\ exists message, message <> EmptyString
           /\ payload a = JObj [("success", JBool false); ("error", JStr message)]).

(** The part of the store a route may write. *)
Definition may_write (r : request) (d d' : db) : Prop :=
  match r with
  | GET_posts | GET_post _ | POST_login _ _ | GET_me _ => d' = d
  | POST_posts _ _ | PUT_post _ _ _ | DELETE_post _ =>
      users d' = users d /\ users_seq d' = users_seq d
  | POST_signup _ _ _ => posts d' = posts d /\ posts_seq d' = posts_seq d
  end.

(** The ports from [z] on, [n] of them. *)
Definition ports_from (z : Z) (n : nat) : list number :=
  map (fun i => Int (z + Z.of_nat i)) (seq 0 n).

(** The request of the full server that a request of the posts-only
    server is. *)
Definition same_request (r : Ko.request) : request :=
  match r with
  | Ko.GET_posts => GET_posts
  | Ko.GET_post id => GET_post id
  | Ko.POST_posts b now => POST_posts b now
  | Ko.PUT_post id b now => PUT_post id b now
  | Ko.DELETE_post id => DELETE_post id
  end.

(** Two answers that are the same, or are errors of the same status. *)
Definition same_but_message (a a' : response) : Prop :=
  a = a'
  \/ exists message message', a = sendError message (status a')
                              /\ a' = sendError message' (status a')
                              /\ 400 <= status a'.

(** Linear arithmetic with the quotients and remainders of the codecs. *)
Ltac div_lia := Z.div_mod_to_equations; lia.

(** Two readings of one header, or of one token, are the same. *)
Ltac same_token :=
  repeat match goal with
         | H : Some _ = Some _ |- _ => injection H as H; subst
         | H1 : parseToken ?t = _, H2 : parseToken ?t = _ |- _ => rewrite H1 in H2
         end.

(** * Properties *)

(** ** Characters *)

Lemma code_range (c : ascii) : 0 <= code c < 256.
Proof.
  unfold code. pose proof (N_ascii_bounded c) as H. lia.
Qed.

Lemma chr_code (c : ascii) : chr (code c) = c.
Proof.
  unfold chr, code. rewrite N2Z.id. apply ascii_N_embedding.
Qed.

Lemma code_chr (n : Z) : 0 <= n < 256 -> code (chr n) = n.
Proof.
  intros H. unfold chr, code. rewrite N_ascii_embedding by lia. lia.
Qed.

Lemma code_inj (a b : ascii) : code a = code b -> a = b.
Proof.
  intros H. rewrite <- (chr_code a), <- (chr_code b). now rewrite H.
Qed.

Lemma is_empty_true (s : string) : is_empty s = true <-> s = EmptyString.
Proof.
  destruct s; simpl; split; congruence.
Qed.

Lemma is_empty_false (s : string) : is_empty s = false <-> s <> EmptyString.
Proof.
  destruct s; simpl; split; congruence.
Qed.

(** ** The base64url codec *)

Lemma sextet_values_complete (n : Z) : 0 <= n < 64 -> In n sextet_values.
Proof.
  intros H. unfold sextet_values. apply in_map_iff. exists (Z.to_nat n).
  split; [lia|]. apply in_seq. lia.
Qed.

Lemma unbase64_b64 (n : Z) :
  0 <= n < 64 -> unbase64 (b64 n) = Some n /\ Ascii.eqb (b64 n) "=" = false.
Proof.
  intros H. apply sextet_values_complete in H. revert n H.
  apply Forall_forall.
  unfold sextet_values. simpl. repeat constructor.
Qed.

Lemma sextets_b64 (n : Z) (s : string) :
  0 <= n < 64 -> sextets (String (b64 n) s) = n :: sextets s.
Proof.
  intros H. destruct (unbase64_b64 n H) as [Hu He]. simpl. now rewrite He, Hu.
Qed.

Lemma base64url_roundtrip_step (n : nat) :
  forall buf, (String.length buf <= n)%nat -> base64url_decode (base64url_encode buf) = buf.
Proof.
  unfold base64url_decode.
  induction n as [|n IH]; intros buf Hlen.
  - destruct buf; [reflexivity|simpl in Hlen; lia].
  - destruct buf as [|a [|b [|c r]]].
    + reflexivity.
    + pose proof (code_range a) as Ha.
      cbn [base64url_encode].
      rewrite !sextets_b64 by div_lia.
      cbn [sextets bytes_of_sextets].
      replace (code a / 4 * 4 + code a mod 4 * 16 / 16) with (code a) by div_lia.
      now rewrite chr_code.
    + pose proof (code_range a) as Ha. pose proof (code_range b) as Hb.
      cbn [base64url_encode].
      rewrite !sextets_b64 by div_lia.
      cbn [sextets bytes_of_sextets].
      replace (code a / 4 * 4 + (code a mod 4 * 16 + code b / 16) / 16) with (code a) by div_lia.
      replace ((code a mod 4 * 16 + code b / 16) mod 16 * 16 + code b mod 16 * 4 / 4)
        with (code b) by div_lia.
      now rewrite !chr_code.
    + pose proof (code_range a) as Ha. pose proof (code_range b) as Hb.
      pose proof (code_range c) as Hc.
      cbn [base64url_encode].
      rewrite !sextets_b64 by div_lia.
      cbn [bytes_of_sextets].
      replace (code a / 4 * 4 + (code a mod 4 * 16 + code b / 16) / 16) with (code a) by div_lia.
      replace ((code a mod 4 * 16 + code b / 16) mod 16 * 16 + (code b mod 16 * 4 + code c / 64) / 4)
        with (code b) by div_lia.
      replace ((code b mod 16 * 4 + code c / 64) mod 4 * 64 + code c mod 64) with (code c) by div_lia.
      rewrite !chr_code. f_equal. f_equal. f_equal.
      apply IH. simpl in Hlen. lia.
Qed.

Lemma base64url_roundtrip (buf : string) : base64url_decode (base64url_encode buf) = buf.
Proof.
  apply (base64url_roundtrip_step (String.length buf)). lia.
Qed.

(** ** Decoding well-formed UTF-8 *)

Lemma append_assoc (a b c : string) : ((a ++ b) ++ c = a ++ (b ++ c))%string.
Proof.
  induction a as [|x a IH]; simpl; [reflexivity|now rewrite IH].
Qed.

Lemma utf8_decode_cons (needed : nat) (lo hi : Z) (pending : string) (c : ascii) (r : string) :
  utf8_decode needed lo hi pending (String c r) =
  let b := code c in
  let start :=
    if b <=? 0x7F then String c (utf8_decode 0 0x80 0xBF EmptyString r)
    else if (0xC2 <=? b) && (b <=? 0xDF) then
      utf8_decode 1 0x80 0xBF (String c EmptyString) r
    else if (0xE0 <=? b) && (b <=? 0xEF) then
      utf8_decode 2 (if b =? 0xE0 then 0xA0 else 0x80)
                    (if b =? 0xED then 0x9F else 0xBF) (String c EmptyString) r
    else if (0xF0 <=? b) && (b <=? 0xF4) then
      utf8_decode 3 (if b =? 0xF0 then 0x90 else 0x80)
                    (if b =? 0xF4 then 0x8F else 0xBF) (String c EmptyString) r
    else (replacement ++ utf8_decode 0 0x80 0xBF EmptyString r)%string in
  match needed with
  | O => start
  | S n =>
      if (lo <=? b) && (b <=? hi) then
        match n with
        | O => (pending ++ String c (utf8_decode 0 0x80 0xBF EmptyString r))%string
        | S _ => utf8_decode n 0x80 0xBF (pending ++ String c EmptyString)%string r
        end
      else (replacement ++ start)%string
  end.
Proof.
  reflexivity.
Qed.

Lemma utf8_decode_continue (n : nat) (lo hi : Z) (pending : string) (c : ascii) (r : string) :
  (lo <=? code c) && (code c <=? hi) = true ->
  utf8_decode (S n) lo hi pending (String c r) =
  match n with
  | O => (pending ++ String c (toString_utf8 r))%string
  | S _ => utf8_decode n 0x80 0xBF (pending ++ String c EmptyString)%string r
  end.
Proof.
  intros H. rewrite utf8_decode_cons. cbv zeta. now rewrite H.
Qed.

Lemma utf8_valid_decode_step (n : nat) :
  forall s rest, (String.length s <= n)%nat -> utf8_valid s = true ->
    toString_utf8 (s ++ rest) = (s ++ toString_utf8 rest)%string.
Proof.
  induction n as [|n IH]; intros s rest Hlen Hv.
  - destruct s; [reflexivity|simpl in Hlen; lia].
  - destruct s as [|a r1]; [reflexivity|].
    cbn [utf8_valid] in Hv. cbv zeta in Hv.
    unfold toString_utf8 at 1. cbn [append]. rewrite utf8_decode_cons. cbv zeta.
    fold (toString_utf8 (r1 ++ rest)).
    destruct (code a <=? 0x7F) eqn:E1.
    { f_equal. apply IH; [simpl in Hlen; lia|exact Hv]. }
    destruct r1 as [|b r2]; [discriminate|].
    destruct ((0xC2 <=? code a) && (code a <=? 0xDF)) eqn:E2.
    { apply andb_true_iff in Hv. destruct Hv as [Hb Hv]. unfold continuation in Hb.
      cbn [append]. rewrite utf8_decode_continue by exact Hb.
      cbn [append]. f_equal. f_equal. apply IH; [simpl in Hlen; lia|exact Hv]. }
    destruct r2 as [|c r3]; [discriminate|].
    destruct ((0xE0 <=? code a) && (code a <=? 0xEF)) eqn:E3.
    { apply andb_true_iff in Hv. destruct Hv as [Hv Hr].
      apply andb_true_iff in Hv. destruct Hv as [Hb Hc]. unfold continuation in Hc.
      cbn [append]. rewrite utf8_decode_continue by exact Hb.
      rewrite utf8_decode_continue by exact Hc.
      cbn [append]. f_equal. f_equal. f_equal. apply IH; [simpl in Hlen; lia|exact Hr]. }
    destruct r3 as [|e r4]; [discriminate|].
    apply andb_true_iff in Hv. destruct Hv as [Hv Hr].
    apply andb_true_iff in Hv. destruct Hv as [Hv He].
    apply andb_true_iff in Hv. destruct Hv as [Hv Hc].
    apply andb_true_iff in Hv. destruct Hv as [Hv Hhi].
    apply andb_true_iff in Hv. destruct Hv as [Hv Hlo].
    unfold continuation in Hc, He.
    rewrite Hv. cbn [append].
    rewrite utf8_decode_continue by (now rewrite Hlo, Hhi).
    rewrite utf8_decode_continue by exact Hc.
    rewrite utf8_decode_continue by exact He.
    cbn [append]. f_equal. f_equal. f_equal. f_equal. apply IH; [simpl in Hlen; lia|exact Hr].
Qed.

Lemma toString_utf8_valid_app (s rest : string) :
  utf8_valid s = true -> toString_utf8 (s ++ rest) = (s ++ toString_utf8 rest)%string.
Proof.
  apply (utf8_valid_decode_step (String.length s)). lia.
Qed.

Lemma append_empty (s : string) : (s ++ EmptyString)%string = s.
Proof.
  induction s as [|c s IH]; simpl; [reflexivity|now rewrite IH].
Qed.

Lemma toString_utf8_valid (s : string) : utf8_valid s = true -> toString_utf8 s = s.
Proof.
  intros H. rewrite <- (append_empty s) at 1.
  rewrite toString_utf8_valid_app by exact H. apply append_empty.
Qed.

Lemma is_ascii_utf8_valid (s : string) : is_ascii s = true -> utf8_valid s = true.
Proof.
  unfold is_ascii. induction s as [|c s IH]; [reflexivity|].
  cbn [all_chars utf8_valid]. cbv zeta. intros H.
  apply andb_true_iff in H. destruct H as [Hc Hs]. apply Z.ltb_lt in Hc.
  replace (code c <=? 0x7F) with true by (symmetry; apply Z.leb_le; lia).
  now apply IH.
Qed.

(** ** Integers written out and read back *)

Lemma to_double_integer (n : Z) : 0 <= n < 2 ^ 53 -> to_double n 1 = Int n.
Proof.
  intros Hn. unfold to_double.
  destruct (n =? 0) eqn:E0; [apply Z.eqb_eq in E0; now subst|].
  apply Z.eqb_neq in E0.
  assert (Hpos : 0 < n) by lia.
  change (Z.log2 1) with 0. rewrite Z.sub_0_r.
  pose proof (Z.log2_nonneg n) as Hk0.
  destruct (Z.log2_spec n Hpos) as [Hlo Hhi].
  assert (Hk : Z.log2 n < 53).
  { apply Z.log2_lt_pow2; lia. }
  replace (0 <=? Z.log2 n) with true by (symmetry; apply Z.leb_le; lia).
  replace (1 * 2 ^ Z.log2 n <=? n) with true by (symmetry; apply Z.leb_le; lia).
  set (k := Z.log2 n) in *.
  replace (Z.max (k - 52) (-1074)) with (k - 52) by lia.
  destruct (0 <=? k - 52) eqn:E.
  - apply Z.leb_le in E. assert (Hk52 : k - 52 = 0) by lia. rewrite Hk52.
    assert (Hbig : n < 2 ^ 1024).
    { eapply Z.lt_trans; [apply Hn|]. now apply Z.pow_lt_mono_r. }
    set (big := 2 ^ 1024) in *.
    rewrite Z.pow_0_r.
    unfold half_even. rewrite Z.mul_1_l, Z.div_1_r, Z.mod_1_r. cbn [Z.mul Z.ltb Z.compare].
    rewrite Z.mul_1_r.
    replace (big <=? n) with false; [reflexivity|].
    symmetry. apply Z.leb_gt. exact Hbig.
  - apply Z.leb_gt in E.
    replace (- (k - 52)) with (52 - k) by lia.
    assert (Hp : 0 < 2 ^ (52 - k)) by (apply Z.pow_pos_nonneg; lia).
    unfold half_even. rewrite Z.div_1_r, Z.mod_1_r. cbn [Z.mul Z.ltb Z.compare].
    rewrite Z.mod_mul by lia. rewrite Z.eqb_refl.
    now rewrite Z.div_mul by lia.
Qed.

Lemma digit_of_chr (d : Z) : digit d -> digit_of 10 (chr (48 + d)) = Some d.
Proof.
  unfold digit. intros H.
  assert (Hd : In d (map Z.of_nat (seq 0 10))).
  { apply in_map_iff. exists (Z.to_nat d). split; [lia|]. apply in_seq. lia. }
  clear H. revert d Hd. apply Forall_forall. simpl. repeat constructor.
Qed.

Lemma digits_string_of_digits (ds : list Z) :
  Forall digit ds -> digits 10 (string_of_digits ds) = (ds, EmptyString).
Proof.
  induction 1 as [|d ds Hd Hds IH]; [reflexivity|].
  cbn [string_of_digits digits]. now rewrite (digit_of_chr d Hd), IH.
Qed.

Lemma le_digits_are_digits (fuel : nat) :
  forall n, 0 <= n -> Forall digit (le_digits fuel n).
Proof.
  induction fuel as [|f IH]; intros n Hn; [constructor|].
  cbn [le_digits]. constructor.
  - unfold digit. pose proof (Z.mod_pos_bound n 10). lia.
  - destruct (n <? 10); [constructor|]. apply IH. apply Z.div_pos; lia.
Qed.

Lemma le_digits_value (fuel : nat) :
  forall n, 0 <= n < 10 ^ Z.of_nat fuel ->
    fold_right (fun d a => 10 * a + d) 0 (le_digits fuel n) = n.
Proof.
  induction fuel as [|f IH]; intros n Hn.
  - simpl in *. lia.
  - cbn [le_digits fold_right].
    destruct (n <? 10) eqn:E.
    + apply Z.ltb_lt in E. simpl. rewrite Z.mod_small; lia.
    + apply Z.ltb_ge in E. rewrite IH.
      * pose proof (Z.div_mod n 10). lia.
      * rewrite Nat2Z.inj_succ, Z.pow_succ_r in Hn by lia.
        split; [apply Z.div_pos; lia|apply Z.div_lt_upper_bound; lia].
Qed.

Lemma digits_value_rev (ds : list Z) :
  digits_value 10 (rev ds) = fold_right (fun d a => 10 * a + d) 0 ds.
Proof.
  unfold digits_value. rewrite <- fold_left_rev_right. now rewrite rev_involutive.
Qed.

Lemma enough_fuel (n : Z) : 0 <= n -> n < 10 ^ Z.of_nat (S (Z.to_nat (Z.log2 n))).
Proof.
  intros Hn. rewrite Nat2Z.inj_succ, Z2Nat.id by apply Z.log2_nonneg.
  destruct (Z.eq_dec n 0) as [->|Hne].
  - simpl. lia.
  - destruct (Z.log2_spec n) as [_ Hhi]; [lia|].
    eapply Z.lt_le_trans; [exact Hhi|].
    apply Z.pow_le_mono_l. pose proof (Z.log2_nonneg n). lia.
Qed.

(** *** Plain text: ASCII with no white space *)

Lemma reverse_onto_twice (s a b : string) :
  reverse_onto (reverse_onto s a) b = reverse_onto a (s ++ b)%string.
Proof.
  revert a b. induction s as [|c s IH]; intros a b; simpl; [reflexivity|].
  now rewrite IH.
Qed.

Lemma reverse_involutive (s : string) : reverse (reverse s) = s.
Proof.
  unfold reverse. rewrite reverse_onto_twice. simpl. apply append_empty.
Qed.

Lemma all_chars_reverse_onto (p : ascii -> bool) (s acc : string) :
  all_chars p s = true -> all_chars p acc = true -> all_chars p (reverse_onto s acc) = true.
Proof.
  revert acc. induction s as [|c s IH]; intros acc Hs Hacc; simpl in *; [exact Hacc|].
  apply andb_true_iff in Hs. destruct Hs as [Hc Hs].
  apply IH; [exact Hs|]. simpl. now rewrite Hc.
Qed.

Lemma all_chars_append (p : ascii -> bool) (s t : string) :
  all_chars p s = true -> all_chars p t = true -> all_chars p (s ++ t) = true.
Proof.
  induction s as [|c s IH]; simpl; intros Hs Ht; [exact Ht|].
  apply andb_true_iff in Hs. destruct Hs as [Hc Hs]. rewrite Hc. now apply IH.
Qed.

Lemma all_chars_weaken (p q : ascii -> bool) (s : string) :
  (forall c, p c = true -> q c = true) -> all_chars p s = true -> all_chars q s = true.
Proof.
  intros Hpq. induction s as [|c s IH]; simpl; [reflexivity|].
  intros H. apply andb_true_iff in H. destruct H as [Hc Hs].
  now rewrite (Hpq c Hc), IH.
Qed.

Lemma plain_range (c : ascii) : plain c = true -> 33 <= code c <= 127.
Proof.
  unfold plain, between. intros H. apply andb_true_iff in H. lia.
Qed.

Lemma plain_not_ws1 (c : ascii) : plain c = true -> ws1 c = false.
Proof.
  intros H. apply plain_range in H. unfold ws1, between.
  destruct (Z.leb_spec 9 (code c)), (Z.leb_spec (code c) 13), (Z.eqb_spec (code c) 32);
    simpl; try reflexivity; lia.
Qed.

Lemma plain_not_ws2 (a b : ascii) : plain a = true -> ws2 a b = false /\ ws2 b a = false.
Proof.
  intros H. apply plain_range in H. unfold ws2.
  destruct (Z.eqb_spec (code a) 0xC2); [lia|].
  destruct (Z.eqb_spec (code a) 0xA0); [lia|].
  now rewrite andb_false_r.
Qed.

Lemma plain_not_ws3 (a b c : ascii) : plain a = true -> ws3 a b c = false /\ ws3 c b a = false.
Proof.
  intros H. apply plain_range in H. unfold ws3. cbv zeta.
  repeat match goal with
         | |- context [Z.eqb (code a) ?k] => destruct (Z.eqb_spec (code a) k); [lia|]
         end.
  destruct (Z.leb_spec 0x80 (code a)); [lia|].
  cbn [andb orb]. now rewrite !andb_false_r.
Qed.

Lemma strip_fixed (w1 : ascii -> bool) (w2 : ascii -> ascii -> bool)
    (w3 : ascii -> ascii -> ascii -> bool) (a : ascii) (r : string) :
  w1 a = false -> (forall b, w2 a b = false) -> (forall b c, w3 a b c = false) ->
  strip w1 w2 w3 (String a r) = String a r.
Proof.
  intros H1 H2 H3. cbn [strip]. rewrite H1.
  destruct r as [|b [|c r]]; [reflexivity| |]; rewrite H2; [reflexivity|].
  now rewrite H3.
Qed.

Lemma trim_plain (s : string) : all_chars plain s = true -> trim s = s.
Proof.
  intros Hs. unfold trim.
  assert (Hstart : trimStart s = s).
  { destruct s as [|a r]; [reflexivity|]. simpl in Hs.
    apply andb_true_iff in Hs. destruct Hs as [Ha _].
    apply strip_fixed.
    - now apply plain_not_ws1.
    - intros b. exact (proj1 (plain_not_ws2 a b Ha)).
    - intros b c. exact (proj1 (plain_not_ws3 a b c Ha)). }
  rewrite Hstart. unfold trimEnd.
  assert (Hrev : all_chars plain (reverse s) = true)
    by (now apply all_chars_reverse_onto).
  destruct (reverse s) as [|a r] eqn:E.
  - simpl. rewrite <- (reverse_involutive s), E. reflexivity.
  - simpl in Hrev. apply andb_true_iff in Hrev. destruct Hrev as [Ha _].
    rewrite strip_fixed.
    + rewrite <- E. apply reverse_involutive.
    + now apply plain_not_ws1.
    + intros b. exact (proj2 (plain_not_ws2 a b Ha)).
    + intros b c. exact (proj2 (plain_not_ws3 a b c Ha)).
Qed.

(** *** Decimal numerals *)

Lemma numeric_plain (c : ascii) : numeric c = true -> plain c = true.
Proof.
  unfold numeric, plain, between. intros H. apply andb_true_iff in H.
  apply andb_true_iff. split; [apply Z.leb_le|apply Z.leb_le]; lia.
Qed.

Lemma numeric_not_letter (p c : ascii) :
  numeric p = true -> numeric c = false -> Ascii.eqb p c = false.
Proof.
  intros Hp Hc. destruct (Ascii.eqb_spec p c) as [->|]; [congruence|reflexivity].
Qed.

Lemma nondecimal_numeric (s : string) : all_chars numeric s = true -> nondecimal s = None.
Proof.
  destruct s as [|c1 [|p r]]; [reflexivity| |].
  - intros _. destruct c1 as [[] [] [] [] [] [] [] []]; reflexivity.
  - cbn [all_chars]. intros H.
    apply andb_true_iff in H. destruct H as [_ H].
    apply andb_true_iff in H. destruct H as [Hp _].
    destruct c1 as [[] [] [] [] [] [] [] []]; try reflexivity.
    cbn [nondecimal]. cbv zeta.
    rewrite !(numeric_not_letter p) by (exact Hp || reflexivity).
    reflexivity.
Qed.

Lemma chr_digit_numeric (d : Z) : digit d -> numeric (chr (48 + d)) = true.
Proof.
  unfold digit, numeric, between. intros H. rewrite code_chr by lia.
  apply andb_true_iff. split; apply Z.leb_le; lia.
Qed.

Lemma string_of_digits_numeric (ds : list Z) :
  Forall digit ds -> all_chars numeric (string_of_digits ds) = true.
Proof.
  induction 1 as [|d ds Hd Hds IH]; [reflexivity|].
  cbn [string_of_digits all_chars]. now rewrite chr_digit_numeric, IH.
Qed.

Lemma numeral_head (d : Z) :
  digit d ->
  forall r, sign (String (chr (48 + d)) r) = (false, String (chr (48 + d)) r)
            /\ String.eqb (String (chr (48 + d)) r) "Infinity" = false.
Proof.
  unfold digit. intros H.
  assert (Hd : In d (map Z.of_nat (seq 0 10))).
  { apply in_map_iff. exists (Z.to_nat d). split; [lia|]. apply in_seq. lia. }
  clear H. revert d Hd.
  apply (proj1 (Forall_forall
                  (fun d => forall r,
                     sign (String (chr (48 + d)) r) = (false, String (chr (48 + d)) r)
                     /\ String.eqb (String (chr (48 + d)) r) "Infinity" = false) _)).
  simpl. repeat constructor.
Qed.

Lemma Number_numeral (ds : list Z) :
  Forall digit ds -> ds <> [] -> digits_value 10 ds < 2 ^ 53 -> 0 <= digits_value 10 ds ->
  Number (string_of_digits ds) = Int (digits_value 10 ds)
  /\ Number (String "-" (string_of_digits ds)) = Int (- digits_value 10 ds).
Proof.
  intros Hds Hne Hlt Hge.
  pose proof (string_of_digits_numeric ds Hds) as Hnum.
  assert (Hdec : decimal (string_of_digits ds) = Some (Int (digits_value 10 ds))).
  { unfold decimal. rewrite (digits_string_of_digits ds Hds).
    destruct ds as [|d ds']; [congruence|].
    cbn [exponent]. unfold scale10. cbn [Z.leb Z.compare]. rewrite Z.pow_0_r, Z.mul_1_r.
    f_equal. apply to_double_integer. lia. }
  destruct ds as [|d ds']; [congruence|].
  inversion Hds as [|? ? Hd Hds']; subst.
  destruct (numeral_head d Hd (string_of_digits ds')) as [Hsign Hinf].
  cbn [string_of_digits] in *.
  split.
  - unfold Number.
    rewrite trim_plain by (eapply all_chars_weaken; [apply numeric_plain|exact Hnum]).
    cbn [is_empty]. rewrite (nondecimal_numeric _ Hnum), Hsign, Hinf, Hdec. reflexivity.
  - assert (Hnum' : all_chars numeric (String "-" (String (chr (48 + d)) (string_of_digits ds'))) = true).
    { cbn [all_chars]. cbn [all_chars] in Hnum. now rewrite Hnum. }
    unfold Number.
    rewrite trim_plain by (eapply all_chars_weaken; [apply numeric_plain|exact Hnum']).
    cbn [is_empty]. rewrite (nondecimal_numeric _ Hnum').
    cbn [sign]. rewrite Hinf, Hdec. reflexivity.
Qed.

Lemma le_digits_nonempty (fuel : nat) (n : Z) : le_digits (S fuel) n <> [].
Proof.
  discriminate.
Qed.

Lemma Number_toString_numeric (z : Z) : all_chars numeric (Number_toString z) = true.
Proof.
  unfold Number_toString.
  set (n := Z.abs z).
  assert (Hnum : all_chars numeric
                   (string_of_digits (rev (le_digits (S (Z.to_nat (Z.log2 n))) n))) = true).
  { apply string_of_digits_numeric, Forall_rev, le_digits_are_digits. unfold n. lia. }
  destruct (z <? 0); [|exact Hnum]. cbn [all_chars]. now rewrite Hnum.
Qed.

(** An integer below [2^53] in magnitude, written by [String] and read by
    [Number], is the integer again. *)
Lemma Number_toString_roundtrip (z : Z) :
  - 2 ^ 53 < z < 2 ^ 53 -> Number (Number_toString z) = Int z.
Proof.
  intros Hz. unfold Number_toString.
  set (n := Z.abs z).
  set (ds := rev (le_digits (S (Z.to_nat (Z.log2 n))) n)).
  assert (Hn : 0 <= n) by (unfold n; lia).
  assert (Hds : Forall digit ds).
  { unfold ds. apply Forall_rev. now apply le_digits_are_digits. }
  assert (Hval : digits_value 10 ds = n).
  { unfold ds. rewrite digits_value_rev. apply le_digits_value.
    split; [exact Hn|now apply enough_fuel]. }
  assert (Hne : ds <> []).
  { unfold ds. intros H. apply (f_equal (@rev Z)) in H. rewrite rev_involutive in H.
    now apply le_digits_nonempty in H. }
  destruct (Number_numeral ds Hds Hne) as [Hpos Hneg]; [unfold n in *; lia|lia|].
  destruct (z <? 0) eqn:E.
  - apply Z.ltb_lt in E. rewrite Hneg, Hval. f_equal; unfold n; lia.
  - apply Z.ltb_ge in E. rewrite Hpos, Hval. f_equal; unfold n; lia.
Qed.

(** ** Listing *)

Lemma insert_desc_perm (p : Post.row) (l : list Post.row) :
  Permutation (insert_desc p l) (p :: l).
Proof.
  induction l as [|q r IH]; simpl; [reflexivity|].
  destruct (Post.id q <=? Post.id p); [reflexivity|].
  rewrite IH. apply perm_swap.
Qed.

Lemma insert_desc_forall (P : Post.row -> Prop) (p : Post.row) (l : list Post.row) :
  P p -> Forall P l -> Forall P (insert_desc p l).
Proof.
  intros Hp Hl. induction Hl as [|q r Hq Hr IH]; simpl.
  - now constructor.
  - destruct (Post.id q <=? Post.id p); repeat constructor; assumption.
Qed.

Lemma insert_desc_sorted (p : Post.row) (l : list Post.row) :
  StronglySorted id_desc l -> StronglySorted id_desc (insert_desc p l).
Proof.
  induction 1 as [|q r Hs IH Hall]; simpl.
  - repeat constructor.
  - destruct (Post.id q <=? Post.id p) eqn:E.
    + apply Z.leb_le in E. constructor; [now constructor|].
      constructor; [exact E|].
      eapply Forall_impl; [|exact Hall]. unfold id_desc. intros; lia.
    + apply Z.leb_gt in E. constructor; [exact IH|].
      apply insert_desc_forall; [unfold id_desc; lia|exact Hall].
Qed.

Lemma by_id_desc_perm (l : list Post.row) : Permutation (fold_right insert_desc [] l) l.
Proof.
  induction l as [|p l IH]; simpl; [reflexivity|].
  rewrite insert_desc_perm. now constructor.
Qed.

Lemma by_id_desc_sorted (l : list Post.row) :
  StronglySorted id_desc (fold_right insert_desc [] l).
Proof.
  induction l as [|p l IH]; simpl.
  - constructor.
  - now apply insert_desc_sorted.
Qed.

(** C9. [GET /api/posts] answers 200 with an array that has one object
    for every row of the posts table, none left out and none twice (no
    pagination), in descending order of [id]; the object of a row holds
    its id, title, content, [createdAt] and [updatedAt], the two texts as
    the driver reads them; the store is left as it was. *)
Theorem list_posts_all_rows_by_id_descending (d : db) :
  exists rows,
    list_posts d
    = (sendSuccess
         (Some (JArr (map (fun p =>
                             JObj [("id", JNum (Post.id p));
                                   ("title", JStr (column_text (Post.title p)));
                                   ("content", JStr (column_text (Post.content p)));
                                   ("createdAt", JDate (Post.created_at p));
                                   ("updatedAt", JDate (Post.updated_at p))]) rows))) 200,
       d)
    /\ Permutation rows (posts d)
    /\ StronglySorted id_desc rows
    /\ List.length rows = List.length (posts d).
Proof.
  exists (fold_right insert_desc [] (posts d)).
  split; [|split; [apply by_id_desc_perm|split; [apply by_id_desc_sorted|]]].
  - unfold list_posts, select_posts_desc. now rewrite map_map.
  - apply Permutation_length, by_id_desc_perm.
Qed.

Lemma list_posts_all_rows_by_id_descending_on_seed :
  fst (list_posts (bootstrap 7 7 empty_db))
  = sendSuccess
      (Some (JArr [JObj [("id", JNum 3); ("title", JStr "Third post");
                         ("content", JStr "Data is persisted in SQLite database.");
                         ("createdAt", JDate 7); ("updatedAt", JDate 7)];
                   JObj [("id", JNum 2); ("title", JStr "Second post");
                         ("content", JStr "Try list/detail/create/edit/delete flow.");
                         ("createdAt", JDate 7); ("updatedAt", JDate 7)];
                   JObj [("id", JNum 1); ("title", JStr "First post");
                         ("content", JStr "This is sample seed data for CRUD demo.");
                         ("createdAt", JDate 7); ("updatedAt", JDate 7)]])) 200
  /\ exists rows,
       list_posts (bootstrap 7 7 empty_db)
       = (sendSuccess
            (Some (JArr (map (fun p =>
                                JObj [("id", JNum (Post.id p));
                                      ("title", JStr (column_text (Post.title p)));
                                      ("content", JStr (column_text (Post.content p)));
                                      ("createdAt", JDate (Post.created_at p));
                                      ("updatedAt", JDate (Post.updated_at p))]) rows))) 200,
          bootstrap 7 7 empty_db)
       /\ Permutation rows (posts (bootstrap 7 7 empty_db))
       /\ StronglySorted id_desc rows.
Proof.
  split; [vm_compute; reflexivity|].
  destruct (list_posts_all_rows_by_id_descending (bootstrap 7 7 empty_db))
    as [rows [Hanswer [Hperm [Hsorted _]]]].
  exists rows. split; [exact Hanswer|]. split; [exact Hperm|exact Hsorted].
Defined.

(** ** Rows by key *)

Lemma id_is_Int (z rowid : Z) : id_is (Int z) rowid = true <-> rowid = z.
Proof.
  simpl. rewrite Z.eqb_eq. split; congruence.
Qed.

Lemma Number_isInteger_Int (n : number) :
  Number_isInteger n = true <-> exists z, n = Int z.
Proof.
  destruct n; simpl; split; try congruence; try (intros [z Hz]; congruence).
  intros _. now exists z.
Qed.

Lemma column_text_no_nul (s : string) : no_nul s = true -> column_text s = s.
Proof.
  unfold no_nul. induction s as [|c s IH]; cbn [all_chars column_text]; [reflexivity|].
  intros H. apply andb_true_iff in H. destruct H as [Hc Hs].
  destruct (code c =? 0); [discriminate|]. now rewrite IH.
Qed.

Lemma select_post_absent (d : db) (z : Z) :
  (forall p, In p (posts d) -> Post.id p <> z) -> select_post d (Int z) = None.
Proof.
  intros H. unfold select_post.
  destruct (find _ (posts d)) as [p|] eqn:E; [|reflexivity].
  apply find_some in E. destruct E as [Hin Hid].
  apply id_is_Int in Hid. now elim (H p Hin).
Qed.

Lemma select_post_present (d : db) (z : Z) :
  (exists p, In p (posts d) /\ Post.id p = z) ->
  exists p, select_post d (Int z) = Some (read_post p) /\ In p (posts d) /\ Post.id p = z.
Proof.
  intros [q [Hin Hid]]. unfold select_post.
  destruct (find _ (posts d)) as [p|] eqn:E.
  - exists p. apply find_some in E. destruct E as [Hp Hz].
    apply id_is_Int in Hz. auto.
  - exfalso. eapply find_none in E; [|exact Hin].
    simpl in E. apply Z.eqb_neq in E. congruence.
Qed.

Lemma count_changes_zero {A : Type} (hit : A -> bool) (l : list A) :
  count_changes hit l = 0 <-> forall x, In x l -> hit x = false.
Proof.
  unfold count_changes. induction l as [|a l IH]; simpl.
  - split; [intros _ x []|reflexivity].
  - destruct (hit a) eqn:E; simpl.
    + split; [lia|]. intros H. specialize (H a (or_introl eq_refl)). congruence.
    + rewrite IH. split.
      * intros H x [->|Hx]; auto.
      * intros H x Hx. apply H. now right.
Qed.

Lemma filter_keeps_all {A : Type} (keep : A -> bool) (l : list A) :
  (forall x, In x l -> keep x = true) -> filter keep l = l.
Proof.
  induction l as [|a l IH]; simpl; intros H; [reflexivity|].
  rewrite (H a (or_introl eq_refl)). f_equal. apply IH. intros x Hx. apply H. now right.
Qed.

Lemma db_eta (d : db) :
  {| posts := posts d; posts_seq := posts_seq d; users := users d; users_seq := users_seq d |} = d.
Proof.
  now destruct d.
Qed.

(** ** Reading one post *)

Lemma id_present_or_absent (l : list Post.row) (z : Z) :
  (exists p, In p l /\ Post.id p = z) \/ (forall p, In p l -> Post.id p <> z).
Proof.
  induction l as [|q l IH]; [right; intros p []|].
  destruct (Z.eq_dec (Post.id q) z) as [Hq|Hq].
  - left. exists q. split; [now left|exact Hq].
  - destruct IH as [[p [Hin Hp]]|Hnone].
    + left. exists p. split; [now right|exact Hp].
    + right. intros p [<-|Hin]; [exact Hq|now apply Hnone].
Qed.

Lemma Number_not_numeral (c : ascii) (r : string) :
  all_chars plain (String c r) = true -> numeral_start c = false ->
  Number (String c r) = NaN.
Proof.
  intros Hplain Hc. unfold Number. rewrite (trim_plain _ Hplain). clear Hplain.
  destruct c as [[] [] [] [] [] [] [] []]; vm_compute in Hc; try discriminate Hc;
    reflexivity.
Qed.

(** C7. [GET /api/posts/:id] answers 422 exactly when the path parameter
    does not read as an integer ([parseId], that is [Number], followed by
    [Number.isInteger]), 404 when it reads as an integer no post row has
    as its id, and otherwise 200 with the object of a post row of that id:
    its id, title, content, [createdAt] and [updatedAt], the two texts as
    the driver reads them; the store is never changed.  As to reading: the
    decimal numeral of an integer below [2^53] in size reads as that
    integer, so it gets 200 or 404; a parameter of plain characters that
    does not begin like a numeral (as ["abc"]) gets 422, whatever the
    store.  On the seeded store ["abc"] gets 422 and ["99999"] gets 404. *)
Theorem get_post_422_404_200 (d : db) (idParam : string) :
  (status (fst (get_post d idParam)) = 422 <-> Number_isInteger (parseId idParam) = false)
  /\ (Number_isInteger (parseId idParam) = false ->
      fst (get_post d idParam) = sendError "Invalid id." 422)
  /\ (forall z, parseId idParam = Int z ->
        (forall p, In p (posts d) -> Post.id p <> z) ->
        fst (get_post d idParam) = sendError "Post not found." 404)
  /\ (forall z, parseId idParam = Int z ->
        (exists p, In p (posts d) /\ Post.id p = z) ->
        exists p, In p (posts d) /\ Post.id p = z
                  /\ fst (get_post d idParam)
                     = sendSuccess
                         (Some (JObj [("id", JNum z);
                                      ("title", JStr (column_text (Post.title p)));
                                      ("content", JStr (column_text (Post.content p)));
                                      ("createdAt", JDate (Post.created_at p));
                                      ("updatedAt", JDate (Post.updated_at p))])) 200)
  /\ snd (get_post d idParam) = d
  /\ (forall z, - 2 ^ 53 < z < 2 ^ 53 -> idParam = Number_toString z ->
        parseId idParam = Int z
        /\ (status (fst (get_post d idParam)) = 200 <-> exists p, In p (posts d) /\ Post.id p = z)
        /\ (status (fst (get_post d idParam)) = 404 <-> forall p, In p (posts d) -> Post.id p <> z))
  /\ (forall c r, idParam = String c r -> all_chars plain idParam = true ->
        numeral_start c = false ->
        fst (get_post d idParam) = sendError "Invalid id." 422)
  /\ fst (get_post (bootstrap 0 0 empty_db) "abc") = sendError "Invalid id." 422
  /\ fst (get_post (bootstrap 0 0 empty_db) "99999") = sendError "Post not found." 404.
Proof.
  assert (Hseed : fst (get_post (bootstrap 0 0 empty_db) "abc") = sendError "Invalid id." 422
                  /\ fst (get_post (bootstrap 0 0 empty_db) "99999")
                     = sendError "Post not found." 404)
    by (split; vm_compute; reflexivity).
  revert Hseed.
  generalize (fst (get_post (bootstrap 0 0 empty_db) "abc")) as r_abc.
  generalize (fst (get_post (bootstrap 0 0 empty_db) "99999")) as r_99999.
  intros r_99999 r_abc [Habc H99999].
  assert (H422 : Number_isInteger (parseId idParam) = false ->
                 fst (get_post d idParam) = sendError "Invalid id." 422).
  { intros Hno. unfold get_post. now rewrite Hno. }
  assert (H404 : forall z, parseId idParam = Int z ->
                   (forall p, In p (posts d) -> Post.id p <> z) ->
                   fst (get_post d idParam) = sendError "Post not found." 404).
  { intros z Hz Habs. unfold get_post. rewrite Hz. cbn [Number_isInteger negb].
    now rewrite (select_post_absent d z Habs). }
  assert (H200 : forall z, parseId idParam = Int z ->
                   (exists p, In p (posts d) /\ Post.id p = z) ->
                   exists p, In p (posts d) /\ Post.id p = z
                     /\ fst (get_post d idParam)
                        = sendSuccess
                            (Some (JObj [("id", JNum z);
                                         ("title", JStr (column_text (Post.title p)));
                                         ("content", JStr (column_text (Post.content p)));
                                         ("createdAt", JDate (Post.created_at p));
                                         ("updatedAt", JDate (Post.updated_at p))])) 200).
  { intros z Hz Hex. unfold get_post. rewrite Hz. cbn [Number_isInteger negb].
    destruct (select_post_present d z Hex) as [p [Hsel [Hin Hp]]].
    exists p. rewrite Hsel. split; [exact Hin|]. split; [exact Hp|].
    unfold post_json, read_post. cbn [fst Post.id Post.title Post.content Post.created_at
                                       Post.updated_at]. now rewrite Hp. }
  pose proof (id_present_or_absent (posts d)) as Hexists.
  split.
  { unfold get_post. destruct (Number_isInteger (parseId idParam)); cbn [negb].
    - split; [|discriminate]. now destruct (select_post d (parseId idParam)).
    - split; reflexivity. }
  split; [exact H422|]. split; [exact H404|]. split; [exact H200|]. split.
  { unfold get_post. destruct (negb _); [reflexivity|].
    now destruct (select_post d (parseId idParam)). }
  split.
  { intros z Hz ->. pose proof (Number_toString_roundtrip z Hz) as Hread.
    fold (parseId (Number_toString z)) in Hread. split; [exact Hread|].
    destruct (Hexists z) as [Hex|Hnone].
    - destruct (H200 z Hread Hex) as [p [_ [_ Hanswer]]]. rewrite Hanswer.
      cbn [status sendSuccess]. split.
      + split; [intros _; exact Hex|reflexivity].
      + split; [discriminate|]. intros Hnone. destruct Hex as [q [Hq Hid]].
        now elim (Hnone q Hq).
    - rewrite (H404 z Hread Hnone). cbn [status sendError]. split.
      + split; [discriminate|]. intros [q [Hq Hid]]. now elim (Hnone q Hq).
      + split; [intros _; exact Hnone|reflexivity]. }
  split.
  { intros c r -> Hplain Hstart. apply H422. unfold parseId.
    now rewrite (Number_not_numeral c r Hplain Hstart). }
  split; assumption.
Qed.

Lemma get_post_422_404_200_on_seed :
  fst (get_post (bootstrap 7 7 empty_db) "2")
  = sendSuccess (Some (JObj [("id", JNum 2); ("title", JStr "Second post");
                             ("content", JStr "Try list/detail/create/edit/delete flow.");
                             ("createdAt", JDate 7); ("updatedAt", JDate 7)])) 200
  /\ fst (get_post (bootstrap 7 7 empty_db) "2.0") = fst (get_post (bootstrap 7 7 empty_db) "2")
  /\ fst (get_post (bootstrap 7 7 empty_db) "1.5") = sendError "Invalid id." 422
  /\ fst (get_post (bootstrap 7 7 empty_db) "4") = sendError "Post not found." 404
  /\ (status (fst (get_post (bootstrap 7 7 empty_db) (Number_toString 3))) = 200
      <-> exists p, In p (posts (bootstrap 7 7 empty_db)) /\ Post.id p = 3).
Proof.
  split; [vm_compute; reflexivity|]. split; [vm_compute; reflexivity|].
  split; [vm_compute; reflexivity|]. split; [vm_compute; reflexivity|].
  assert (Hrange : - 2 ^ 53 < 3 < 2 ^ 53) by (vm_compute; split; reflexivity).
  exact (proj1 (proj2 (proj1 (proj2 (proj2 (proj2 (proj2 (proj2
           (get_post_422_404_200 (bootstrap 7 7 empty_db) (Number_toString 3)))))))
           3 Hrange eq_refl))).
Defined.

(** ** What holds of every store the server reaches *)

Lemma fold_max_bound (ids : list Z) (z : Z) : In z ids -> z <= fold_right Z.max 0 ids.
Proof.
  induction ids as [|a l IH]; simpl; [intros []|].
  intros [->|H]; [lia|]. specialize (IH H). lia.
Qed.

Lemma next_rowid_above_rows (ids : list Z) (seq z : Z) : In z ids -> z < next_rowid ids seq.
Proof.
  intros H. apply fold_max_bound in H. unfold next_rowid. lia.
Qed.

Lemma next_rowid_above_seq (ids : list Z) (seq : Z) : seq < next_rowid ids seq.
Proof.
  unfold next_rowid. lia.
Qed.

Lemma next_rowid_positive (ids : list Z) (seq : Z) : 0 < next_rowid ids seq.
Proof.
  unfold next_rowid.
  assert (0 <= fold_right Z.max 0 ids) by (induction ids; simpl; lia).
  lia.
Qed.

Lemma NoDup_snoc {A : Type} (l : list A) (x : A) : ~ In x l -> NoDup l -> NoDup (l ++ [x]).
Proof.
  intros Hx Hl. apply (Permutation_NoDup (Permutation_cons_append l x)).
  now constructor.
Qed.

Lemma NoDup_map_filter {A B : Type} (f : A -> B) (keep : A -> bool) (l : list A) :
  NoDup (map f l) -> NoDup (map f (filter keep l)).
Proof.
  induction l as [|a l IH]; simpl; intros H; [constructor|].
  inversion H as [|? ? Hnin Hnd]; subst.
  destruct (keep a); simpl; [constructor|]; auto.
  intros Hin. apply Hnin. apply in_map_iff in Hin. destruct Hin as [x [Hx Hin]].
  apply filter_In in Hin. apply in_map_iff. exists x. tauto.
Qed.

Lemma insert_post_ok (d : db) (title content : string) (t1 t2 : Z) :
  posts_ok d -> posts_ok (snd (insert_post d title content t1 t2)).
Proof.
  intros [Hnd Hrange]. unfold posts_ok, insert_post. simpl.
  set (rowid := next_rowid (map Post.id (posts d)) (posts_seq d)).
  split.
  - rewrite map_app. simpl. apply NoDup_snoc; [|exact Hnd].
    intros Hin. apply (next_rowid_above_rows _ (posts_seq d)) in Hin. fold rowid in Hin. lia.
  - intros p Hp. apply in_app_or in Hp. destruct Hp as [Hp|[<-|[]]]; simpl.
    + specialize (Hrange p Hp).
      pose proof (next_rowid_above_seq (map Post.id (posts d)) (posts_seq d)). fold rowid in H. lia.
    + pose proof (next_rowid_positive (map Post.id (posts d)) (posts_seq d)). fold rowid in H. lia.
Qed.

Lemma update_post_ok (d : db) (title content : string) (t : Z) (id : number) :
  posts_ok d -> posts_ok (snd (update_post d title content t id)).
Proof.
  intros [Hnd Hrange]. unfold posts_ok, update_post. simpl. split.
  - rewrite map_map.
    erewrite map_ext; [exact Hnd|]. intros p. now destruct (id_is id (Post.id p)).
  - intros p Hp. apply in_map_iff in Hp. destruct Hp as [q [<- Hq]].
    specialize (Hrange q Hq). now destruct (id_is id (Post.id q)).
Qed.

Lemma delete_post_ok (d : db) (id : number) : posts_ok d -> posts_ok (snd (delete_post d id)).
Proof.
  intros [Hnd Hrange]. unfold posts_ok, delete_post. simpl. split.
  - now apply NoDup_map_filter.
  - intros p Hp. apply filter_In in Hp. now apply Hrange.
Qed.

Lemma insert_user_ok `{CaseMapping} (d d' : db) (name email password : string) (t1 t2 rowid : Z) :
  users_ok d ->
  toLowerCase email = email -> email <> EmptyString ->
  insert_user d name email password t1 t2 = inr (rowid, d') ->
  users_ok d' /\ posts d' = posts d /\ posts_seq d' = posts_seq d.
Proof.
  intros [Hid [Hem Hrange]] Hlow Hne. unfold insert_user.
  destruct (existsb _ (users d)) eqn:E; [discriminate|].
  intros Heq. injection Heq as <- <-. simpl. split; [|auto].
  set (rowid := next_rowid (map User.id (users d)) (users_seq d)).
  unfold users_ok. simpl. rewrite !map_app. simpl. repeat split.
  - apply NoDup_snoc; [|exact Hid].
    intros Hin. apply (next_rowid_above_rows _ (users_seq d)) in Hin. fold rowid in Hin. lia.
  - apply NoDup_snoc; [|exact Hem].
    intros Hin. apply in_map_iff in Hin. destruct Hin as [u [Hu Hin]].
    assert (X : existsb (fun u => String.eqb (User.email u) email) (users d) = true).
    { apply existsb_exists. exists u. split; [exact Hin|]. now apply String.eqb_eq. }
    congruence.
  - apply in_app_or in H0. destruct H0 as [Hu|[<-|[]]]; simpl.
    + apply Hrange in Hu. lia.
    + pose proof (next_rowid_positive (map User.id (users d)) (users_seq d)). fold rowid in H0. lia.
  - apply in_app_or in H0. destruct H0 as [Hu|[<-|[]]]; simpl.
    + apply Hrange in Hu.
      pose proof (next_rowid_above_seq (map User.id (users d)) (users_seq d)). fold rowid in H0. lia.
    + lia.
  - apply in_app_or in H0. destruct H0 as [Hu|[<-|[]]]; simpl; [now apply Hrange|exact Hlow].
  - apply in_app_or in H0. destruct H0 as [Hu|[<-|[]]]; simpl; [now apply Hrange|exact Hne].
Qed.

Lemma users_ok_same_users `{CaseMapping} (d d' : db) :
  users d' = users d -> users_seq d' = users_seq d -> users_ok d -> users_ok d'.
Proof.
  unfold users_ok. intros -> ->. tauto.
Qed.

Lemma posts_ok_same_posts (d d' : db) :
  posts d' = posts d -> posts_seq d' = posts_seq d -> posts_ok d -> posts_ok d'.
Proof.
  unfold posts_ok. intros -> ->. tauto.
Qed.

Lemma seed_posts_ok `{CaseMapping} (t : Z) (d : db) : store_ok d -> store_ok (seed_posts t d).
Proof.
  intros [Hp Hu]. unfold seed_posts. destruct (posts d) eqn:E; [|now split].
  split.
  - now repeat apply insert_post_ok.
  - now apply (users_ok_same_users d).
Qed.

Lemma seed_users_ok `{CaseMapping} (t : Z) (d : db) : store_ok d -> store_ok (seed_users t d).
Proof.
  intros [Hp Hu]. unfold seed_users. destruct (users d) eqn:E; [|now split].
  destruct (insert_user d "Demo User" "demo@sample.com" "1234" t t) as [msg|[rowid d']] eqn:Hins;
    [now split|].
  apply insert_user_ok in Hins; try assumption.
  - destruct Hins as [Hu' [Hposts Hseq]]. split; [|exact Hu'].
    now apply (posts_ok_same_posts d).
  - now rewrite toLowerCase_ascii.
  - discriminate.
Qed.

Lemma bootstrap_ok `{CaseMapping} (t1 t2 : Z) (d : db) : store_ok d -> store_ok (bootstrap t1 t2 d).
Proof.
  intros H0. unfold bootstrap. now apply seed_users_ok, seed_posts_ok.
Qed.

Lemma empty_db_ok `{CaseMapping} : store_ok empty_db.
Proof.
  split.
  - split; [constructor|intros p []].
  - split; [constructor|]. split; [constructor|intros u []].
Qed.

Lemma signup_ok `{CaseMapping} (d : db) (b : body) (now date_now : Z) :
  store_ok d -> store_ok (snd (signup d b now date_now)).
Proof.
  intros [Hp Hu]. unfold signup.
  set (name := trim (String_or_empty (property b "name"))).
  set (email := toLowerCase (trim (String_or_empty (property b "email")))).
  set (password := trim (String_or_empty (property b "password"))).
  destruct (is_empty name || is_empty email || is_empty password) eqn:Hval; [now split|].
  destruct (select_user_by_email false d email); [now split|].
  unfold signup_insert.
  destruct (insert_user d name email password now now) as [msg|[rowid d']] eqn:Hins; [now split|].
  apply insert_user_ok in Hins; try assumption.
  - destruct Hins as [Hu' [Hposts Hseq]].
    assert (store_ok d') by (split; [now apply (posts_ok_same_posts d)|exact Hu']).
    now destruct (select_user_by_id d' (Int rowid)).
  - apply toLowerCase_idempotent.
  - apply is_empty_false. apply orb_false_elim in Hval. destruct Hval as [Hval _].
    apply orb_false_elim in Hval. tauto.
Qed.

Lemma handle_ok `{CaseMapping} (d : db) (r : request) : store_ok d -> store_ok (snd (handle d r)).
Proof.
  intros Hok. pose proof Hok as [Hp Hu]. destruct r; simpl.
  - exact Hok.
  - unfold get_post. destruct (negb _); [exact Hok|]. now destruct (select_post d _).
  - unfold create_post. destruct (validatePostInput b) as [e|[title content]]; [exact Hok|].
    destruct (insert_post d title content now now) as [rowid d'] eqn:E. simpl.
    replace d' with (snd (insert_post d title content now now)) by now rewrite E.
    split; [now apply insert_post_ok|now apply (users_ok_same_users d)].
  - unfold update_post_by_id. destruct (negb _); [exact Hok|].
    destruct (validatePostInput b) as [e|[title content]]; [exact Hok|].
    destruct (update_post d title content now (parseId id)) as [changes d'] eqn:E.
    replace d' with (snd (update_post d title content now (parseId id))) by now rewrite E.
    assert (store_ok (snd (update_post d title content now (parseId id)))).
    { split; [now apply update_post_ok|now apply (users_ok_same_users d)]. }
    now destruct (changes =? 0).
  - unfold delete_post_by_id. destruct (negb _); [exact Hok|].
    destruct (delete_post d (parseId id)) as [changes d'] eqn:E.
    replace d' with (snd (delete_post d (parseId id))) by now rewrite E.
    assert (store_ok (snd (delete_post d (parseId id)))).
    { split; [now apply delete_post_ok|now apply (users_ok_same_users d)]. }
    now destruct (changes =? 0).
  - now apply signup_ok.
  - unfold login. destruct (_ || _); [exact Hok|].
    destruct (select_user_by_email true d _) as [u|]; [|exact Hok].
    destruct (user_password u); [|exact Hok]. now destruct (String.eqb _ _).
  - unfold me. destruct (readBearerToken authorization) as [token|]; [|exact Hok].
    destruct (is_empty token); [exact Hok|].
    destruct (parseToken token) as [c|]; [|exact Hok].
    now destruct (select_user_by_id_and_email d _ _).
Qed.

Lemma reachable_ok `{CaseMapping} (d : db) : reachable d -> store_ok d.
Proof.
  induction 1 as [t1 t2|t1 t2 d Hd IH|d r Hd IH].
  - apply bootstrap_ok, empty_db_ok.
  - now apply bootstrap_ok.
  - now apply handle_ok.
Qed.

(** ** Deleting a post *)

Lemma filter_other_ids_length (l : list Post.row) (z : Z) :
  NoDup (map Post.id l) ->
  (exists p, In p l /\ Post.id p = z) ->
  S (List.length (filter (fun p => negb (id_is (Int z) (Post.id p))) l)) = List.length l.
Proof.
  induction l as [|a l IH]; simpl; intros Hnd [p [Hin Hp]]; [contradiction|].
  inversion Hnd as [|? ? Hnin Hnd']; subst.
  destruct (Post.id p =? Post.id a) eqn:E; simpl.
  - f_equal. apply Z.eqb_eq in E.
    rewrite filter_keeps_all; [reflexivity|].
    intros x Hx. apply negb_true_iff, Z.eqb_neq. intros Heq. apply Hnin.
    apply in_map_iff. exists x. split; [congruence|exact Hx].
  - f_equal. apply IH; [exact Hnd'|]. exists p. split; [|reflexivity].
    destruct Hin as [->|Hin]; [|exact Hin]. rewrite Z.eqb_refl in E. discriminate.
Qed.

(** C8. When the path parameter reads as the integer [z]: if a post row
    has id [z], the delete answers 200 with [{id: z}], the table keeps
    exactly the rows of another id, in their order (one row less, ids
    being unique), nothing else of the store changes, and the same delete
    once more answers 404 and changes nothing; if no row has id [z], the
    delete answers 404 and the store is as it was. *)
Theorem delete_post_once_then_404 (d : db) (idParam : string) (z : Z) :
  parseId idParam = Int z ->
  let r1 := fst (delete_post_by_id d idParam) in
  let d1 := snd (delete_post_by_id d idParam) in
  ((exists p, In p (posts d) /\ Post.id p = z) ->
     r1 = sendSuccess (Some (JObj [("id", JNum z)])) 200
     /\ posts d1 = filter (fun p => negb (Post.id p =? z)) (posts d)
     /\ (forall p, In p (posts d1) <-> In p (posts d) /\ Post.id p <> z)
     /\ (NoDup (map Post.id (posts d)) -> S (List.length (posts d1)) = List.length (posts d))
     /\ posts_seq d1 = posts_seq d /\ users d1 = users d /\ users_seq d1 = users_seq d
     /\ delete_post_by_id d1 idParam = (sendError "Post not found." 404, d1))
  /\ ((forall p, In p (posts d) -> Post.id p <> z) ->
     delete_post_by_id d idParam = (sendError "Post not found." 404, d)).
Proof.
  intros Hid r1 d1.
  assert (Habsent : forall d0, (forall p, In p (posts d0) -> Post.id p <> z) ->
            delete_post_by_id d0 idParam = (sendError "Post not found." 404, d0)).
  { intros d0 Hno. unfold delete_post_by_id, delete_post. rewrite Hid. simpl.
    assert (Hz : count_changes (fun p => z =? Post.id p) (posts d0) = 0).
    { apply count_changes_zero. intros x Hx. apply Z.eqb_neq. intros E. now apply (Hno x Hx). }
    rewrite Hz. simpl. f_equal.
    rewrite filter_keeps_all; [apply db_eta|].
    intros x Hx. apply negb_true_iff, Z.eqb_neq. intros E. now apply (Hno x Hx). }
  split; [|apply Habsent].
  intros Hex.
  assert (Hposts : posts d1 = filter (fun p => negb (Post.id p =? z)) (posts d)).
  { subst d1. unfold delete_post_by_id, delete_post. rewrite Hid. simpl.
    destruct (count_changes _ _ =? 0); simpl; apply filter_ext; intros p; now rewrite Z.eqb_sym. }
  assert (Hin : forall p, In p (posts d1) <-> In p (posts d) /\ Post.id p <> z).
  { intros p. rewrite Hposts, filter_In, negb_true_iff, Z.eqb_neq. tauto. }
  assert (Hchanged : (count_changes (fun p => z =? Post.id p) (posts d) =? 0) = false).
  { apply Z.eqb_neq. intros Hz. destruct Hex as [p [Hp Hpz]].
    apply (proj1 (count_changes_zero _ _)) with (x := p) in Hz; [|exact Hp].
    apply Z.eqb_neq in Hz. congruence. }
  assert (Hrest : posts_seq d1 = posts_seq d /\ users d1 = users d /\ users_seq d1 = users_seq d).
  { subst d1. unfold delete_post_by_id, delete_post. rewrite Hid. simpl.
    now destruct (count_changes _ _ =? 0). }
  split.
  { subst r1. unfold delete_post_by_id, delete_post. rewrite Hid. simpl. now rewrite Hchanged. }
  split; [exact Hposts|]. split; [exact Hin|]. split.
  { intros Hnd. rewrite Hposts.
    rewrite <- (filter_other_ids_length (posts d) z Hnd Hex).
    f_equal. f_equal. apply filter_ext. intros p. simpl. now rewrite Z.eqb_sym. }
  destruct Hrest as [H1 [H2 H3]].
  split; [exact H1|]. split; [exact H2|]. split; [exact H3|].
  apply Habsent. intros p Hp. now apply Hin in Hp.
Qed.

Lemma delete_post_once_then_404_on_seed :
  let d := bootstrap 0 0 empty_db in
  fst (delete_post_by_id d "2") = sendSuccess (Some (JObj [("id", JNum 2)])) 200
  /\ map Post.id (posts (snd (delete_post_by_id d "2"))) = [1; 3]
  /\ fst (delete_post_by_id (snd (delete_post_by_id d "2")) "2") = sendError "Post not found." 404
  /\ delete_post_by_id d "99999" = (sendError "Post not found." 404, d).
Proof.
  intros d.
  pose proof (delete_post_once_then_404 d "2" 2 eq_refl) as [Hdel _].
  pose proof (delete_post_once_then_404 d "99999" 99999 eq_refl) as [_ Habs].
  assert (Hex : exists p, In p (posts d) /\ Post.id p = 2).
  { eexists. split; [right; left; reflexivity|reflexivity]. }
  destruct (Hdel Hex) as [H1 [H2 [_ [_ [_ [_ [_ H3]]]]]]].
  split; [exact H1|]. split; [now rewrite H2|]. split; [now rewrite H3|].
  apply Habs. intros p Hp. simpl in Hp.
  destruct Hp as [<-|[<-|[<-|[]]]]; discriminate.
Defined.

(** ** Creating a post *)

Lemma find_after_fresh {A : Type} (hit : A -> bool) (l : list A) (x : A) :
  (forall y, In y l -> hit y = false) -> hit x = true -> find hit (l ++ [x]) = Some x.
Proof.
  intros Hl Hx. induction l as [|a l IH]; simpl.
  - now rewrite Hx.
  - rewrite (Hl a (or_introl eq_refl)). apply IH. intros y Hy. apply Hl. now right.
Qed.

Lemma validatePostInput_ok (b : body) (title content : string) :
  validatePostInput b = inr (title, content) ->
  title = trim (String_or_empty (property b "title"))
  /\ content = trim (String_or_empty (property b "content"))
  /\ title <> EmptyString /\ content <> EmptyString.
Proof.
  unfold validatePostInput.
  destruct (is_empty (trim (String_or_empty (property b "title")))) eqn:Et; [discriminate|].
  destruct (is_empty (trim (String_or_empty (property b "content")))) eqn:Ec; [discriminate|].
  intros Heq. injection Heq as <- <-.
  apply is_empty_false in Et, Ec. auto.
Qed.



(** C6 fails on the code where a text holds U+0000.  The body
    [{title: "a\u0000b", content: "c"}] passes validation and the row is
    stored with its title whole, but the row the handler reads back, and
    answers 201 with, has the title ["a"]; so has the answer of
    [GET /api/posts/4] afterwards: the title that was submitted is not the
    one that is fetched. *)
Theorem create_post_title_cut_at_U0000 :
  let submitted := String "a" (String zero (String "b" EmptyString)) in
  let b := [("title", Str submitted); ("content", Str "c")] in
  let d := bootstrap 0 0 empty_db in
  validatePostInput b = inr (submitted, "c")
  /\ map Post.title (posts (snd (create_post d b 7)))
     = ["First post"; "Second post"; "Third post"; submitted]
  /\ fst (create_post d b 7)
     = sendSuccess (Some (JObj [("id", JNum 4); ("title", JStr "a"); ("content", JStr "c");
                                ("createdAt", JDate 7); ("updatedAt", JDate 7)])) 201
  /\ fst (get_post (snd (create_post d b 7)) "4")
     = sendSuccess (Some (JObj [("id", JNum 4); ("title", JStr "a"); ("content", JStr "c");
                                ("createdAt", JDate 7); ("updatedAt", JDate 7)])) 200
  /\ JStr "a" <> JStr submitted.
Proof.
  intros submitted b d.
  split; [vm_compute; reflexivity|]. split; [vm_compute; reflexivity|].
  split; [vm_compute; reflexivity|]. split; [vm_compute; reflexivity|].
  discriminate.
Qed.

(** ** Updating a post *)

Lemma count_changes_hit {A : Type} (hit : A -> bool) (l : list A) :
  count_changes hit l <> 0 -> exists x, In x l /\ hit x = true.
Proof.
  unfold count_changes. induction l as [|a l IH]; simpl; [congruence|].
  destruct (hit a) eqn:E.
  - intros _. exists a. auto.
  - intros H. destruct (IH H) as [x [Hx Hh]]. exists x. auto.
Qed.

Lemma Forall2_map_right {A B : Type} (R : A -> B -> Prop) (f : A -> B) (l : list A) :
  (forall x, In x l -> R x (f x)) -> Forall2 R l (map f l).
Proof.
  induction l as [|a l IH]; simpl; intros H; constructor.
  - apply H. now left.
  - apply IH. intros x Hx. apply H. now right.
Qed.

(** C5, as the code has it.  A successful update (200) of the row whose id
    the path parameter reads as leaves the table row for row as it was,
    except that a row of that id gets the validated title and content and
    the clock reading of the request as [updatedAt], its id and
    [createdAt] staying; the key counter and the users table are
    untouched, and the answer is the object of the updated row, its texts
    as the driver reads them.  The new [updatedAt] is
    that clock reading whatever the value it replaces, so it is strictly
    later exactly when the clock reads later than the stored value. *)
Theorem update_post_changes_one_row (d : db) (idParam : string) (b : body) (now : Z) :
  status (fst (update_post_by_id d idParam b now)) = 200 ->
  let d' := snd (update_post_by_id d idParam b now) in
  exists z title content,
    parseId idParam = Int z
    /\ validatePostInput b = inr (title, content)
    /\ Forall2 (fun p p' =>
                  if Post.id p =? z
                  then Post.id p' = Post.id p
                       /\ Post.created_at p' = Post.created_at p
                       /\ Post.title p' = title
                       /\ Post.content p' = content
                       /\ Post.updated_at p' = now
                  else p' = p)
         (posts d) (posts d')
    /\ posts_seq d' = posts_seq d /\ users d' = users d /\ users_seq d' = users_seq d
    /\ (exists p', In p' (posts d') /\ Post.id p' = z
                   /\ fst (update_post_by_id d idParam b now)
                      = sendSuccess
                          (Some (JObj [("id", JNum z);
                                       ("title", JStr (column_text title));
                                       ("content", JStr (column_text content));
                                       ("createdAt", JDate (Post.created_at p'));
                                       ("updatedAt", JDate now)])) 200)
    /\ (forall p p', In p (posts d) -> In p' (posts d') -> Post.id p = z -> Post.id p' = z ->
          (Post.updated_at p < Post.updated_at p' <-> Post.updated_at p < now)).
Proof.
  unfold update_post_by_id.
  destruct (parseId idParam) as [| neg | z | m e] eqn:Hid; simpl; try discriminate.
  destruct (validatePostInput b) as [err|[title content]] eqn:Hval; simpl; try discriminate.
  destruct (count_changes (fun p => z =? Post.id p) (posts d) =? 0) eqn:Hch; simpl;
    try discriminate.
  intros _. exists z, title, content.
  set (upd := fun p : Post.row =>
                if z =? Post.id p
                then {| Post.id := Post.id p; Post.title := title; Post.content := content;
                        Post.created_at := Post.created_at p; Post.updated_at := now |}
                else p).
  assert (Hnew3 : forall p', In p' (map upd (posts d)) -> Post.id p' = z ->
                    Post.title p' = title /\ Post.content p' = content
                    /\ Post.updated_at p' = now).
  { intros p' Hp' Hz. apply in_map_iff in Hp'. destruct Hp' as [p [<- Hp]].
    unfold upd in *. destruct (z =? Post.id p) eqn:E; [now repeat split|].
    apply Z.eqb_neq in E. congruence. }
  assert (Hnew : forall p', In p' (map upd (posts d)) -> Post.id p' = z -> Post.updated_at p' = now).
  { intros p' Hp' Hz. now apply Hnew3. }
  split; [reflexivity|]. split; [reflexivity|]. split.
  { apply Forall2_map_right. intros p _. unfold upd. rewrite (Z.eqb_sym (Post.id p) z).
    destruct (z =? Post.id p); auto. }
  split; [reflexivity|]. split; [reflexivity|]. split; [reflexivity|]. split.
  { apply Z.eqb_neq, count_changes_hit in Hch. destruct Hch as [p [Hp Hz]].
    apply Z.eqb_eq in Hz.
    destruct (select_post_present
                {| posts := map upd (posts d); posts_seq := posts_seq d;
                   users := users d; users_seq := users_seq d |} z) as [p' [Hsel [Hin Hp']]].
    { exists (upd p). split; [now apply in_map|].
      unfold upd. destruct (z =? Post.id p); simpl; congruence. }
    exists p'. split; [exact Hin|]. split; [exact Hp'|]. rewrite Hsel.
    destruct (Hnew3 p' Hin Hp') as [Ht [Hc Hu]].
    unfold post_json, read_post. cbn [option_map fst Post.id Post.title Post.content
                                       Post.created_at Post.updated_at].
    now rewrite Hp', Ht, Hc, Hu. }
  intros p p' _ Hp' _ Hz. now rewrite (Hnew p' Hp' Hz).
Qed.

Lemma update_post_changes_one_row_on_seed :
  let d := bootstrap 0 0 empty_db in
  let d' := snd (update_post_by_id d "1" [("title", Str "t"); ("content", Str "c")] 5) in
  map Post.id (posts d') = map Post.id (posts d)
  /\ (forall p', In p' (posts d') -> Post.id p' = 1 -> 0 < Post.updated_at p').
Proof.
  intros d d'.
  destruct (update_post_changes_one_row d "1" [("title", Str "t"); ("content", Str "c")] 5 eq_refl)
    as [z [title [content [Hz [_ [_ [_ [_ [_ [_ Hlater]]]]]]]]]].
  injection Hz as <-.
  split; [reflexivity|].
  intros p' Hp' Hid.
  apply (Hlater {| Post.id := 1; Post.title := "First post";
                   Post.content := "This is sample seed data for CRUD demo.";
                   Post.created_at := 0; Post.updated_at := 0 |} p'); auto.
  - now left.
  - simpl. lia.
Defined.

(** C5 as it was stated fails: the seeded row 1 is updated in the
    millisecond it was written in (the clock reads 1000 both times); the
    update succeeds and [updatedAt] is the value it replaces, not a later
    one. *)
Lemma update_post_same_millisecond :
  let d := bootstrap 1000 1000 empty_db in
  let b := [("title", Str "First post, edited"); ("content", Str "again")] in
  status (fst (update_post_by_id d "1" b 1000)) = 200
  /\ exists p p',
       In p (posts d) /\ In p' (posts (snd (update_post_by_id d "1" b 1000)))
       /\ Post.id p = 1 /\ Post.id p' = 1
       /\ ~ Post.updated_at p < Post.updated_at p'.
Proof.
  split; [reflexivity|].
  eexists. eexists.
  split; [left; reflexivity|]. split; [left; reflexivity|].
  simpl. repeat split. lia.
Qed.

(** ** Who am I *)

Lemma select_user_by_id_and_email_none (d : db) (id : number) (email : string) :
  (forall u, In u (users d) -> ~ (id_is id (User.id u) = true /\ User.email u = email)) ->
  select_user_by_id_and_email d id email = None.
Proof.
  intros H. unfold select_user_by_id_and_email.
  destruct (find _ (users d)) as [u|] eqn:E; [|reflexivity].
  apply find_some in E. destruct E as [Hin Hhit].
  apply andb_true_iff in Hhit. destruct Hhit as [Hid Hem].
  apply String.eqb_eq in Hem. elim (H u Hin). auto.
Qed.

Lemma select_user_by_id_and_email_some (d : db) (id : number) (email : string) (u0 : User.row) :
  In u0 (users d) -> id_is id (User.id u0) = true -> User.email u0 = email ->
  exists u, In u (users d) /\ id_is id (User.id u) = true /\ User.email u = email
            /\ select_user_by_id_and_email d id email = Some (select_columns false u).
Proof.
  intros Hin Hid Hem. unfold select_user_by_id_and_email.
  destruct (find _ (users d)) as [u|] eqn:E.
  - apply find_some in E. destruct E as [Hu Hhit].
    apply andb_true_iff in Hhit. destruct Hhit as [Hi He].
    apply String.eqb_eq in He. exists u. auto.
  - exfalso. eapply find_none in E; [|exact Hin].
    simpl in E. rewrite Hid in E. apply (proj2 (String.eqb_eq _ _)) in Hem.
    rewrite Hem in E. discriminate.
Qed.

Lemma startsWith_true (p s : string) :
  startsWith p s = true -> exists rest, s = (p ++ rest)%string.
Proof.
  revert s. induction p as [|a p IH]; intros s; cbn [startsWith append].
  - intros _. now exists s.
  - destruct s as [|b s]; [discriminate|]. intros H.
    apply andb_true_iff in H. destruct H as [Hab Hs].
    apply Ascii.eqb_eq in Hab. subst b.
    destruct (IH s Hs) as [rest ->]. now exists rest.
Qed.

Lemma readBearerToken_Bearer (rest : string) :
  readBearerToken (Some ("Bearer " ++ rest)%string) = Some (trim rest).
Proof.
  reflexivity.
Qed.

Lemma readBearerToken_other (header : string) :
  (forall rest, header <> ("Bearer " ++ rest)%string) -> readBearerToken (Some header) = None.
Proof.
  intros Hno. unfold readBearerToken.
  destruct (startsWith "Bearer " header) eqn:Hs; [|reflexivity].
  destruct (startsWith_true _ _ Hs) as [rest Hrest]. now elim (Hno rest).
Qed.

Lemma me_stages (d : db) (authorization : option string) :
  let r := fst (me d authorization) in
  snd (me d authorization) = d
  /\ (status r = 401 \/ status r = 200)
  /\ (readBearerToken authorization = None \/ readBearerToken authorization = Some EmptyString ->
      r = sendError "Bearer token is required." 401)
  /\ (forall token,
        readBearerToken authorization = Some token -> token <> EmptyString ->
        parseToken token = None ->
        r = sendError "Invalid token." 401)
  /\ (forall token c,
        readBearerToken authorization = Some token -> token <> EmptyString ->
        parseToken token = Some c ->
        (forall u, In u (users d) ->
           ~ (id_is (claims_id c) (User.id u) = true /\ User.email u = claims_email c)) ->
        r = sendError "Invalid token." 401)
  /\ (forall token c u0,
        readBearerToken authorization = Some token -> token <> EmptyString ->
        parseToken token = Some c ->
        In u0 (users d) -> id_is (claims_id c) (User.id u0) = true ->
        User.email u0 = claims_email c ->
        exists u,
          In u (users d) /\ id_is (claims_id c) (User.id u) = true
          /\ User.email u = claims_email c
          /\ r = sendSuccess (Some (JObj [("user", mapUser (select_columns false u))])) 200).
Proof.
  unfold me.
  destruct (readBearerToken authorization) as [token|] eqn:Hb; simpl.
  2:{ repeat split; auto; intros; discriminate. }
  destruct token as [|c0 rest]; simpl.
  { repeat split; auto; intros; congruence. }
  assert (Hnot : ~ (Some (String c0 rest) = None \/ Some (String c0 rest) = Some EmptyString))
    by (intros [H|H]; discriminate).
  destruct (parseToken (String c0 rest)) as [c|] eqn:Hp; simpl.
  2:{ split; [reflexivity|]. split; [now left|].
      split; [intros H; now elim Hnot|].
      split; [reflexivity|]. split; intros; same_token; congruence. }
  destruct (select_user_by_id_and_email d (claims_id c) (claims_email c)) as [usr|] eqn:Hs;
    cbn [fst snd status sendSuccess sendError].
  - split; [reflexivity|]. split; [now right|].
    split; [intros H; now elim Hnot|].
    split; [intros; same_token; congruence|]. split.
    + intros token c' Ht _ Hc Hnone. same_token.
      rewrite (select_user_by_id_and_email_none _ _ _ Hnone) in Hs. discriminate.
    + intros token c' u0 Ht _ Hc Hin Hid Hem. same_token.
      destruct (select_user_by_id_and_email_some d _ _ u0 Hin Hid Hem) as [u [Hu [Hi [He Hsel]]]].
      exists u. rewrite Hs in Hsel. injection Hsel as ->. auto.
  - split; [reflexivity|]. split; [now left|].
    split; [intros H; now elim Hnot|].
    split; [intros; same_token; congruence|]. split; [reflexivity|].
    intros token c' u0 Ht _ Hc Hin Hid Hem. same_token.
    destruct (select_user_by_id_and_email_some d _ _ u0 Hin Hid Hem) as [u [_ [_ [_ Hsel]]]].
    rewrite Hs in Hsel. discriminate.
Qed.

(** C1. [GET /api/auth/me] never changes the store and answers 401 or
    200, by four stages.  It answers 401 [Bearer token is required.] when
    the request has no Authorization header, when the header is not
    ["Bearer "] followed by some text, or when that text is blank.
    Otherwise the token is that text trimmed, and it answers 401
    [Invalid token.] when the token does not decode; the same when no user
    row has the decoded id together with the decoded email; and otherwise
    200 with [{user}] made of the id, name, email and createdAt of a row
    that has both, the name and the email as the driver reads them. *)
Theorem me_four_stages (d : db) (authorization : option string) :
  let r := fst (me d authorization) in
  snd (me d authorization) = d
  /\ (status r = 401 \/ status r = 200)
  /\ (authorization = None
      \/ (exists header, authorization = Some header
                         /\ ((forall rest, header <> ("Bearer " ++ rest)%string)
                             \/ exists rest, header = ("Bearer " ++ rest)%string
                                             /\ trim rest = EmptyString)) ->
      r = sendError "Bearer token is required." 401)
  /\ (forall rest,
        authorization = Some ("Bearer " ++ rest)%string -> trim rest <> EmptyString ->
        parseToken (trim rest) = None ->
        r = sendError "Invalid token." 401)
  /\ (forall rest c,
        authorization = Some ("Bearer " ++ rest)%string -> trim rest <> EmptyString ->
        parseToken (trim rest) = Some c ->
        (forall u, In u (users d) ->
           ~ (id_is (claims_id c) (User.id u) = true /\ User.email u = claims_email c)) ->
        r = sendError "Invalid token." 401)
  /\ (forall rest c u0,
        authorization = Some ("Bearer " ++ rest)%string -> trim rest <> EmptyString ->
        parseToken (trim rest) = Some c ->
        In u0 (users d) -> id_is (claims_id c) (User.id u0) = true ->
        User.email u0 = claims_email c ->
        exists u,
          In u (users d) /\ id_is (claims_id c) (User.id u) = true
          /\ User.email u = claims_email c
          /\ r = sendSuccess
                   (Some (JObj [("user",
                                 JObj [("id", JNum (User.id u));
                                       ("name", JStr (column_text (User.name u)));
                                       ("email", JStr (column_text (User.email u)));
                                       ("createdAt", JDate (User.created_at u))])])) 200).
Proof.
  intros r. subst r.
  destruct (me_stages d authorization) as [Hstore [Hstatus [Hnone [Hbad [Hmiss Hok]]]]].
  split; [exact Hstore|]. split; [exact Hstatus|]. split.
  { intros Hheader. apply Hnone.
    destruct Hheader as [->|[header [-> [Hother|[rest [-> Hblank]]]]]].
    - now left.
    - left. now apply readBearerToken_other.
    - right. rewrite readBearerToken_Bearer. now rewrite Hblank. }
  split.
  { intros rest -> Hne Hdec. apply (Hbad (trim rest)); auto using readBearerToken_Bearer. }
  split.
  { intros rest c -> Hne Hdec Hno.
    apply (Hmiss (trim rest) c); auto using readBearerToken_Bearer. }
  intros rest c u0 -> Hne Hdec Hin Hid Hem.
  destruct (Hok (trim rest) c u0 (readBearerToken_Bearer rest) Hne Hdec Hin Hid Hem)
    as [u [Hu [Hi [He Hanswer]]]].
  exists u. split; [exact Hu|]. split; [exact Hi|]. split; [exact He|].
  rewrite Hanswer. reflexivity.
Qed.

Lemma me_four_stages_on_seed :
  fst (me (bootstrap 7 7 empty_db) (Some "Bearer MTpkZW1vQHNhbXBsZS5jb206MA"))
  = sendSuccess (Some (JObj [("user", JObj [("id", JNum 1); ("name", JStr "Demo User");
                                            ("email", JStr "demo@sample.com");
                                            ("createdAt", JDate 7)])])) 200
  /\ fst (me (bootstrap 7 7 empty_db) (Some "Bearer  Mjpib2I "))
     = sendError "Invalid token." 401
  /\ fst (me (bootstrap 7 7 empty_db) (Some "Bearer !"))
     = sendError "Invalid token." 401
  /\ fst (me (bootstrap 7 7 empty_db) (Some "bearer MTpkZW1vQHNhbXBsZS5jb206MA"))
     = sendError "Bearer token is required." 401
  /\ fst (me (bootstrap 7 7 empty_db) None) = sendError "Bearer token is required." 401.
Proof.
  split; [vm_compute; reflexivity|]. split; [vm_compute; reflexivity|].
  split; [vm_compute; reflexivity|]. split; [vm_compute; reflexivity|].
  exact (proj1 (proj2 (proj2 (me_four_stages (bootstrap 7 7 empty_db) None)))
           (or_introl eq_refl)).
Defined.

(** ** Decoding a token *)

(** C3, as the code has it.  [parseToken] is a total function to an
    option, so it returns, and without an exception, on every string.
    With the decoded text split at [":"], it gives [None] exactly when
    [Number] of the first segment is not an integer, when there is no
    second segment, or when the second segment is empty, and otherwise the
    integer and the second segment.  A token that does not decode makes
    [GET /api/auth/me] answer 401 with the store unchanged, and whatever
    the token the answer is 401 or 200, never an error of the handler. *)
Theorem parseToken_total (token : string) (d : db) :
  let parts := split ":" (toString_utf8 (base64url_decode token)) in
  let idRaw := nth 0 parts EmptyString in
  (parseToken token = None <->
     Number_isInteger (Number idRaw) = false
     \/ nth_error parts 1 = None
     \/ nth_error parts 1 = Some EmptyString)
  /\ (forall c, parseToken token = Some c <->
        (exists z, Number idRaw = Int z /\ claims_id c = Int z)
        /\ nth_error parts 1 = Some (claims_email c)
        /\ claims_email c <> EmptyString)
  /\ (parseToken token = None ->
      forall authorization, readBearerToken authorization = Some token ->
        status (fst (me d authorization)) = 401 /\ snd (me d authorization) = d)
  /\ (forall authorization, readBearerToken authorization = Some token ->
        status (fst (me d authorization)) = 401 \/ status (fst (me d authorization)) = 200).
Proof.
  intros parts idRaw.
  assert (Hdef : parseToken token =
                 if negb (Number_isInteger (Number idRaw)) || falsy (nth_error parts 1)
                 then None
                 else Some {| claims_id := Number idRaw;
                              claims_email := match nth_error parts 1 with
                                              | Some e => e
                                              | None => EmptyString
                                              end |}) by reflexivity.
  split; [|split; [|split]].
  - rewrite Hdef. clear Hdef.
    generalize (nth_error parts 1) as second. generalize (Number idRaw) as id.
    intros id second.
    destruct id as [| neg | z | m e]; simpl; try (split; auto; fail).
    destruct second as [[|c0 e0]|]; simpl; split; auto; try discriminate.
    intros [H|[H|H]]; discriminate.
  - intros c. rewrite Hdef. clear Hdef.
    generalize (nth_error parts 1) as second. generalize (Number idRaw) as id.
    intros id second.
    destruct id as [| neg | z | m e]; simpl;
      try (split; [discriminate|intros [[z0 [Hz _]] _]; discriminate]).
    destruct second as [[|c0 e0]|]; simpl.
    + split; [discriminate|]. intros [_ [He Hne]]. injection He as He. congruence.
    + split.
      * intros H. injection H as <-. simpl.
        split; [now exists z|]. split; [reflexivity|discriminate].
      * intros [[z0 [Hz Hc]] [He _]]. injection Hz as <-. injection He as He.
        destruct c as [cid cem]. simpl in *. now subst.
    + split; [discriminate|]. intros [_ [He _]]. discriminate.
  - intros Hnone authorization Hb. unfold me. rewrite Hb, Hnone.
    destruct (is_empty token); split; reflexivity.
  - intros authorization Hb. unfold me. rewrite Hb.
    destruct (is_empty token); [now left|].
    destruct (parseToken token) as [c|]; [|now left].
    destruct (select_user_by_id_and_email d (claims_id c) (claims_email c)); [now right|now left].
Qed.

Lemma parseToken_total_on_seed :
  parseToken "not a token" = None
  /\ status (fst (me (bootstrap 0 0 empty_db) (Some "Bearer not a token"))) = 401.
Proof.
  destruct (parseToken_total "not a token" (bootstrap 0 0 empty_db)) as [Hnone [_ [H401 _]]].
  assert (Hp : parseToken "not a token" = None).
  { apply Hnone. right. left. reflexivity. }
  split; [exact Hp|].
  exact (proj1 (H401 Hp (Some "Bearer not a token") eq_refl)).
Defined.

(** C3 as it was stated fails: not every tampered or non-base64 token is
    refused.  The token issued to the seeded user, cut short by fifteen
    characters, and the same with a character outside the alphabet put
    in, are both accepted with 200. *)
Lemma me_accepts_tampered_tokens :
  let d := bootstrap 0 0 empty_db in
  let demo := {| user_id := 1; user_name := "Demo User"; user_email := "demo@sample.com";
                 user_password := None; user_createdAt := 0 |} in
  let issued := "MTpkZW1vQHNhbXBsZS5jb206MTcwMDAwMDAwMDAwMA" in
  let truncated := "MTpkZW1vQHNhbXBsZS5jb206MTcw" in
  let garbled := "MTpkZW1v*QHNhbXBsZS5jb206MTcw" in
  createToken demo 1700000000000 = issued
  /\ startsWith truncated issued = true
  /\ String.eqb truncated issued = false
  /\ status (fst (me d (Some ("Bearer " ++ truncated)%string))) = 200
  /\ unbase64 "*" = None
  /\ status (fst (me d (Some ("Bearer " ++ garbled)%string))) = 200.
Proof.
  vm_compute. repeat split.
Qed.

(** ** Passwords stay in the store *)

Lemma select_columns_erased (u1 u2 : User.row) :
  erase_password u1 = erase_password u2 ->
  select_columns false u1 = select_columns false u2.
Proof.
  unfold erase_password, select_columns. intros H.
  injection H as Hid Hname Hemail Hcreated _. simpl. congruence.
Qed.

Lemma cons_eq {A : Type} (x y : A) (l k : list A) : x :: l = y :: k -> x = y /\ l = k.
Proof.
  intros H. now injection H.
Qed.

Lemma find_erased (hit : User.row -> bool) (l1 l2 : list User.row) :
  (forall u, hit (erase_password u) = hit u) ->
  map erase_password l1 = map erase_password l2 ->
  option_map erase_password (find hit l1) = option_map erase_password (find hit l2).
Proof.
  intros Hhit. revert l2.
  induction l1 as [|a l1 IH]; intros [|b l2]; simpl; try discriminate; [reflexivity|].
  intros H. apply cons_eq in H. destruct H as [Hab Hl].
  rewrite <- (Hhit a), <- (Hhit b), Hab.
  destruct (hit (erase_password b)); simpl; [now f_equal|now apply IH].
Qed.

Lemma find_select_erased (hit : User.row -> bool) (l1 l2 : list User.row) :
  (forall u, hit (erase_password u) = hit u) ->
  map erase_password l1 = map erase_password l2 ->
  option_map (select_columns false) (find hit l1)
  = option_map (select_columns false) (find hit l2).
Proof.
  intros Hhit Hl. pose proof (find_erased hit l1 l2 Hhit Hl) as H.
  destruct (find hit l1) as [u1|], (find hit l2) as [u2|]; simpl in *; try discriminate.
  - f_equal. apply select_columns_erased. congruence.
  - reflexivity.
Qed.

Lemma existsb_erased (hit : User.row -> bool) (l1 l2 : list User.row) :
  (forall u, hit (erase_password u) = hit u) ->
  map erase_password l1 = map erase_password l2 ->
  existsb hit l1 = existsb hit l2.
Proof.
  intros Hhit. revert l2.
  induction l1 as [|a l1 IH]; intros [|b l2]; simpl; try discriminate; [reflexivity|].
  intros H. apply cons_eq in H. destruct H as [Hab Hl].
  rewrite <- (Hhit a), <- (Hhit b), Hab. f_equal. now apply IH.
Qed.

Lemma map_id_erased (l1 l2 : list User.row) :
  map erase_password l1 = map erase_password l2 -> map User.id l1 = map User.id l2.
Proof.
  intros H. apply (f_equal (map User.id)) in H. now rewrite !map_map in H.
Qed.

Lemma insert_user_erased (d1 d2 : db) (name email password : string) (t1 t2 : Z) :
  same_but_passwords d1 d2 ->
  match insert_user d1 name email password t1 t2, insert_user d2 name email password t1 t2 with
  | inl m1, inl m2 => m1 = m2
  | inr (r1, d1'), inr (r2, d2') => r1 = r2 /\ same_but_passwords d1' d2'
  | _, _ => False
  end.
Proof.
  intros [Hp [Hps [Hus Hu]]]. unfold insert_user.
  rewrite (existsb_erased (fun u => String.eqb (User.email u) email) _ _ (fun u => eq_refl) Hu).
  destruct (existsb _ (users d2)); [reflexivity|].
  rewrite (map_id_erased _ _ Hu), Hus. split; [reflexivity|].
  unfold same_but_passwords. simpl. rewrite !map_app, Hu. simpl. auto.
Qed.

Lemma sendError_no_password (message : string) (code : Z) :
  has_key "password" (payload (sendError message code)) = false.
Proof.
  reflexivity.
Qed.

Lemma session_no_password (u : user) (token : string) (code : Z) :
  has_key "password"
    (payload (sendSuccess (Some (JObj [("token", JStr token); ("user", mapUser u)])) code)) = false.
Proof.
  reflexivity.
Qed.

Lemma signup_no_password `{CaseMapping} (d : db) (b : body) (now date_now : Z) :
  has_key "password" (payload (fst (signup d b now date_now))) = false.
Proof.
  unfold signup.
  destruct (_ || _); [reflexivity|].
  destruct (select_user_by_email false d _); [reflexivity|].
  unfold signup_insert.
  destruct (insert_user d _ _ _ now now) as [msg|[rowid d']]; [reflexivity|].
  destruct (select_user_by_id d' (Int rowid)); reflexivity.
Qed.

Lemma login_no_password `{CaseMapping} (d : db) (b : body) (date_now : Z) :
  has_key "password" (payload (fst (login d b date_now))) = false.
Proof.
  unfold login.
  destruct (_ || _); [reflexivity|].
  destruct (select_user_by_email true d _) as [u|]; [|reflexivity].
  destruct (user_password u); [|reflexivity].
  destruct (String.eqb _ _); reflexivity.
Qed.

Lemma me_no_password (d : db) (authorization : option string) :
  has_key "password" (payload (fst (me d authorization))) = false.
Proof.
  unfold me.
  destruct (readBearerToken authorization) as [token|]; [|reflexivity].
  destruct (is_empty token); [reflexivity|].
  destruct (parseToken token) as [c|]; [|reflexivity].
  destruct (select_user_by_id_and_email d _ _); reflexivity.
Qed.

Lemma signup_erased `{CaseMapping} (d1 d2 : db) (b : body) (now date_now : Z) :
  same_but_passwords d1 d2 ->
  fst (signup d1 b now date_now) = fst (signup d2 b now date_now)
  /\ same_but_passwords (snd (signup d1 b now date_now)) (snd (signup d2 b now date_now)).
Proof.
  intros Hsame. pose proof Hsame as [Hp [Hps [Hus Hu]]]. unfold signup.
  set (name := trim (String_or_empty (property b "name"))).
  set (email := toLowerCase (trim (String_or_empty (property b "email")))).
  set (password := trim (String_or_empty (property b "password"))).
  destruct (is_empty name || is_empty email || is_empty password); [now split|].
  unfold select_user_by_email.
  rewrite (find_select_erased (fun u => String.eqb (User.email u) email) _ _ (fun u => eq_refl) Hu).
  destruct (option_map _ (find _ (users d2))); [now split|].
  unfold signup_insert.
  pose proof (insert_user_erased d1 d2 name email password now now Hsame) as Hins.
  destruct (insert_user d1 name email password now now) as [m1|[r1 d1']],
           (insert_user d2 name email password now now) as [m2|[r2 d2']];
    try contradiction.
  - subst. now split.
  - destruct Hins as [<- Hsame']. pose proof Hsame' as [_ [_ [_ Hu']]].
    unfold select_user_by_id.
    rewrite (find_select_erased (fun u => id_is (Int r1) (User.id u)) _ _ (fun u => eq_refl) Hu').
    destruct (option_map _ (find _ (users d2'))); now split.
Qed.

Lemma me_erased (d1 d2 : db) (authorization : option string) :
  same_but_passwords d1 d2 -> fst (me d1 authorization) = fst (me d2 authorization).
Proof.
  intros [_ [_ [_ Hu]]]. unfold me.
  destruct (readBearerToken authorization) as [token|]; [|reflexivity].
  destruct (is_empty token); [reflexivity|].
  destruct (parseToken token) as [c|]; [|reflexivity].
  unfold select_user_by_id_and_email.
  rewrite (find_select_erased
             (fun u => id_is (claims_id c) (User.id u) && String.eqb (User.email u) (claims_email c))
             _ _ (fun u => eq_refl) Hu).
  now destruct (option_map _ (find _ (users d2))).
Qed.

Lemma login_erased `{CaseMapping} (d1 d2 : db) (b : body) (date_now : Z) :
  same_but_passwords d1 d2 ->
  status (fst (login d1 b date_now)) = status (fst (login d2 b date_now)) ->
  fst (login d1 b date_now) = fst (login d2 b date_now).
Proof.
  intros [_ [_ [_ Hu]]]. unfold login.
  set (email := toLowerCase (trim (String_or_empty (property b "email")))).
  set (password := trim (String_or_empty (property b "password"))).
  destruct (is_empty email || is_empty password); [reflexivity|].
  unfold select_user_by_email.
  pose proof (find_erased (fun u => String.eqb (User.email u) email) _ _ (fun u => eq_refl) Hu) as Hf.
  destruct (find _ (users d1)) as [u1|], (find _ (users d2)) as [u2|]; simpl in *;
    try discriminate; [|reflexivity].
  assert (He : erase_password u1 = erase_password u2) by congruence.
  unfold erase_password in He. injection He as Hid Hname Hemail Hcreated _.
  unfold createToken, mapUser. simpl. rewrite Hid, Hname, Hemail, Hcreated.
  destruct (String.eqb (column_text (User.password u1)) password),
           (String.eqb (column_text (User.password u2)) password);
    simpl; intros Hst; try reflexivity; discriminate.
Qed.

(** C10. The answers of signup, login and [/api/auth/me] never hold a
    [password] key, at any depth.  Moreover, of two stores that differ at
    most in the passwords of their user rows, signup and [/api/auth/me]
    give the same answer to the same request (and signup leaves two such
    stores again), and login, the one handler that reads the column,
    gives the same answer whenever it gives the same status: the stored
    password decides whether a login succeeds and nothing else of any
    answer. *)
Theorem password_never_in_answers `{CaseMapping} (d1 d2 : db) :
  same_but_passwords d1 d2 ->
  (forall b now date_now,
     has_key "password" (payload (fst (signup d1 b now date_now))) = false
     /\ fst (signup d1 b now date_now) = fst (signup d2 b now date_now)
     /\ same_but_passwords (snd (signup d1 b now date_now)) (snd (signup d2 b now date_now)))
  /\ (forall authorization,
        has_key "password" (payload (fst (me d1 authorization))) = false
        /\ fst (me d1 authorization) = fst (me d2 authorization))
  /\ (forall b date_now,
        has_key "password" (payload (fst (login d1 b date_now))) = false
        /\ (status (fst (login d1 b date_now)) = status (fst (login d2 b date_now)) ->
            fst (login d1 b date_now) = fst (login d2 b date_now))).
Proof.
  intros Hsame. split; [|split].
  - intros b now date_now. split; [apply signup_no_password|].
    now apply signup_erased.
  - intros authorization. split; [apply me_no_password|].
    now apply me_erased.
  - intros b date_now. split; [apply login_no_password|].
    now apply login_erased.
Qed.

Lemma password_never_in_answers_on_seed :
  let d1 := bootstrap 0 0 empty_db in
  let d2 := {| posts := posts d1; posts_seq := posts_seq d1;
               users := [{| User.id := 1; User.name := "Demo User";
                            User.email := "demo@sample.com"; User.password := "another";
                            User.created_at := 0; User.updated_at := 0 |}];
               users_seq := users_seq d1 |} in
  users d1 <> users d2
  /\ fst (me d1 (Some "Bearer MTpkZW1vQHNhbXBsZS5jb206MA")) =
     fst (me d2 (Some "Bearer MTpkZW1vQHNhbXBsZS5jb206MA"))
  /\ status (fst (me d1 (Some "Bearer MTpkZW1vQHNhbXBsZS5jb206MA"))) = 200
  /\ has_key "password" (payload (fst (login d1 [("email", Str "demo@sample.com");
                                                 ("password", Str "1234")] 0))) = false.
Proof.
  intros d1 d2.
  assert (Hsame : same_but_passwords d1 d2) by (repeat split).
  destruct (password_never_in_answers d1 d2 Hsame) as [_ [Hme Hlogin]].
  split; [discriminate|].
  split; [apply Hme|]. split; [reflexivity|]. apply Hlogin.
Defined.

(** ** Signing up with a registered email *)

Lemma find_hit {A : Type} (hit : A -> bool) (l : list A) (x : A) :
  In x l -> hit x = true -> exists y, find hit l = Some y.
Proof.
  intros Hin Hx. destruct (find hit l) as [y|] eqn:E; [now exists y|].
  apply (find_none _ _ E) in Hin. congruence.
Qed.

Lemma insert_user_unique (d : db) (u : User.row) (name password : string) (t1 t2 : Z) :
  In u (users d) ->
  insert_user d name (User.email u) password t1 t2 = inl "UNIQUE constraint failed: users.email".
Proof.
  intros Hin. unfold insert_user.
  assert (H : existsb (fun v => String.eqb (User.email v) (User.email u)) (users d) = true).
  { apply existsb_exists. exists u. split; [exact Hin|apply String.eqb_refl]. }
  now rewrite H.
Qed.

Lemma signup_status `{CaseMapping} (d : db) (b : body) (now date_now : Z) :
  In (status (fst (signup d b now date_now))) [201; 409; 422; 500].
Proof.
  unfold signup.
  destruct (_ || _); [simpl; tauto|].
  destruct (select_user_by_email false d _); [simpl; tauto|].
  unfold signup_insert.
  destruct (insert_user d _ _ _ now now) as [msg|[rowid d']]; [simpl; tauto|].
  destruct (select_user_by_id d' (Int rowid)); simpl; tauto.
Qed.

(** C4, as the code has it.  In a store the server can reach, take a
    signup whose email, trimmed and lowercased, is that of a user row up
    to case.  If its name and password are not blank the answer is 409; if
    one of them is blank the answer is the 422 of validation, which comes
    first.  Either way the store is left as it was.  Uniqueness is the
    store's: the emails of the user rows are pairwise distinct, an INSERT
    with the email of a row is refused with an error, the handler's code
    from the INSERT on answers that error with a 500 and leaves the store
    as it was, and every answer of signup is one of 201, 409, 422, 500. *)
Theorem signup_registered_email_409 `{CaseMapping}
    (d : db) (b : body) (now date_now : Z) (u : User.row) :
  reachable d ->
  In u (users d) ->
  toLowerCase (User.email u)
  = toLowerCase (toLowerCase (trim (String_or_empty (property b "email")))) ->
  let name := trim (String_or_empty (property b "name")) in
  let password := trim (String_or_empty (property b "password")) in
  (name <> EmptyString -> password <> EmptyString ->
     signup d b now date_now = (sendError "This email is already registered." 409, d))
  /\ (name = EmptyString \/ password = EmptyString ->
      signup d b now date_now = (sendError "name, email, password are required." 422, d))
  /\ snd (signup d b now date_now) = d
  /\ NoDup (map User.email (users d))
  /\ (forall n p t1 t2,
        insert_user d n (User.email u) p t1 t2 = inl "UNIQUE constraint failed: users.email")
  /\ (forall n p t1 t2,
        signup_insert d n (User.email u) p t1 t2
        = (sendError "UNIQUE constraint failed: users.email" 500, d))
  /\ In (status (fst (signup d b now date_now))) [201; 409; 422; 500].
Proof.
  intros Hreach Hin Hci name password.
  destruct (reachable_ok d Hreach) as [_ [_ [Hnd Hrows]]].
  destruct (Hrows u Hin) as [_ [Hlow Hne]].
  set (email := toLowerCase (trim (String_or_empty (property b "email")))) in *.
  assert (Hemail : User.email u = email).
  { rewrite <- Hlow, Hci. unfold email. now rewrite !toLowerCase_idempotent. }
  assert (Hfound : exists v, select_user_by_email false d email = Some v).
  { unfold select_user_by_email.
    destruct (find_hit (fun v => String.eqb (User.email v) email) (users d) u Hin) as [y Hy].
    - now apply String.eqb_eq.
    - rewrite Hy. now eexists. }
  destruct Hfound as [v Hv].
  assert (H409 : name <> EmptyString -> password <> EmptyString ->
            signup d b now date_now = (sendError "This email is already registered." 409, d)).
  { intros Hn Hp. unfold signup. fold name. fold email. fold password.
    apply is_empty_false in Hn, Hp.
    assert (He : is_empty email = false) by (apply is_empty_false; congruence).
    now rewrite Hn, Hp, He, Hv. }
  assert (H422 : name = EmptyString \/ password = EmptyString ->
            signup d b now date_now = (sendError "name, email, password are required." 422, d)).
  { intros Hblank. unfold signup. fold name. fold email. fold password.
    destruct Hblank as [-> | ->]; simpl; [reflexivity|].
    now rewrite !orb_true_r. }
  split; [exact H409|]. split; [exact H422|]. split.
  { destruct name eqn:En; [now rewrite H422; auto|].
    destruct password eqn:Ep; [now rewrite H422; auto|].
    rewrite H409; [reflexivity|discriminate|discriminate]. }
  split; [exact Hnd|]. split; [intros; now apply insert_user_unique|].
  split; [|apply signup_status].
  intros n p t1 t2. unfold signup_insert. now rewrite insert_user_unique.
Qed.

Lemma signup_registered_email_409_on_seed :
  signup (bootstrap 0 0 empty_db)
    [("name", Str "Someone"); ("email", Str "  Demo@Sample.COM "); ("password", Str "pw")] 5 6
  = (sendError "This email is already registered." 409, bootstrap 0 0 empty_db).
Proof.
  refine (proj1 (signup_registered_email_409 (bootstrap 0 0 empty_db)
                   [("name", Str "Someone"); ("email", Str "  Demo@Sample.COM ");
                    ("password", Str "pw")] 5 6
                   {| User.id := 1; User.name := "Demo User"; User.email := "demo@sample.com";
                      User.password := "1234"; User.created_at := 0; User.updated_at := 0 |}
                   (reachable_fresh 0 0) _ _) _ _).
  - left. reflexivity.
  - reflexivity.
  - discriminate.
  - discriminate.
Defined.

(** C4 as it was stated fails: a signup with the seeded user's email and
    no name or password is answered 422, not 409. *)
Lemma signup_registered_email_422 :
  let d := bootstrap 0 0 empty_db in
  let b := [("email", Str "Demo@Sample.com")] in
  (exists u, In u (users d)
             /\ toLowerCase (User.email u)
                = toLowerCase (toLowerCase (trim (String_or_empty (property b "email")))))
  /\ status (fst (signup d b 5 6)) = 422
  /\ status (fst (signup d b 5 6)) <> 409.
Proof.
  split.
  - eexists. split; [left; reflexivity|reflexivity].
  - split; [reflexivity|discriminate].
Qed.

(** ** Tokens and the address they carry *)

(** C2 fails on the code: the decoder splits the whole text at [":"] and
    keeps the second piece, so an email that holds a colon is cut at it.
    An address with an IPv6 literal for its domain is such an email.  On
    the seeded store a signup with [Ann@[IPv6:2001:db8::1]] succeeds and
    returns a token; the token decodes to [(2, "ann@[ipv6")], not to the
    id and email of the row; [/api/auth/me] refuses it with 401; and the
    token a later login returns is refused as well. *)
Theorem token_of_email_with_colon_refused :
  let d := bootstrap 0 0 empty_db in
  let b := [("name", Str "Ann"); ("email", Str "Ann@[IPv6:2001:db8::1]");
            ("password", Str "pw")] in
  let row := {| user_id := 2; user_name := "Ann"; user_email := "ann@[ipv6:2001:db8::1]";
                user_password := None; user_createdAt := 5 |} in
  let d' := snd (signup d b 5 6) in
  fst (signup d b 5 6)
  = sendSuccess (Some (JObj [("token", JStr (createToken row 6)); ("user", mapUser row)])) 201
  /\ select_user_by_id d' (Int 2) = Some row
  /\ parseToken (createToken row 6)
     = Some {| claims_id := Int 2; claims_email := "ann@[ipv6" |}
  /\ fst (me d' (Some ("Bearer " ++ createToken row 6)%string)) = sendError "Invalid token." 401
  /\ fst (login d' b 7)
     = sendSuccess (Some (JObj [("token", JStr (createToken row 7)); ("user", mapUser row)])) 200
  /\ fst (me d' (Some ("Bearer " ++ createToken row 7)%string)) = sendError "Invalid token." 401.
Proof.
  vm_compute. repeat split.
Qed.

(** ** A token read back *)

Lemma split_first (a rest : string) :
  no_colon a = true -> split ":" (a ++ String ":" rest) = a :: split ":" rest.
Proof.
  unfold no_colon. induction a as [|c a IH]; intros H.
  - simpl. reflexivity.
  - cbn [all_chars] in H. apply andb_true_iff in H. destruct H as [Hc Ha].
    apply negb_true_iff in Hc.
    cbn [append split]. rewrite Hc, (IH Ha). reflexivity.
Qed.

Lemma numeric_no_colon (s : string) : all_chars numeric s = true -> no_colon s = true.
Proof.
  apply all_chars_weaken. intros c Hc. apply negb_true_iff.
  now apply numeric_not_letter.
Qed.

Lemma numeric_is_ascii (s : string) : all_chars numeric s = true -> is_ascii s = true.
Proof.
  apply all_chars_weaken. intros c Hc. unfold numeric, between in Hc.
  apply andb_true_iff in Hc. apply Z.ltb_lt. lia.
Qed.

Lemma token_text_decoded (a e t : string) :
  all_chars numeric a = true -> utf8_valid e = true -> all_chars numeric t = true ->
  toString_utf8 (a ++ ":" ++ e ++ ":" ++ t) = (a ++ ":" ++ e ++ ":" ++ t)%string.
Proof.
  intros Ha He Ht.
  rewrite toString_utf8_valid_app by now apply is_ascii_utf8_valid, numeric_is_ascii.
  rewrite (toString_utf8_valid_app ":") by reflexivity.
  rewrite toString_utf8_valid_app by exact He.
  rewrite (toString_utf8_valid_app ":") by reflexivity.
  rewrite toString_utf8_valid by now apply is_ascii_utf8_valid, numeric_is_ascii.
  reflexivity.
Qed.

Lemma parseToken_encoded (a e t : string) (z : Z) :
  all_chars numeric a = true -> Number a = Int z ->
  utf8_valid e = true -> no_colon e = true -> e <> EmptyString ->
  all_chars numeric t = true ->
  parseToken (base64url_encode (a ++ ":" ++ e ++ ":" ++ t))
  = Some {| claims_id := Int z; claims_email := e |}.
Proof.
  intros Ha Hz Hvalid Hcolon Hne Ht.
  unfold parseToken.
  rewrite base64url_roundtrip, (token_text_decoded _ _ _ Ha Hvalid Ht).
  cbn [append].
  rewrite split_first by now apply numeric_no_colon.
  rewrite split_first by exact Hcolon.
  cbn [nth nth_error]. rewrite Hz.
  cbn [Number_isInteger negb orb falsy].
  apply is_empty_false in Hne. now rewrite Hne.
Qed.

(** The token of a user row decodes to the row's id and email, when the
    id is an integer JavaScript holds exactly and the email is well-formed
    text, not empty, without a colon. *)
Theorem createToken_parseToken (u : user) (date_now : Z) :
  - 2 ^ 53 < user_id u < 2 ^ 53 ->
  utf8_valid (user_email u) = true ->
  no_colon (user_email u) = true ->
  user_email u <> EmptyString ->
  parseToken (createToken u date_now)
  = Some {| claims_id := Int (user_id u); claims_email := user_email u |}.
Proof.
  intros Hid Hvalid Hcolon Hne. unfold createToken.
  apply parseToken_encoded; try assumption.
  - apply Number_toString_numeric.
  - now apply Number_toString_roundtrip.
  - apply Number_toString_numeric.
Qed.

Lemma createToken_parseToken_demo :
  parseToken (createToken {| user_id := 1; user_name := "Demo User";
                             user_email := "demo@sample.com"; user_password := None;
                             user_createdAt := 0 |} 1700000000000)
  = Some {| claims_id := Int 1; claims_email := "demo@sample.com" |}.
Proof.
  apply (createToken_parseToken
           {| user_id := 1; user_name := "Demo User"; user_email := "demo@sample.com";
              user_password := None; user_createdAt := 0 |} 1700000000000).
  - simpl. lia.
  - reflexivity.
  - reflexivity.
  - discriminate.
Defined.

(** ** A session: the token a handler returns, presented to [/api/auth/me] *)

Lemma b64_plain (n : Z) : plain (b64 n) = true.
Proof.
  unfold b64. generalize (Z.to_nat n) as k. intros k.
  do 64 (destruct k as [|k]; [reflexivity|]). reflexivity.
Qed.

Lemma base64url_encode_plain_step (n : nat) :
  forall buf, (String.length buf <= n)%nat -> all_chars plain (base64url_encode buf) = true.
Proof.
  induction n as [|n IH]; intros buf Hlen.
  - destruct buf; [reflexivity|simpl in Hlen; lia].
  - destruct buf as [|a [|b [|c r]]]; cbn [base64url_encode all_chars];
      rewrite ?b64_plain; try reflexivity.
    apply IH. simpl in Hlen. lia.
Qed.

Lemma base64url_encode_plain (buf : string) : all_chars plain (base64url_encode buf) = true.
Proof.
  apply (base64url_encode_plain_step (String.length buf)). lia.
Qed.

Lemma createToken_not_empty (u : user) (date_now : Z) :
  is_empty (createToken u date_now) = false.
Proof.
  unfold createToken.
  destruct (Number_toString (user_id u) ++ ":" ++ user_email u ++ ":" ++ Number_toString date_now)%string
    as [|a [|b [|c r]]] eqn:E; try reflexivity.
  destruct (Number_toString (user_id u)); discriminate.
Qed.

Lemma readBearerToken_plain (token : string) :
  all_chars plain token = true ->
  readBearerToken (Some ("Bearer " ++ token)%string) = Some token.
Proof.
  intros H. unfold readBearerToken. cbn [append startsWith Ascii.eqb Bool.eqb andb negb slice].
  now rewrite trim_plain.
Qed.

Lemma same_id_same_row (l : list User.row) (u v : User.row) :
  NoDup (map User.id l) -> In u l -> In v l -> User.id u = User.id v -> u = v.
Proof.
  induction l as [|a l IH]; simpl; intros Hnd Hu Hv Hid; [contradiction|].
  inversion Hnd as [|? ? Hnin Hnd']; subst.
  destruct Hu as [->|Hu], Hv as [->|Hv]; auto.
  - elim Hnin. rewrite Hid. now apply in_map.
  - elim Hnin. rewrite <- Hid. now apply in_map.
Qed.

Lemma me_accepts_token (d : db) (row : User.row) (with_password : bool) (date_now : Z) :
  NoDup (map User.id (users d)) ->
  In row (users d) ->
  - 2 ^ 53 < User.id row < 2 ^ 53 ->
  utf8_valid (User.email row) = true ->
  no_colon (User.email row) = true ->
  no_nul (User.email row) = true ->
  User.email row <> EmptyString ->
  fst (me d (Some ("Bearer " ++ createToken (select_columns with_password row) date_now)%string))
  = sendSuccess (Some (JObj [("user", mapUser (select_columns false row))])) 200.
Proof.
  intros Hnd Hin Hid Hvalid Hcolon Hnul Hne.
  set (u := select_columns with_password row).
  unfold me.
  rewrite readBearerToken_plain by apply base64url_encode_plain.
  rewrite createToken_not_empty.
  assert (Hparse : parseToken (createToken u date_now)
                   = Some {| claims_id := Int (User.id row); claims_email := User.email row |}).
  { unfold createToken, u, select_columns. cbn [user_id user_email].
    rewrite (column_text_no_nul _ Hnul). apply parseToken_encoded; try assumption.
    - apply Number_toString_numeric.
    - now apply Number_toString_roundtrip.
    - apply Number_toString_numeric. }
  rewrite Hparse. cbn [claims_id claims_email].
  destruct (select_user_by_id_and_email_some d (Int (User.id row)) (User.email row) row Hin)
    as [v [Hv [Hvid [_ Hsel]]]]; [apply Z.eqb_refl|reflexivity|].
  rewrite Hsel. apply id_is_Int in Hvid.
  now rewrite (same_id_same_row (users d) v row Hnd Hv Hin Hvid).
Qed.

(** The token a successful signup returns is accepted by
    [/api/auth/me], which answers with the same user, when the email as
    stored is well-formed text without a colon and without U+0000, so
    that the driver reads it back whole (and the key counter is below
    [2^53], as SQLite's keys read as JavaScript numbers are). *)
Theorem signup_then_me `{CaseMapping} (d : db) (b : body) (now date_now : Z) :
  reachable d ->
  users_seq d < 2 ^ 53 - 1 ->
  utf8_valid (toLowerCase (trim (String_or_empty (property b "email")))) = true ->
  no_colon (toLowerCase (trim (String_or_empty (property b "email")))) = true ->
  no_nul (toLowerCase (trim (String_or_empty (property b "email")))) = true ->
  status (fst (signup d b now date_now)) = 201 ->
  exists token usr,
    fst (signup d b now date_now)
    = sendSuccess (Some (JObj [("token", JStr token); ("user", usr)])) 201
    /\ fst (me (snd (signup d b now date_now)) (Some ("Bearer " ++ token)%string))
       = sendSuccess (Some (JObj [("user", usr)])) 200.
Proof.
  intros Hreach Hseq Hvalid Hcolon Hnul.
  destruct (reachable_ok d Hreach) as [_ Hu].
  unfold signup.
  set (name := trim (String_or_empty (property b "name"))).
  set (email := toLowerCase (trim (String_or_empty (property b "email")))) in *.
  set (password := trim (String_or_empty (property b "password"))).
  destruct (is_empty name || is_empty email || is_empty password) eqn:Hval; [discriminate|].
  destruct (select_user_by_email false d email); [discriminate|].
  unfold signup_insert.
  destruct (insert_user d name email password now now) as [msg|[rowid d']] eqn:Hins;
    [discriminate|].
  assert (Hne : email <> EmptyString).
  { apply is_empty_false. apply orb_false_elim in Hval. destruct Hval as [Hval _].
    apply orb_false_elim in Hval. tauto. }
  destruct (insert_user_ok d d' name email password now now rowid Hu
              (toLowerCase_idempotent _) Hne Hins) as [[Hnd' _] _].
  unfold insert_user in Hins.
  destruct (existsb _ (users d)); [discriminate|].
  injection Hins as Hrow Hd'.
  set (row := {| User.id := rowid; User.name := name; User.email := email;
                 User.password := password;
                 User.created_at := now; User.updated_at := now |}) in *.
  assert (Husers : users d' = users d ++ [row]).
  { rewrite <- Hd'. cbn [users]. unfold row. now rewrite Hrow. }
  assert (Hfresh : forall v, In v (users d) -> User.id v < rowid).
  { intros v Hv. rewrite <- Hrow. apply next_rowid_above_rows. now apply in_map. }
  assert (Hsel : select_user_by_id d' (Int rowid) = Some (select_columns false row)).
  { unfold select_user_by_id. rewrite Husers.
    rewrite (find_after_fresh _ _ row); [reflexivity| |apply Z.eqb_refl].
    intros v Hv. apply Z.eqb_neq. specialize (Hfresh v Hv). lia. }
  rewrite Hsel. intros _.
  exists (createToken (select_columns false row) date_now), (mapUser (select_columns false row)).
  split; [reflexivity|].
  cbn [fst snd]. apply me_accepts_token; try assumption.
  - rewrite Husers. apply in_or_app. right. now left.
  - cbn [User.id row].
    pose proof (next_rowid_positive (map User.id (users d)) (users_seq d)) as Hpos.
    assert (Hle : next_rowid (map User.id (users d)) (users_seq d) <= Z.max 0 (users_seq d) + 1).
    { unfold next_rowid.
      assert (Hmax : fold_right Z.max 0 (map User.id (users d)) <= Z.max 0 (users_seq d)).
      { destruct Hu as [_ [_ Hrange]]. clear - Hrange.
        induction (users d) as [|v l IH]; simpl; [lia|].
        assert (Hv := Hrange v (or_introl eq_refl)).
        assert (Hl : forall u, In u l -> 0 < User.id u <= users_seq d
                                         /\ toLowerCase (User.email u) = User.email u
                                         /\ User.email u <> EmptyString)
          by (intros u0 Hu0; apply Hrange; now right).
        specialize (IH Hl). lia. }
      lia. }
    assert (2 ^ 53 = 9007199254740992) by reflexivity. lia.
Qed.

Lemma signup_then_me_on_seed :
  exists token usr,
    fst (signup (bootstrap 0 0 empty_db)
           [("name", Str "Ann"); ("email", Str "Ann@X.com"); ("password", Str "pw")] 5 6)
    = sendSuccess (Some (JObj [("token", JStr token); ("user", usr)])) 201
    /\ fst (me (snd (signup (bootstrap 0 0 empty_db)
                       [("name", Str "Ann"); ("email", Str "Ann@X.com"); ("password", Str "pw")]
                       5 6))
              (Some ("Bearer " ++ token)%string))
       = sendSuccess (Some (JObj [("user", usr)])) 200.
Proof.
  apply (signup_then_me (bootstrap 0 0 empty_db)
           [("name", Str "Ann"); ("email", Str "Ann@X.com"); ("password", Str "pw")] 5 6).
  - apply reachable_fresh.
  - reflexivity.
  - reflexivity.
  - reflexivity.
  - reflexivity.
  - reflexivity.
Defined.

(** The token a successful login returns is accepted by [/api/auth/me],
    which answers with the same user, under the same conditions: the
    email is well-formed text without a colon and without U+0000. *)
Theorem login_then_me `{CaseMapping} (d : db) (b : body) (date_now : Z) :
  reachable d ->
  users_seq d < 2 ^ 53 ->
  utf8_valid (toLowerCase (trim (String_or_empty (property b "email")))) = true ->
  no_colon (toLowerCase (trim (String_or_empty (property b "email")))) = true ->
  no_nul (toLowerCase (trim (String_or_empty (property b "email")))) = true ->
  status (fst (login d b date_now)) = 200 ->
  exists token usr,
    fst (login d b date_now)
    = sendSuccess (Some (JObj [("token", JStr token); ("user", usr)])) 200
    /\ snd (login d b date_now) = d
    /\ fst (me d (Some ("Bearer " ++ token)%string))
       = sendSuccess (Some (JObj [("user", usr)])) 200.
Proof.
  intros Hreach Hseq Hvalid Hcolon Hnul.
  destruct (reachable_ok d Hreach) as [_ [Hnd [_ Hrange]]].
  unfold login.
  set (email := toLowerCase (trim (String_or_empty (property b "email")))) in *.
  set (password := trim (String_or_empty (property b "password"))).
  destruct (is_empty email || is_empty password) eqn:Hval; [discriminate|].
  unfold select_user_by_email.
  destruct (find (fun u => String.eqb (User.email u) email) (users d)) as [row|] eqn:Hfind;
    [|discriminate].
  apply find_some in Hfind. destruct Hfind as [Hin Hem]. apply String.eqb_eq in Hem.
  cbn [option_map user_password select_columns].
  destruct (String.eqb (column_text (User.password row)) password); [|discriminate].
  intros _.
  exists (createToken (select_columns true row) date_now), (mapUser (select_columns false row)).
  split; [reflexivity|]. split; [reflexivity|].
  destruct (Hrange row Hin) as [Hid [_ Hne]].
  assert (2 ^ 53 = 9007199254740992) by reflexivity.
  apply me_accepts_token; try assumption; try lia; now rewrite Hem.
Qed.

Lemma login_then_me_on_seed :
  exists token usr,
    fst (login (bootstrap 0 0 empty_db)
           [("email", Str "demo@sample.com"); ("password", Str "1234")] 9)
    = sendSuccess (Some (JObj [("token", JStr token); ("user", usr)])) 200
    /\ snd (login (bootstrap 0 0 empty_db)
              [("email", Str "demo@sample.com"); ("password", Str "1234")] 9)
       = bootstrap 0 0 empty_db
    /\ fst (me (bootstrap 0 0 empty_db) (Some ("Bearer " ++ token)%string))
       = sendSuccess (Some (JObj [("user", usr)])) 200.
Proof.
  apply (login_then_me (bootstrap 0 0 empty_db)
           [("email", Str "demo@sample.com"); ("password", Str "1234")] 9).
  - apply reachable_fresh.
  - reflexivity.
  - reflexivity.
  - reflexivity.
  - reflexivity.
  - reflexivity.
Defined.

(** ** What a request does to the store *)

Lemma get_post_store (d : db) (idParam : string) : snd (get_post d idParam) = d.
Proof.
  unfold get_post. destruct (negb _); [reflexivity|]. now destruct (select_post d _).
Qed.

Lemma login_store `{CaseMapping} (d : db) (b : body) (date_now : Z) : snd (login d b date_now) = d.
Proof.
  unfold login. destruct (_ || _); [reflexivity|].
  destruct (select_user_by_email true d _) as [u|]; [|reflexivity].
  destruct (user_password u); [|reflexivity]. now destruct (String.eqb _ _).
Qed.

Lemma me_store (d : db) (authorization : option string) : snd (me d authorization) = d.
Proof.
  unfold me. destruct (readBearerToken authorization) as [token|]; [|reflexivity].
  destruct (is_empty token); [reflexivity|].
  destruct (parseToken token) as [c|]; [|reflexivity].
  now destruct (select_user_by_id_and_email d _ _).
Qed.

Lemma create_post_store (d : db) (b : body) (now : Z) :
  (exists e, validatePostInput b = inl e /\ create_post d b now = (sendError e 422, d))
  \/ (exists title content,
        validatePostInput b = inr (title, content)
        /\ snd (create_post d b now) = snd (insert_post d title content now now)
        /\ fst (create_post d b now)
           = sendSuccess
               (Some (post_json
                        (read_post
                           {| Post.id := next_rowid (map Post.id (posts d)) (posts_seq d);
                              Post.title := title; Post.content := content;
                              Post.created_at := now; Post.updated_at := now |}))) 201).
Proof.
  unfold create_post. destruct (validatePostInput b) as [e|[title content]].
  - left. now exists e.
  - right. exists title, content. split; [reflexivity|].
    unfold insert_post, select_post. cbn [fst snd posts].
    rewrite (find_after_fresh _ (posts d)
               {| Post.id := next_rowid (map Post.id (posts d)) (posts_seq d);
                  Post.title := title; Post.content := content;
                  Post.created_at := now; Post.updated_at := now |}).
    + split; reflexivity.
    + intros p Hp. apply Z.eqb_neq.
      pose proof (next_rowid_above_rows (map Post.id (posts d)) (posts_seq d) (Post.id p)
                    (in_map Post.id _ _ Hp)). lia.
    + apply Z.eqb_refl.
Qed.

Lemma update_post_store (d : db) (idParam : string) (b : body) (now : Z) :
  let d' := snd (update_post_by_id d idParam b now) in
  map Post.id (posts d') = map Post.id (posts d)
  /\ posts_seq d' = posts_seq d /\ users d' = users d /\ users_seq d' = users_seq d.
Proof.
  unfold update_post_by_id. destruct (negb _); [now repeat split|].
  destruct (validatePostInput b) as [e|[title content]]; [now repeat split|].
  unfold update_post.
  assert (Hids : map Post.id
                   (map (fun p => if id_is (parseId idParam) (Post.id p)
                                  then {| Post.id := Post.id p; Post.title := title;
                                          Post.content := content;
                                          Post.created_at := Post.created_at p;
                                          Post.updated_at := now |}
                                  else p) (posts d))
                 = map Post.id (posts d)).
  { rewrite map_map. apply map_ext. intros p. now destruct (id_is _ _). }
  destruct (count_changes _ _ =? 0); cbn [fst snd posts posts_seq users users_seq];
    now repeat split.
Qed.

Lemma delete_post_store (d : db) (idParam : string) :
  let d' := snd (delete_post_by_id d idParam) in
  (forall p, In p (posts d') -> In p (posts d))
  /\ posts_seq d' = posts_seq d /\ users d' = users d /\ users_seq d' = users_seq d.
Proof.
  unfold delete_post_by_id. destruct (negb _); [now repeat split|].
  unfold delete_post.
  destruct (count_changes _ _ =? 0); cbn [fst snd posts posts_seq users users_seq];
    repeat split; intros p Hp; now apply filter_In in Hp.
Qed.

Lemma signup_store `{CaseMapping} (d : db) (b : body) (now date_now : Z) :
  let name := trim (String_or_empty (property b "name")) in
  let email := toLowerCase (trim (String_or_empty (property b "email"))) in
  let password := trim (String_or_empty (property b "password")) in
  ((name = EmptyString \/ email = EmptyString \/ password = EmptyString)
   /\ signup d b now date_now = (sendError "name, email, password are required." 422, d))
  \/ (name <> EmptyString /\ email <> EmptyString /\ password <> EmptyString
      /\ (exists u, In u (users d) /\ User.email u = email)
      /\ signup d b now date_now = (sendError "This email is already registered." 409, d))
  \/ (name <> EmptyString /\ email <> EmptyString /\ password <> EmptyString
      /\ (forall u, In u (users d) -> User.email u <> email)
      /\ snd (signup d b now date_now)
         = {| posts := posts d; posts_seq := posts_seq d;
              users := users d ++ [{| User.id := next_rowid (map User.id (users d)) (users_seq d);
                                      User.name := name; User.email := email;
                                      User.password := password;
                                      User.created_at := now; User.updated_at := now |}];
              users_seq := next_rowid (map User.id (users d)) (users_seq d) |}
      /\ fst (signup d b now date_now)
         = let u := {| user_id := next_rowid (map User.id (users d)) (users_seq d);
                       user_name := column_text name; user_email := column_text email;
                       user_password := None; user_createdAt := now |} in
           sendSuccess (Some (JObj [("token", JStr (createToken u date_now));
                                    ("user", mapUser u)])) 201).
Proof.
  intros name email password. unfold signup. fold name. fold email. fold password.
  destruct (is_empty name) eqn:Hn.
  { left. apply is_empty_true in Hn. auto. }
  destruct (is_empty email) eqn:He.
  { left. apply is_empty_true in He. auto. }
  destruct (is_empty password) eqn:Hp.
  { left. apply is_empty_true in Hp. auto. }
  cbn [orb]. apply is_empty_false in Hn, He, Hp. right.
  unfold select_user_by_email.
  destruct (find (fun u => String.eqb (User.email u) email) (users d)) as [u|] eqn:Hfind.
  { left. apply find_some in Hfind. destruct Hfind as [Hu Hem]. apply String.eqb_eq in Hem.
    cbn [option_map]. repeat (split; [assumption|]). split; [now exists u|reflexivity]. }
  right. cbn [option_map].
  assert (Hfree : forall u, In u (users d) -> User.email u <> email).
  { intros u Hu. apply (find_none _ _ Hfind) in Hu. now apply String.eqb_neq. }
  unfold signup_insert, insert_user.
  assert (Hex : existsb (fun u => String.eqb (User.email u) email) (users d) = false).
  { destruct (existsb _ (users d)) eqn:Hex; [|reflexivity].
    apply existsb_exists in Hex. destruct Hex as [u [Hu Hem]].
    apply String.eqb_eq in Hem. now elim (Hfree u Hu). }
  rewrite Hex.
  split; [exact Hn|]. split; [exact He|]. split; [exact Hp|]. split; [exact Hfree|].
  set (rowid := next_rowid (map User.id (users d)) (users_seq d)).
  set (row := {| User.id := rowid; User.name := name; User.email := email;
                 User.password := password;
                 User.created_at := now; User.updated_at := now |}).
  assert (Hsel : select_user_by_id
                   {| posts := posts d; posts_seq := posts_seq d;
                      users := users d ++ [row]; users_seq := rowid |} (Int rowid)
                 = Some (select_columns false row)).
  { unfold select_user_by_id. cbn [users].
    rewrite (find_after_fresh _ _ row); [reflexivity| |apply Z.eqb_refl].
    intros v Hv. apply Z.eqb_neq.
    pose proof (next_rowid_above_rows (map User.id (users d)) (users_seq d) (User.id v)
                  (in_map User.id _ _ Hv)) as Hlt.
    fold rowid in Hlt. lia. }
  rewrite Hsel. split; reflexivity.
Qed.

(** ** Keys are not given twice *)

(** In a store the server can reach no key is above the counter of its
    table; a request never lowers a counter, and a row that was not in
    the table before the request, post or user, has a key above the
    counter: a key that was given once, deleted since or not, is not given
    again. *)
Theorem keys_never_reused `{CaseMapping} (d : db) (r : request) :
  reachable d ->
  (forall p, In p (posts d) -> Post.id p <= posts_seq d)
  /\ (forall u, In u (users d) -> User.id u <= users_seq d)
  /\ posts_seq d <= posts_seq (snd (handle d r))
  /\ (forall p, In p (posts (snd (handle d r))) ->
        In (Post.id p) (map Post.id (posts d)) \/ posts_seq d < Post.id p)
  /\ users_seq d <= users_seq (snd (handle d r))
  /\ (forall u, In u (users (snd (handle d r))) ->
        In (User.id u) (map User.id (users d)) \/ users_seq d < User.id u).
Proof.
  intros Hreach. destruct (reachable_ok d Hreach) as [[_ Hp] [_ [_ Hu]]].
  split; [intros p Hin; apply Hp in Hin; lia|].
  split; [intros u Hin; apply Hu in Hin; lia|].
  assert (Hsame : forall d', d' = d ->
            posts_seq d <= posts_seq d'
            /\ (forall p, In p (posts d') ->
                  In (Post.id p) (map Post.id (posts d)) \/ posts_seq d < Post.id p)
            /\ users_seq d <= users_seq d'
            /\ (forall u, In u (users d') ->
                  In (User.id u) (map User.id (users d)) \/ users_seq d < User.id u)).
  { intros d' ->. split; [lia|]. split; [intros p Hin; left; now apply in_map|].
    split; [lia|]. intros u Hin. left. now apply in_map. }
  destruct r as [|id|b now|id b now|id|b now date_now|b date_now|authorization]; cbn [handle].
  - now apply Hsame.
  - apply Hsame, get_post_store.
  - destruct (create_post_store d b now) as [[e [_ Hc]]|[title [content [_ [Hc _]]]]].
    + apply Hsame. now rewrite Hc.
    + rewrite Hc. unfold insert_post. cbn [snd posts posts_seq users users_seq].
      pose proof (next_rowid_above_seq (map Post.id (posts d)) (posts_seq d)) as Hnext.
      split; [lia|]. split.
      * intros p Hin. apply in_app_or in Hin. destruct Hin as [Hin|[<-|[]]].
        -- left. now apply in_map.
        -- right. exact Hnext.
      * split; [lia|]. intros u Hin. left. now apply in_map.
  - destruct (update_post_store d id b now) as [Hids [Hseq [Hus Huseq]]].
    rewrite Hseq, Hus, Huseq. split; [lia|]. split.
    + intros p Hin. left. rewrite <- Hids. now apply in_map.
    + split; [lia|]. intros u Hin. left. now apply in_map.
  - destruct (delete_post_store d id) as [Hsub [Hseq [Hus Huseq]]].
    rewrite Hseq, Hus, Huseq. split; [lia|]. split.
    + intros p Hin. left. now apply in_map, Hsub.
    + split; [lia|]. intros u Hin. left. now apply in_map.
  - destruct (signup_store d b now date_now)
      as [[_ Hs]|[[_ [_ [_ [_ Hs]]]]|[_ [_ [_ [_ [Hs _]]]]]]].
    + apply Hsame. now rewrite Hs.
    + apply Hsame. now rewrite Hs.
    + rewrite Hs. cbn [posts posts_seq users users_seq].
      pose proof (next_rowid_above_seq (map User.id (users d)) (users_seq d)) as Hnext.
      split; [lia|]. split; [intros p Hin; left; now apply in_map|].
      split; [lia|]. intros u Hin. apply in_app_or in Hin. destruct Hin as [Hin|[<-|[]]].
      * left. now apply in_map.
      * right. exact Hnext.
  - apply Hsame, login_store.
  - apply Hsame, me_store.
Qed.

Lemma keys_never_reused_on_seed :
  let d := bootstrap 0 0 empty_db in
  let d1 := snd (handle d (DELETE_post "3")) in
  let d2 := snd (handle d1 (POST_posts [("title", Str "t"); ("content", Str "c")] 9)) in
  map Post.id (posts d1) = [1; 2] /\ map Post.id (posts d2) = [1; 2; 4]
  /\ forall p, In p (posts d2) -> In (Post.id p) (map Post.id (posts d1)) \/ 3 < Post.id p.
Proof.
  intros d d1 d2. split; [reflexivity|]. split; [reflexivity|].
  assert (Hreach : reachable d1) by (apply reachable_request, reachable_fresh).
  exact (proj1 (proj2 (proj2 (proj2
           (keys_never_reused d1 (POST_posts [("title", Str "t"); ("content", Str "c")] 9)
              Hreach))))).
Defined.

(** ** Trimming twice *)

Section StripFacts.

Variable w1 : ascii -> bool.
Variable w2 : ascii -> ascii -> bool.
Variable w3 : ascii -> ascii -> ascii -> bool.

(** What [strip] leaves is the text without some prefix. *)
Lemma strip_suffix (s : string) : exists p, s = (p ++ strip w1 w2 w3 s)%string.
Proof.
  assert (H : forall n s, (String.length s <= n)%nat ->
                exists p, s = (p ++ strip w1 w2 w3 s)%string).
  { clear s. induction n as [|n IH]; intros s Hn.
    - destruct s; [|simpl in Hn; lia]. now exists EmptyString.
    - destruct s as [|a r1]; [now exists EmptyString|].
      cbn [strip]. destruct (w1 a).
      + destruct (IH r1) as [p Hp]; [simpl in Hn; lia|].
        exists (String a p). simpl. now rewrite <- Hp.
      + destruct r1 as [|b r2]; [now exists EmptyString|].
        destruct (w2 a b).
        * destruct (IH r2) as [p Hp]; [simpl in Hn; lia|].
          exists (String a (String b p)). simpl. now rewrite <- Hp.
        * destruct r2 as [|c r3]; [now exists EmptyString|].
          destruct (w3 a b c); [|now exists EmptyString].
          destruct (IH r3) as [p Hp]; [simpl in Hn; lia|].
          exists (String a (String b (String c p))). simpl. now rewrite <- Hp. }
  exact (H (String.length s) s (le_n _)).
Qed.

(** What [strip] leaves does not begin with white space. *)
Lemma strip_idempotent (s : string) :
  strip w1 w2 w3 (strip w1 w2 w3 s) = strip w1 w2 w3 s.
Proof.
  assert (H : forall n s, (String.length s <= n)%nat ->
                strip w1 w2 w3 (strip w1 w2 w3 s) = strip w1 w2 w3 s).
  { clear s. induction n as [|n IH]; intros s Hn.
    - destruct s; [reflexivity|simpl in Hn; lia].
    - destruct s as [|a r1]; [reflexivity|].
      cbn [strip]. destruct (w1 a) eqn:E1.
      + apply IH. simpl in Hn. lia.
      + destruct r1 as [|b r2]; [cbn [strip]; now rewrite E1|].
        destruct (w2 a b) eqn:E2.
        * apply IH. simpl in Hn. lia.
        * destruct r2 as [|c r3]; [cbn [strip]; now rewrite E1, E2|].
          destruct (w3 a b c) eqn:E3.
          -- apply IH. simpl in Hn. lia.
          -- cbn [strip]. now rewrite E1, E2, E3. }
  exact (H (String.length s) s (le_n _)).
Qed.

Lemma length_append (s t : string) :
  String.length (s ++ t) = (String.length s + String.length t)%nat.
Proof.
  induction s as [|c s IH]; simpl; [reflexivity|now rewrite IH].
Qed.

Lemma strip_shorter (s : string) :
  (String.length (strip w1 w2 w3 s) <= String.length s)%nat.
Proof.
  destruct (strip_suffix s) as [p Hp].
  rewrite Hp at 2. rewrite length_append. lia.
Qed.

(** A text that does not begin with white space has no prefix that does. *)
Lemma strip_prefix_fixed (t u : string) :
  strip w1 w2 w3 (t ++ u) = (t ++ u)%string -> strip w1 w2 w3 t = t.
Proof.
  destruct t as [|a t1]; [reflexivity|].
  cbn [append strip]. destruct (w1 a).
  { intros H. pose proof (strip_shorter (t1 ++ u)) as L. rewrite H in L. simpl in L. lia. }
  destruct t1 as [|b t2]; [reflexivity|].
  cbn [append]. destruct (w2 a b).
  { intros H. pose proof (strip_shorter (t2 ++ u)) as L. rewrite H in L. simpl in L. lia. }
  destruct t2 as [|c t3]; [reflexivity|].
  cbn [append]. destruct (w3 a b c); [|reflexivity].
  intros H. pose proof (strip_shorter (t3 ++ u)) as L. rewrite H in L. simpl in L. lia.
Qed.

End StripFacts.

Lemma reverse_onto_append (s acc : string) :
  reverse_onto s acc = (reverse s ++ acc)%string.
Proof.
  unfold reverse. revert acc. induction s as [|c s IH]; intros acc; simpl; [reflexivity|].
  rewrite IH, (IH (String c EmptyString)), append_assoc. reflexivity.
Qed.

Lemma reverse_append (s t : string) : reverse (s ++ t) = (reverse t ++ reverse s)%string.
Proof.
  induction s as [|c s IH]; simpl.
  - now rewrite append_empty.
  - unfold reverse at 1 3. simpl. rewrite !reverse_onto_append, IH, append_assoc. reflexivity.
Qed.

(** [trim] changes nothing of what it returns. *)
Lemma trim_idempotent (s : string) : trim (trim s) = trim s.
Proof.
  unfold trim.
  set (s1 := trimStart s).
  assert (H1 : trimStart s1 = s1) by apply strip_idempotent.
  assert (Hstart : trimStart (trimEnd s1) = trimEnd s1).
  { unfold trimEnd.
    destruct (strip_suffix ws1 (fun a b => ws2 b a) (fun a b c => ws3 c b a) (reverse s1))
      as [p Hp].
    apply (strip_prefix_fixed ws1 ws2 ws3 _ (reverse p)).
    rewrite <- reverse_append, <- Hp, reverse_involutive. exact H1. }
  rewrite Hstart. unfold trimEnd at 1 2.
  rewrite reverse_involutive, strip_idempotent. reflexivity.
Qed.


(** ** What is stored was validated *)

Lemma trim_trimmed (s : string) : trim s <> EmptyString -> trimmed (trim s).
Proof.
  intros H. split; [exact H|apply trim_idempotent].
Qed.

Lemma insert_post_text_ok (d : db) (title content : string) (t1 t2 : Z) :
  trimmed title -> trimmed content ->
  (forall p, In p (posts d) -> trimmed (Post.title p) /\ trimmed (Post.content p)) ->
  forall p, In p (posts (snd (insert_post d title content t1 t2))) ->
    trimmed (Post.title p) /\ trimmed (Post.content p).
Proof.
  intros Ht Hc Hd p Hin. unfold insert_post in Hin. cbn [snd posts] in Hin.
  apply in_app_or in Hin. destruct Hin as [Hin|[<-|[]]]; [now apply Hd|].
  now split.
Qed.

Lemma bootstrap_text_ok (t1 t2 : Z) (d : db) :
  (forall p, In p (posts d) -> trimmed (Post.title p) /\ trimmed (Post.content p)) ->
  (forall u, In u (users d) -> trimmed (User.name u) /\ trimmed (User.password u)) ->
  text_ok (bootstrap t1 t2 d).
Proof.
  intros Hp Hu. unfold bootstrap.
  assert (Hposts : forall p, In p (posts (seed_posts t1 d)) ->
            trimmed (Post.title p) /\ trimmed (Post.content p)).
  { unfold seed_posts. destruct (posts d) eqn:E; [|now rewrite E].
    repeat apply insert_post_text_ok;
      try (split; [discriminate|vm_compute; reflexivity]).
    rewrite E. intros p []. }
  assert (Husers : users (seed_posts t1 d) = users d).
  { unfold seed_posts. now destruct (posts d). }
  rewrite <- Husers in Hu.
  set (d1 := seed_posts t1 d) in *. clearbody d1. clear Husers.
  unfold seed_users. destruct (users d1) as [|u0 us] eqn:E.
  - unfold insert_user. rewrite E. cbn [existsb]. cbn [posts users].
    split; [exact Hposts|]. split; [|discriminate].
    intros u [<-|[]]. split; (split; [discriminate|vm_compute; reflexivity]).
  - split; [exact Hposts|]. split; [now rewrite E|].
    rewrite E. discriminate.
Qed.

(** In every store the server can reach: the post keys are distinct,
    positive and not above the counter of the table, and likewise the user
    keys; no two users have the same email; every title, content, name
    and password is a text as [trim] returns it (trimming it again changes
    nothing) and is not empty; every email is not empty and in lower
    case; and there is at least one user. *)
Theorem reachable_store_well_formed `{CaseMapping} (d : db) :
  reachable d ->
  NoDup (map Post.id (posts d))
  /\ NoDup (map User.id (users d))
  /\ NoDup (map User.email (users d))
  /\ (forall p, In p (posts d) ->
        0 < Post.id p <= posts_seq d
        /\ trimmed (Post.title p) /\ trimmed (Post.content p))
  /\ (forall u, In u (users d) ->
        0 < User.id u <= users_seq d
        /\ trimmed (User.name u) /\ trimmed (User.password u)
        /\ User.email u <> EmptyString
        /\ toLowerCase (User.email u) = User.email u)
  /\ users d <> [].
Proof.
  intros Hreach.
  assert (Htext : text_ok d).
  { induction Hreach as [t1 t2|t1 t2 d Hd IH|d r Hd IH].
    - apply bootstrap_text_ok; intros x [].
    - destruct IH as [Hp [Hu _]]. now apply bootstrap_text_ok.
    - destruct IH as [Hp [Hu Hne]].
      destruct r as [|id|b now|id b now|id|b now date_now|b date_now|authorization];
        cbn [handle].
      + now split.
      + rewrite get_post_store. now split.
      + destruct (create_post_store d b now) as [[e [_ Hc]]|[title [content [Hv [Hc _]]]]].
        * rewrite Hc. now split.
        * rewrite Hc.
          destruct (validatePostInput_ok b title content Hv) as [Et [Ec [Ht Hco]]].
          split; [|unfold insert_post; cbn [snd users]; now split].
          apply insert_post_text_ok; [| |exact Hp].
          -- rewrite Et in *. now apply trim_trimmed.
          -- rewrite Ec in *. now apply trim_trimmed.
      + unfold update_post_by_id. destruct (negb _); [now split|].
        destruct (validatePostInput b) as [e|[title content]] eqn:Hv; [now split|].
        destruct (validatePostInput_ok b title content Hv) as [Et [Ec [Ht Hco]]].
        assert (Htt : trimmed title) by (rewrite Et in *; now apply trim_trimmed).
        assert (Htc : trimmed content) by (rewrite Ec in *; now apply trim_trimmed).
        assert (Hnew : text_ok (snd (update_post d title content now (parseId id)))).
        { unfold update_post. cbn [snd]. split; [|now split].
          cbn [posts]. intros p Hin. apply in_map_iff in Hin. destruct Hin as [q [<- Hq]].
          destruct (id_is (parseId id) (Post.id q)); [now split|now apply Hp]. }
        destruct (update_post d title content now (parseId id)) as [changes d'].
        now destruct (changes =? 0).
      + destruct (delete_post_store d id) as [Hsub [_ [Hus _]]].
        split; [intros p Hin; now apply Hp, Hsub|]. now rewrite Hus.
      + destruct (signup_store d b now date_now)
          as [[_ Hs]|[[_ [_ [_ [_ Hs]]]]|[Hn [_ [Hpw [_ [Hs _]]]]]]].
        * rewrite Hs. now split.
        * rewrite Hs. now split.
        * rewrite Hs. cbn [posts users]. split; [exact Hp|]. split.
          -- intros u Hin. apply in_app_or in Hin. destruct Hin as [Hin|[<-|[]]];
               [now apply Hu|].
             cbn [User.name User.password]. split; now apply trim_trimmed.
          -- intros Happ. now apply app_eq_nil in Happ.
      + rewrite login_store. now split.
      + rewrite me_store. now split. }
  destruct (reachable_ok d Hreach) as [[Hpid Hprange] [Huid [Hem Hurange]]].
  destruct Htext as [Hp [Hu Hne]].
  split; [exact Hpid|]. split; [exact Huid|]. split; [exact Hem|]. split.
  { intros p Hin. destruct (Hp p Hin). now split; [apply Hprange|]. }
  split; [|exact Hne].
  intros u Hin. destruct (Hu u Hin) as [Hn Hpw]. destruct (Hurange u Hin) as [Hid [Hlow Hnemp]].
  auto.
Qed.

Lemma reachable_store_well_formed_on_seed :
  let d := snd (handle (bootstrap 0 0 empty_db)
                  (POST_signup [("name", Str "  Ann "); ("email", Str "Ann@X.com");
                                ("password", Str "pw")] 5 6)) in
  map User.email (users d) = ["demo@sample.com"; "ann@x.com"]
  /\ map User.name (users d) = ["Demo User"; "Ann"]
  /\ NoDup (map User.email (users d)).
Proof.
  intros d. split; [reflexivity|]. split; [reflexivity|].
  assert (Hreach : reachable d) by (apply reachable_request, reachable_fresh).
  exact (proj1 (proj2 (proj2 (reachable_store_well_formed d Hreach)))).
Defined.

(** ** Start-up *)

Lemma seed_posts_effect (t : Z) (d : db) :
  posts (seed_posts t d) <> [] /\ users (seed_posts t d) = users d
  /\ users_seq (seed_posts t d) = users_seq d
  /\ (posts d <> [] -> seed_posts t d = d).
Proof.
  unfold seed_posts. destruct (posts d) as [|p l] eqn:E.
  - unfold insert_post. cbn [snd posts posts_seq users users_seq]. rewrite E.
    repeat split; try congruence. discriminate.
  - rewrite E. repeat split; auto. discriminate.
Qed.

Lemma seed_users_effect (t : Z) (d : db) :
  users (seed_users t d) <> [] /\ posts (seed_users t d) = posts d
  /\ posts_seq (seed_users t d) = posts_seq d
  /\ (users d <> [] -> seed_users t d = d).
Proof.
  unfold seed_users. destruct (users d) as [|u l] eqn:E.
  - unfold insert_user. rewrite E. cbn [existsb posts posts_seq users].
    repeat split; try congruence. discriminate.
  - rewrite E. repeat split; auto. discriminate.
Qed.

(** Start-up seeds a table only when it is empty: it leaves a table with
    a row in it as it is, whatever is in the other table, it leaves both
    tables with a row in them, and so a restart changes nothing, whatever
    the clock reads. *)
Theorem bootstrap_seeds_once (t1 t2 t3 t4 : Z) (d : db) :
  (posts d <> [] -> posts (bootstrap t1 t2 d) = posts d
                    /\ posts_seq (bootstrap t1 t2 d) = posts_seq d)
  /\ (users d <> [] -> users (bootstrap t1 t2 d) = users d
                       /\ users_seq (bootstrap t1 t2 d) = users_seq d)
  /\ posts (bootstrap t1 t2 d) <> []
  /\ users (bootstrap t1 t2 d) <> []
  /\ bootstrap t3 t4 (bootstrap t1 t2 d) = bootstrap t1 t2 d.
Proof.
  unfold bootstrap.
  destruct (seed_posts_effect t1 d) as [Hp1 [Hp2 [Hp3 Hp4]]].
  destruct (seed_users_effect t2 (seed_posts t1 d)) as [Hu1 [Hu2 [Hu3 Hu4]]].
  split.
  { intros Hne. rewrite Hu2, Hu3, Hp4 by exact Hne. now split. }
  split.
  { intros Hne. rewrite Hu4 by now rewrite Hp2. now split. }
  split; [now rewrite Hu2|]. split; [exact Hu1|].
  set (d' := seed_users t2 (seed_posts t1 d)) in *.
  destruct (seed_posts_effect t3 d') as [_ [Hq2 [_ Hq4]]].
  rewrite Hq4 by now rewrite Hu2.
  destruct (seed_users_effect t4 d') as [_ [_ [_ Hv4]]].
  now apply Hv4.
Qed.

(** ** Logging in *)





(** ** Signing up, then logging in *)



(** ** Writing a post, then reading *)

Lemma find_map_other (z z' : Z) (upd : Post.row -> Post.row) (l : list Post.row) :
  z' <> z ->
  (forall p, Post.id (upd p) = Post.id p) ->
  (forall p, Post.id p <> z -> upd p = p) ->
  find (fun p => z' =? Post.id p) (map upd l) = find (fun p => z' =? Post.id p) l.
Proof.
  intros Hne Hid Hother. induction l as [|a l IH]; [reflexivity|].
  cbn [map find]. rewrite Hid.
  destruct (z' =? Post.id a) eqn:E; [|exact IH].
  apply Z.eqb_eq in E. rewrite Hother by lia. reflexivity.
Qed.

Lemma find_filter_other (z z' : Z) (l : list Post.row) :
  z' <> z ->
  find (fun p => z' =? Post.id p) (filter (fun p => negb (z =? Post.id p)) l)
  = find (fun p => z' =? Post.id p) l.
Proof.
  intros Hne. induction l as [|a l IH]; [reflexivity|].
  cbn [filter find].
  destruct (z =? Post.id a) eqn:Ez; cbn [negb].
  - apply Z.eqb_eq in Ez. replace (z' =? Post.id a) with false; [exact IH|].
    symmetry. apply Z.eqb_neq. lia.
  - cbn [find]. destruct (z' =? Post.id a); [reflexivity|exact IH].
Qed.

Lemma find_app_found {A : Type} (hit : A -> bool) (l k : list A) (x : A) :
  find hit l = Some x -> find hit (l ++ k) = Some x.
Proof.
  induction l as [|a l IH]; simpl; [discriminate|].
  destruct (hit a); [auto|exact IH].
Qed.

(** After a successful update, reading the post under the same path
    parameter answers 200 with the very row the update answered with;
    after a successful delete it answers 404. *)
Theorem write_post_then_get (d : db) (idParam : string) (b : body) (now : Z) :
  (status (fst (update_post_by_id d idParam b now)) = 200 ->
   exists row,
     fst (update_post_by_id d idParam b now) = sendSuccess (Some (post_json row)) 200
     /\ get_post (snd (update_post_by_id d idParam b now)) idParam
        = (sendSuccess (Some (post_json row)) 200, snd (update_post_by_id d idParam b now)))
  /\ (status (fst (delete_post_by_id d idParam)) = 200 ->
      get_post (snd (delete_post_by_id d idParam)) idParam
      = (sendError "Post not found." 404, snd (delete_post_by_id d idParam))).
Proof.
  split.
  - unfold update_post_by_id, get_post.
    destruct (parseId idParam) as [| neg | z | m e] eqn:Hid; cbn [Number_isInteger negb];
      try discriminate.
    destruct (validatePostInput b) as [err|[title content]]; [discriminate|].
    destruct (update_post d title content now (Int z)) as [changes d'] eqn:Hupd.
    destruct (changes =? 0) eqn:Hch; [discriminate|].
    cbn [fst snd]. intros _.
    assert (Hex : exists p, In p (posts d') /\ Post.id p = z).
    { unfold update_post in Hupd. injection Hupd as Hc Hd'.
      apply Z.eqb_neq in Hch. rewrite <- Hc in Hch.
      apply count_changes_hit in Hch. destruct Hch as [p [Hp Hz]].
      apply id_is_Int in Hz. rewrite <- Hd'. cbn [posts].
      eexists. split; [apply in_map; exact Hp|].
      cbn [id_is]. rewrite Hz, Z.eqb_refl. reflexivity. }
    destruct (select_post_present d' z Hex) as [row [Hsel _]].
    exists (read_post row). rewrite Hsel. split; reflexivity.
  - unfold delete_post_by_id, get_post.
    destruct (parseId idParam) as [| neg | z | m e] eqn:Hid; cbn [Number_isInteger negb];
      try discriminate.
    unfold delete_post.
    destruct (count_changes _ _ =? 0); [discriminate|].
    cbn [fst snd]. intros _.
    rewrite select_post_absent; [reflexivity|].
    cbn [posts]. intros p Hp. apply filter_In in Hp. destruct Hp as [_ Hp].
    apply negb_true_iff in Hp. cbn [id_is] in Hp. apply Z.eqb_neq in Hp. congruence.
Qed.

Lemma write_post_then_get_on_seed :
  let d := bootstrap 0 0 empty_db in
  status (fst (get_post (snd (update_post_by_id d "2" [("title", Str "t"); ("content", Str "c")] 8))
                 "2")) = 200
  /\ status (fst (get_post (snd (delete_post_by_id d "2")) "2")) = 404.
Proof.
  intros d.
  destruct (write_post_then_get d "2" [("title", Str "t"); ("content", Str "c")] 8) as [Hu Hd].
  destruct (Hu eq_refl) as [row [_ Hget]].
  split; [now rewrite Hget|]. now rewrite (Hd eq_refl).
Defined.

(** A write to one post leaves the reading of every other post as it
    was: after an update or a delete of the post whose id the path
    parameter reads as, and after a create, [GET /api/posts/:id] answers
    as before for every parameter that reads as another id (after a
    create: for every parameter that was answered 200 before). *)
Theorem other_posts_read_the_same (d : db) (idParam other : string) (b : body) (now : Z) :
  (parseId other <> parseId idParam ->
   fst (get_post (snd (update_post_by_id d idParam b now)) other) = fst (get_post d other)
   /\ fst (get_post (snd (delete_post_by_id d idParam)) other) = fst (get_post d other))
  /\ (status (fst (get_post d other)) = 200 ->
      fst (get_post (snd (create_post d b now)) other) = fst (get_post d other)).
Proof.
  split.
  - intros Hne. unfold get_post at 1 3.
    destruct (parseId other) as [| neg | z' | m' e'] eqn:Ho; cbn [Number_isInteger negb];
      try (split; unfold get_post; rewrite Ho; reflexivity).
    assert (Hget : fst (get_post d other)
                   = fst (match select_post d (Int z') with
                          | Some post => (sendSuccess (Some (post_json post)) 200, d)
                          | None => (sendError "Post not found." 404, d)
                          end)).
    { unfold get_post. now rewrite Ho. }
    rewrite Hget.
    assert (Hsame : forall d', select_post d' (Int z') = select_post d (Int z') ->
              fst (match select_post d' (Int z') with
                   | Some post => (sendSuccess (Some (post_json post)) 200, d')
                   | None => (sendError "Post not found." 404, d')
                   end)
              = fst (match select_post d (Int z') with
                     | Some post => (sendSuccess (Some (post_json post)) 200, d)
                     | None => (sendError "Post not found." 404, d)
                     end)).
    { intros d' ->. now destruct (select_post d (Int z')). }
    split; apply Hsame.
    + unfold update_post_by_id.
      destruct (parseId idParam) as [| neg | z | m e] eqn:Hid; cbn [Number_isInteger negb];
        try reflexivity.
      destruct (validatePostInput b) as [err|[title content]]; [reflexivity|].
      assert (Hsel : select_post (snd (update_post d title content now (Int z))) (Int z')
                     = select_post d (Int z')).
      { unfold select_post, update_post. cbn [snd posts id_is]. f_equal.
        apply (find_map_other z z'); [congruence| |].
        - intros p. now destruct (z =? Post.id p).
        - intros p Hp. replace (z =? Post.id p) with false; [reflexivity|].
          symmetry. apply Z.eqb_neq. congruence. }
      destruct (update_post d title content now (Int z)) as [changes d'].
      now destruct (changes =? 0).
    + unfold delete_post_by_id.
      destruct (parseId idParam) as [| neg | z | m e] eqn:Hid; cbn [Number_isInteger negb];
        try reflexivity.
      assert (Hsel : select_post (snd (delete_post d (Int z))) (Int z') = select_post d (Int z')).
      { unfold select_post, delete_post. cbn [snd posts id_is]. f_equal.
        apply find_filter_other. congruence. }
      destruct (delete_post d (Int z)) as [changes d'].
      now destruct (changes =? 0).
  - unfold get_post at 1 3.
    destruct (negb (Number_isInteger (parseId other))) eqn:Hint; [discriminate|].
    destruct (select_post d (parseId other)) as [p|] eqn:Hsel; [|discriminate].
    intros _. unfold get_post. rewrite Hint.
    destruct (create_post_store d b now) as [[e [_ Hc]]|[title [content [_ [Hc _]]]]].
    + rewrite Hc. cbn [snd]. now rewrite Hsel.
    + rewrite Hc. unfold insert_post, select_post. cbn [snd posts].
      unfold select_post in Hsel.
      destruct (find (fun p0 => id_is (parseId other) (Post.id p0)) (posts d)) as [q|] eqn:Hq;
        [|discriminate].
      rewrite (find_app_found _ _ _ _ Hq). cbn [option_map] in *.
      injection Hsel as <-. reflexivity.
Qed.

(** ** The newest post comes first *)

Lemma insert_desc_below (row : Post.row) (l acc : list Post.row) :
  (forall p, In p l -> Post.id p < Post.id row) ->
  fold_right insert_desc (row :: acc) l = row :: fold_right insert_desc acc l.
Proof.
  induction l as [|a l IH]; intros Hl; [reflexivity|].
  cbn [fold_right]. rewrite IH by (intros p Hp; apply Hl; now right).
  cbn [insert_desc].
  replace (Post.id row <=? Post.id a) with false; [reflexivity|].
  symmetry. apply Z.leb_gt. apply Hl. now left.
Qed.

(** A post that has just been created heads the list: after a create
    that passes validation, [GET /api/posts] answers the created row
    followed by exactly what it answered before. *)
Theorem created_post_listed_first (d : db) (b : body) (now : Z) :
  status (fst (create_post d b now)) = 201 ->
  exists row rows,
    fst (create_post d b now) = sendSuccess (Some (post_json row)) 201
    /\ fst (list_posts d) = sendSuccess (Some (JArr (map post_json rows))) 200
    /\ fst (list_posts (snd (create_post d b now)))
       = sendSuccess (Some (JArr (map post_json (row :: rows)))) 200.
Proof.
  intros H201.
  destruct (create_post_store d b now) as [[e [_ Hc]]|[title [content [_ [Hs Hf]]]]].
  { rewrite Hc in H201. discriminate. }
  eexists. exists (select_posts_desc d). split; [exact Hf|]. split; [reflexivity|].
  unfold list_posts. cbn [fst]. rewrite Hs.
  unfold select_posts_desc, insert_post. cbn [snd posts].
  rewrite fold_right_app. cbn [fold_right insert_desc].
  rewrite insert_desc_below; [reflexivity|].
  intros p Hp. cbn [Post.id]. apply next_rowid_above_rows. now apply in_map.
Qed.

Lemma created_post_listed_first_on_seed :
  exists row rows,
    fst (create_post (bootstrap 0 0 empty_db) [("title", Str "t"); ("content", Str "c")] 9)
    = sendSuccess (Some (post_json row)) 201
    /\ fst (list_posts (bootstrap 0 0 empty_db))
       = sendSuccess (Some (JArr (map post_json rows))) 200
    /\ fst (list_posts (snd (create_post (bootstrap 0 0 empty_db)
                               [("title", Str "t"); ("content", Str "c")] 9)))
       = sendSuccess (Some (JArr (map post_json (row :: rows)))) 200.
Proof.
  apply (created_post_listed_first (bootstrap 0 0 empty_db)
           [("title", Str "t"); ("content", Str "c")] 9).
  reflexivity.
Defined.

(** ** Tokens do not expire *)

Lemma handle_users_grow `{CaseMapping} (d : db) (r : request) :
  exists added, users (snd (handle d r)) = users d ++ added.
Proof.
  destruct r as [|id|b now|id b now|id|b now date_now|b date_now|authorization]; cbn [handle].
  - exists []. now rewrite app_nil_r.
  - exists []. now rewrite get_post_store, app_nil_r.
  - exists []. rewrite app_nil_r.
    destruct (create_post_store d b now) as [[e [_ Hc]]|[title [content [_ [Hc _]]]]];
      rewrite Hc; reflexivity.
  - exists []. rewrite app_nil_r. now destruct (update_post_store d id b now) as [_ [_ [Hu _]]].
  - exists []. rewrite app_nil_r. now destruct (delete_post_store d id) as [_ [_ [Hu _]]].
  - destruct (signup_store d b now date_now)
      as [[_ Hs]|[[_ [_ [_ [_ Hs]]]]|[_ [_ [_ [_ [Hs _]]]]]]]; rewrite Hs.
    + exists []. now rewrite app_nil_r.
    + exists []. now rewrite app_nil_r.
    + eexists. reflexivity.
  - exists []. now rewrite login_store, app_nil_r.
  - exists []. now rewrite me_store, app_nil_r.
Qed.

Lemma me_users_grow (d d' : db) (added : list User.row) (authorization : option string) :
  users d' = users d ++ added ->
  status (fst (me d authorization)) = 200 ->
  fst (me d' authorization) = fst (me d authorization).
Proof.
  intros Hu. unfold me.
  destruct (readBearerToken authorization) as [token|]; [|reflexivity].
  destruct (is_empty token); [reflexivity|].
  destruct (parseToken token) as [c|]; [|reflexivity].
  unfold select_user_by_id_and_email. rewrite Hu.
  destruct (find _ (users d)) as [u|] eqn:Hfind; [|discriminate].
  intros _. now rewrite (find_app_found _ _ _ _ Hfind).
Qed.

(** A token carries no expiry and cannot be revoked: user rows are never
    changed or removed, so an Authorization header that [/api/auth/me]
    answers with 200 gets the same answer after any sequence of requests
    and after a restart, whatever the clock reads. *)
Theorem token_accepted_for_good `{CaseMapping}
    (d : db) (authorization : option string) (requests : list request) (t1 t2 : Z) :
  status (fst (me d authorization)) = 200 ->
  (exists added, users (run d requests) = users d ++ added)
  /\ fst (me (run d requests) authorization) = fst (me d authorization)
  /\ users (bootstrap t1 t2 (run d requests)) = users (run d requests)
  /\ fst (me (bootstrap t1 t2 (run d requests)) authorization) = fst (me d authorization).
Proof.
  intros H200.
  assert (Hgrow : forall rs d0, exists added, users (run d0 rs) = users d0 ++ added).
  { induction rs as [|r rs IH]; intros d0.
    - exists []. now rewrite app_nil_r.
    - cbn [run fold_left]. destruct (IH (snd (handle d0 r))) as [a2 H2].
      destruct (handle_users_grow d0 r) as [a1 H1].
      exists (a1 ++ a2). unfold run in H2. rewrite H2, H1. now rewrite app_assoc. }
  destruct (Hgrow requests d) as [added Hadded].
  assert (Hme : fst (me (run d requests) authorization) = fst (me d authorization))
    by (now apply (me_users_grow d _ added)).
  assert (Hne : users (run d requests) <> []).
  { rewrite Hadded. intros Happ. apply app_eq_nil in Happ. destruct Happ as [Hnil _].
    revert H200. unfold me.
    destruct (readBearerToken authorization) as [token|]; [|discriminate].
    destruct (is_empty token); [discriminate|].
    destruct (parseToken token) as [c|]; [|discriminate].
    unfold select_user_by_id_and_email. rewrite Hnil. discriminate. }
  assert (Hboot : users (bootstrap t1 t2 (run d requests)) = users (run d requests)).
  { unfold bootstrap, seed_users.
    assert (Hsp : users (seed_posts t1 (run d requests)) = users (run d requests)).
    { unfold seed_posts. now destruct (posts (run d requests)). }
    destruct (users (seed_posts t1 (run d requests))) as [|u l] eqn:E; [congruence|].
    congruence. }
  split; [now exists added|]. split; [exact Hme|]. split; [exact Hboot|].
  rewrite <- Hme. apply (me_users_grow _ _ []).
  - now rewrite Hboot, app_nil_r.
  - now rewrite Hme.
Qed.

Lemma token_accepted_for_good_on_seed :
  let header := Some "Bearer MTpkZW1vQHNhbXBsZS5jb206MA" in
  let requests := [POST_signup [("name", Str "Ann"); ("email", Str "ann@x.com");
                                ("password", Str "pw")] 5 6;
                   DELETE_post "1"] in
  status (fst (me (bootstrap 0 0 empty_db) header)) = 200
  /\ fst (me (run (bootstrap 0 0 empty_db) requests) header)
     = fst (me (bootstrap 0 0 empty_db) header).
Proof.
  intros header requests.
  assert (H200 : status (fst (me (bootstrap 0 0 empty_db) header)) = 200) by reflexivity.
  split; [exact H200|].
  exact (proj1 (proj2 (token_accepted_for_good (bootstrap 0 0 empty_db) header requests 0 0 H200))).
Defined.

(** ** Answers *)

Lemma sendError_envelope (e : string) (code : Z) :
  code <> 200 -> code <> 201 -> envelope (sendError e code).
Proof.
  intros H1 H2. right. split; [exact H1|]. split; [exact H2|].
  destruct e as [|c e]; eexists; (split; [|reflexivity]); discriminate.
Qed.

Lemma sendSuccess_envelope (data : json) (code : Z) :
  code = 200 \/ code = 201 -> envelope (sendSuccess (Some data) code).
Proof.
  intros H. left. split; [exact H|]. now exists data.
Qed.

Lemma update_post_found (d d' : db) (title content : string) (now changes z : Z) :
  update_post d title content now (Int z) = (changes, d') ->
  changes <> 0 ->
  exists row, select_post d' (Int z) = Some row.
Proof.
  intros Hupd Hch. unfold update_post in Hupd. injection Hupd as Hc Hd'.
  rewrite <- Hc in Hch. apply count_changes_hit in Hch. destruct Hch as [p [Hp Hz]].
  apply id_is_Int in Hz.
  destruct (select_post_present d' z) as [row [Hsel _]]; [|now exists (read_post row)].
  rewrite <- Hd'. cbn [posts].
  eexists. split; [apply in_map; exact Hp|].
  cbn [id_is]. rewrite Hz, Z.eqb_refl. reflexivity.
Qed.

Ltac envelope_done :=
  cbn [fst statuses_of converting];
  first
    [ split; [cbn [status sendError sendSuccess In]; tauto
             |first [apply sendError_envelope; discriminate
                    |apply sendSuccess_envelope; tauto]] ].

Lemma handle_envelope `{CaseMapping} (d : db) (r : request) :
  In (status (fst (handle d r))) (statuses_of (converting r)) /\ envelope (fst (handle d r)).
Proof.
  destruct r as [|id|b now|id b now|id|b now date_now|b date_now|authorization]; cbn [handle].
  - unfold list_posts. envelope_done.
  - unfold get_post. destruct (negb _); [envelope_done|].
    destruct (select_post d _); envelope_done.
  - destruct (create_post_store d b now) as [[e [_ Hc]]|[title [content [_ [_ Hf]]]]].
    + rewrite Hc. envelope_done.
    + rewrite Hf. cbn [statuses_of converting].
      split; [cbn [status sendSuccess In]; tauto|apply sendSuccess_envelope; tauto].
  - unfold update_post_by_id.
    destruct (parseId id) as [| neg | z | m e] eqn:Hid; cbn [Number_isInteger negb];
      try envelope_done.
    destruct (validatePostInput b) as [err|[title content]]; [envelope_done|].
    destruct (update_post d title content now (Int z)) as [changes d'] eqn:Hupd.
    destruct (changes =? 0) eqn:Hch; [envelope_done|].
    apply Z.eqb_neq in Hch.
    destruct (update_post_found d d' title content now changes z Hupd Hch) as [row Hrow].
    rewrite Hrow. cbn [option_map]. envelope_done.
  - unfold delete_post_by_id. destruct (negb _); [envelope_done|].
    destruct (delete_post d (parseId id)) as [changes d'].
    destruct (changes =? 0); envelope_done.
  - destruct (signup_store d b now date_now)
      as [[_ Hs]|[[_ [_ [_ [_ Hs]]]]|[_ [_ [_ [_ [_ Hf]]]]]]].
    + rewrite Hs. envelope_done.
    + rewrite Hs. envelope_done.
    + rewrite Hf. cbv zeta. cbn [statuses_of converting].
      split; [cbn [status sendSuccess In]; tauto|apply sendSuccess_envelope; tauto].
  - unfold login. destruct (_ || _); [envelope_done|].
    destruct (select_user_by_email true d _) as [u|]; [|envelope_done].
    destruct (user_password u); [|envelope_done]. destruct (String.eqb _ _); envelope_done.
  - unfold me. destruct (readBearerToken authorization) as [token|]; [|envelope_done].
    destruct (is_empty token); [envelope_done|].
    destruct (parseToken token) as [c|]; [|envelope_done].
    destruct (select_user_by_id_and_email d _ _); envelope_done.
Qed.

Lemma converted_none (b : parsed_body) (keys : list string) :
  converted b keys = None <-> exists key, In key keys /\ parsed_property b key = No_primitive.
Proof.
  induction keys as [|k keys IH]; cbn [converted].
  - split; [discriminate|]. intros [key [[] _]].
  - destruct (parsed_property b k) as [v|] eqn:Ek.
    + destruct (converted b keys) as [b'|].
      * split; [discriminate|]. intros [key [[<-|Hin] Hno]]; [congruence|].
        assert (Hnone : Some b' = None) by (apply (proj2 IH); now exists key).
        discriminate Hnone.
      * split; [|reflexivity]. intros _.
        destruct (proj1 IH eq_refl) as [key [Hin Hno]]. exists key. split; [now right|exact Hno].
    + split; [|reflexivity]. intros _. exists k. split; [now left|exact Ek].
Qed.

Lemma converting_converted (b : body) (keys : list string) :
  exists b', converted (all_convert b) keys = Some b'
             /\ forall key, In key keys -> property b' key = property b key.
Proof.
  assert (Hprop : forall key, parsed_property (all_convert b) key = Converts (property b key)).
  { intros key. induction b as [|[k v] b IH]; [reflexivity|].
    cbn [all_convert map fst snd parsed_property property].
    destruct (String.eqb k key); [reflexivity|exact IH]. }
  induction keys as [|k keys IH]; cbn [converted].
  - exists []. split; [reflexivity|]. intros key [].
  - rewrite Hprop. destruct IH as [b' [-> Hb']].
    exists ((k, property b k) :: b'). split; [reflexivity|].
    intros key Hkey. cbn [property].
    destruct (String.eqb_spec k key) as [->|Hne]; [reflexivity|].
    destruct Hkey as [->|Hin]; [now elim Hne|now apply Hb'].
Qed.

Lemma serve_converting `{CaseMapping} (d : db) (r : request) :
  serve d (converting r) = answered (handle d r).
Proof.
  destruct r as [|id|b now|id b now|id|b now date_now|b date_now|authorization];
    cbn [serve converting handle]; try reflexivity.
  - destruct (converting_converted b ["title"; "content"]) as [b' [-> Hb']].
    f_equal. unfold create_post, validatePostInput.
    rewrite !Hb' by (cbn [In]; auto). reflexivity.
  - destruct (converting_converted b ["title"; "content"]) as [b' [-> Hb']].
    unfold update_post_by_id, validatePostInput.
    rewrite !Hb' by (cbn [In]; auto).
    now destruct (negb (Number_isInteger (parseId id))).
  - destruct (converting_converted b ["name"; "email"; "password"]) as [b' [-> Hb']].
    f_equal. unfold signup. rewrite !Hb' by (cbn [In]; auto). reflexivity.
  - destruct (converting_converted b ["email"; "password"]) as [b' [-> Hb']].
    f_equal. unfold login. rewrite !Hb' by (cbn [In]; auto). reflexivity.
Qed.

(** Every request either is answered in the envelope, with a status of
    its route, or makes its handler throw, and then the store is as it
    was.  In an answer success is flagged exactly by 200 and 201 and an
    error always has a text.  The handler throws exactly when [String]
    throws on a property it converts (the title or content of a post, the
    name, email or password of a signup, the email or password of a
    login), for [PUT] when moreover the id reads as an integer: Express
    then answers 500 with its own page.  No answer of a handler is a 500:
    the check before each statement leaves the statement nothing to throw
    (a duplicate email is always caught by the SELECT before the
    INSERT).  On a request all of whose properties convert, the outcome is
    the answer and the store of the handler on the converted body. *)
Theorem answers_are_envelopes `{CaseMapping} (d : db) (r : parsed_request) :
  match fst (serve d r) with
  | Answers a => In (status a) (statuses_of r) /\ envelope a
  | Uncaught => snd (serve d r) = d
  end
  /\ (fst (serve d r) = Uncaught <->
      (exists key, In key (snd (read_keys r))
                   /\ parsed_property (fst (read_keys r)) key = No_primitive)
      /\ forall id b now, r = Req_PUT_post id b now -> Number_isInteger (parseId id) = true)
  /\ (forall r0, r = converting r0 ->
        serve d r = (Answers (fst (handle d r0)), snd (handle d r0))).
Proof.
  assert (Hconverting : forall r0, r = converting r0 ->
            serve d r = (Answers (fst (handle d r0)), snd (handle d r0))).
  { intros r0 ->. apply serve_converting. }
  revert Hconverting. generalize (forall r0, r = converting r0 ->
            serve d r = (Answers (fst (handle d r0)), snd (handle d r0))).
  intros Pconv Hconverting.
  cut (match fst (serve d r) with
       | Answers a => In (status a) (statuses_of r) /\ envelope a
       | Uncaught => snd (serve d r) = d
       end
       /\ (fst (serve d r) = Uncaught <->
           (exists key, In key (snd (read_keys r))
                        /\ parsed_property (fst (read_keys r)) key = No_primitive)
           /\ forall id b now, r = Req_PUT_post id b now ->
                               Number_isInteger (parseId id) = true)).
  { intros [H1 H2]. split; [exact H1|]. split; [exact H2|exact Hconverting]. }
  clear Pconv Hconverting.
  assert (Hanswered : forall r0 : request,
            statuses_of (converting r0) = statuses_of r ->
            match fst (answered (handle d r0)) with
            | Answers a => In (status a) (statuses_of r) /\ envelope a
            | Uncaught => snd (answered (handle d r0)) = d
            end).
  { intros r0 Hst. cbn [answered fst]. rewrite <- Hst. apply handle_envelope. }
  assert (Hno : forall r0 : request,
            fst (answered (handle d r0)) = Uncaught <-> False).
  { intros r0. split; [discriminate|contradiction]. }
  destruct r as [|id|b now|id b now|id|b now date_now|b date_now|authorization];
    cbn [serve read_keys fst snd].
  - split; [exact (Hanswered GET_posts eq_refl)|].
    rewrite (Hno GET_posts). split; [contradiction|]. intros [[key [[] _]] _].
  - split; [exact (Hanswered (GET_post id) eq_refl)|].
    rewrite (Hno (GET_post id)). split; [contradiction|]. intros [[key [[] _]] _].
  - pose proof (converted_none b ["title"; "content"]) as Hnone.
    destruct (converted b ["title"; "content"]) as [b'|].
    + split; [exact (Hanswered (POST_posts b' now) eq_refl)|].
      rewrite (Hno (POST_posts b' now)). split; [contradiction|].
      intros [Hkey _]. apply (proj2 Hnone) in Hkey. discriminate.
    + cbn [fst snd]. split; [reflexivity|]. split; [|reflexivity].
      intros _. split; [now apply (proj1 Hnone)|]. intros; discriminate.
  - destruct (Number_isInteger (parseId id)) eqn:Hint; cbn [negb].
    + pose proof (converted_none b ["title"; "content"]) as Hnone.
      destruct (converted b ["title"; "content"]) as [b'|].
      * split; [exact (Hanswered (PUT_post id b' now) eq_refl)|].
        rewrite (Hno (PUT_post id b' now)). split; [contradiction|].
        intros [Hkey _]. apply (proj2 Hnone) in Hkey. discriminate.
      * cbn [fst snd]. split; [reflexivity|]. split; [|reflexivity].
        intros _. split; [now apply (proj1 Hnone)|].
        intros id' b0 now' Heq. injection Heq as <- _ _. exact Hint.
    + cbn [fst snd]. split.
      * split; [cbn [status sendError statuses_of In]; tauto
               |apply sendError_envelope; discriminate].
      * split; [discriminate|]. intros [_ Hput].
        specialize (Hput id b now eq_refl). congruence.
  - split; [exact (Hanswered (DELETE_post id) eq_refl)|].
    rewrite (Hno (DELETE_post id)). split; [contradiction|]. intros [[key [[] _]] _].
  - pose proof (converted_none b ["name"; "email"; "password"]) as Hnone.
    destruct (converted b ["name"; "email"; "password"]) as [b'|].
    + split; [exact (Hanswered (POST_signup b' now date_now) eq_refl)|].
      rewrite (Hno (POST_signup b' now date_now)). split; [contradiction|].
      intros [Hkey _]. apply (proj2 Hnone) in Hkey. discriminate.
    + cbn [fst snd]. split; [reflexivity|]. split; [|reflexivity].
      intros _. split; [now apply (proj1 Hnone)|]. intros; discriminate.
  - pose proof (converted_none b ["email"; "password"]) as Hnone.
    destruct (converted b ["email"; "password"]) as [b'|].
    + split; [exact (Hanswered (POST_login b' date_now) eq_refl)|].
      rewrite (Hno (POST_login b' date_now)). split; [contradiction|].
      intros [Hkey _]. apply (proj2 Hnone) in Hkey. discriminate.
    + cbn [fst snd]. split; [reflexivity|]. split; [|reflexivity].
      intros _. split; [now apply (proj1 Hnone)|]. intros; discriminate.
  - split; [exact (Hanswered (GET_me authorization) eq_refl)|].
    rewrite (Hno (GET_me authorization)). split; [contradiction|]. intros [[key [[] _]] _].
Qed.

Lemma answers_are_envelopes_on_seed :
  fst (serve (bootstrap 0 0 empty_db)
         (Req_POST_posts [("title", No_primitive); ("content", Converts (Str "c"))] 7))
  = Uncaught
  /\ fst (serve (bootstrap 0 0 empty_db)
            (Req_PUT_post "abc" [("title", No_primitive)] 7))
     = Answers (sendError "Invalid id." 422)
  /\ fst (serve (bootstrap 0 0 empty_db)
            (Req_POST_posts [("title", Converts (Other true "[object Object]"));
                             ("content", Converts (Str "c"))] 7))
     = Answers (sendSuccess
                  (Some (JObj [("id", JNum 4); ("title", JStr "[object Object]");
                               ("content", JStr "c");
                               ("createdAt", JDate 7); ("updatedAt", JDate 7)])) 201)
  /\ snd (serve (bootstrap 0 0 empty_db)
            (Req_POST_signup [("name", Converts (Str "Ann")); ("email", No_primitive)] 5 6))
     = bootstrap 0 0 empty_db.
Proof.
  split; [vm_compute; reflexivity|]. split; [vm_compute; reflexivity|].
  split; [vm_compute; reflexivity|].
  destruct (answers_are_envelopes (bootstrap 0 0 empty_db)
              (Req_POST_signup [("name", Converts (Str "Ann"));
                                ("email", No_primitive)] 5 6)) as [Hthrown _].
  assert (Hout : fst (serve (bootstrap 0 0 empty_db)
                        (Req_POST_signup [("name", Converts (Str "Ann"));
                                          ("email", No_primitive)] 5 6)) = Uncaught)
    by (vm_compute; reflexivity).
  rewrite Hout in Hthrown. exact Hthrown.
Defined.

(** ** What a request may write *)

Lemma update_post_no_change (d : db) (title content : string) (now : Z) (id : number) :
  fst (update_post d title content now id) = 0 -> snd (update_post d title content now id) = d.
Proof.
  unfold update_post. cbn [fst snd]. intros Hz.
  assert (Hno := proj1 (count_changes_zero _ _) Hz).
  assert (Hmap : forall upd : Post.row -> Post.row,
            map (fun p => if id_is id (Post.id p) then upd p else p) (posts d) = posts d).
  { intros upd. rewrite <- (map_id (posts d)) at 2. apply map_ext_in.
    intros p Hp. now rewrite (Hno p Hp). }
  rewrite (Hmap (fun p => {| Post.id := Post.id p; Post.title := title;
                             Post.content := content;
                             Post.created_at := Post.created_at p;
                             Post.updated_at := now |})).
  apply db_eta.
Qed.

Lemma delete_post_no_change (d : db) (id : number) :
  fst (delete_post d id) = 0 -> snd (delete_post d id) = d.
Proof.
  unfold delete_post. cbn [fst snd]. intros Hz.
  assert (Hno := proj1 (count_changes_zero _ _) Hz).
  rewrite filter_keeps_all; [apply db_eta|].
  intros p Hp. now rewrite (Hno p Hp).
Qed.

(** A request that is answered with an error writes nothing, the
    reading routes and login never write, the post routes never touch
    the users table and signup never touches the posts table. *)
Theorem errors_write_nothing `{CaseMapping} (d : db) (r : request) :
  (status (fst (handle d r)) <> 200 -> status (fst (handle d r)) <> 201 ->
   snd (handle d r) = d)
  /\ may_write r d (snd (handle d r)).
Proof.
  destruct r as [|id|b now|id b now|id|b now date_now|b date_now|authorization];
    cbn [handle may_write].
  - split; reflexivity.
  - split; [intros _ _|]; apply get_post_store.
  - destruct (create_post_store d b now) as [[e [_ Hc]]|[title [content [_ [Hs Hf]]]]].
    + rewrite Hc. repeat split.
    + rewrite Hs, Hf. split; [intros _ Hne; now elim Hne|]. split; reflexivity.
  - split; [|now destruct (update_post_store d id b now) as [_ [_ [Hu Hs]]]].
    unfold update_post_by_id. destruct (negb _); [reflexivity|].
    destruct (validatePostInput b) as [err|[title content]]; [reflexivity|].
    pose proof (update_post_no_change d title content now (parseId id)) as Hno.
    destruct (update_post d title content now (parseId id)) as [changes d'].
    destruct (changes =? 0) eqn:Hch.
    + intros _ _. apply Z.eqb_eq in Hch. now apply Hno.
    + destruct (select_post d' (parseId id)); cbn [fst option_map status sendSuccess];
        intros Hne; now elim Hne.
  - split; [|now destruct (delete_post_store d id) as [_ [_ [Hu Hs]]]].
    unfold delete_post_by_id. destruct (negb _); [reflexivity|].
    pose proof (delete_post_no_change d (parseId id)) as Hno.
    destruct (delete_post d (parseId id)) as [changes d'].
    destruct (changes =? 0) eqn:Hch.
    + intros _ _. apply Z.eqb_eq in Hch. now apply Hno.
    + cbn [fst status sendSuccess]. intros Hne. now elim Hne.
  - destruct (signup_store d b now date_now)
      as [[_ Hs]|[[_ [_ [_ [_ Hs]]]]|[_ [_ [_ [_ [Hs Hf]]]]]]].
    + rewrite Hs. repeat split.
    + rewrite Hs. repeat split.
    + rewrite Hs, Hf. split; [intros _ Hne; now elim Hne|]. split; reflexivity.
  - split; [intros _ _|]; apply login_store.
  - split; [intros _ _|]; apply me_store.
Qed.

(** ** What a token can name *)

Lemma split_pieces_no_colon (s x : string) : In x (split ":" s) -> no_colon x = true.
Proof.
  unfold no_colon. revert x. induction s as [|c s IH]; intros x Hx.
  - cbn in Hx. destruct Hx as [<-|[]]. reflexivity.
  - cbn [split] in Hx. destruct (Ascii.eqb c ":") eqn:E.
    + destruct Hx as [<-|Hx]; [reflexivity|now apply IH].
    + destruct (split ":" s) as [|h t] eqn:Hs.
      * destruct Hx as [<-|[]]. cbn [all_chars]. now rewrite E.
      * destruct Hx as [<-|Hx].
        -- cbn [all_chars]. rewrite E. cbn [negb andb]. apply IH. now left.
        -- apply IH. now right.
Qed.

(** Whatever the token, the email it decodes to is not empty and holds
    no colon, and the id is an integer.  So [/api/auth/me] answers 200
    only with a user whose stored email holds no colon: a user whose email
    holds one is refused under every Authorization header. *)
Theorem me_names_no_email_with_colon (d : db) (authorization : option string) :
  (forall token c, parseToken token = Some c ->
     no_colon (claims_email c) = true /\ claims_email c <> EmptyString
     /\ exists z, claims_id c = Int z)
  /\ (status (fst (me d authorization)) = 200 ->
      exists u, In u (users d) /\ no_colon (User.email u) = true
                /\ fst (me d authorization)
                   = sendSuccess (Some (JObj [("user", mapUser (select_columns false u))])) 200).
Proof.
  assert (Hparse : forall token c, parseToken token = Some c ->
            no_colon (claims_email c) = true /\ claims_email c <> EmptyString
            /\ exists z, claims_id c = Int z).
  { intros token c. unfold parseToken.
    set (parts := split ":" (toString_utf8 (base64url_decode token))).
    destruct (Number (nth 0 parts EmptyString)) as [| neg | z | m e];
      cbn [Number_isInteger negb orb]; try discriminate.
    destruct (nth_error parts 1) as [e|] eqn:He; cbn [falsy]; [|discriminate].
    destruct (is_empty e) eqn:Hemp; [discriminate|].
    intros Hc. injection Hc as <-. cbn [claims_email claims_id].
    split; [|split; [now apply is_empty_false|now exists z]].
    apply (split_pieces_no_colon (toString_utf8 (base64url_decode token))).
    fold parts. eapply nth_error_In. exact He. }
  split; [exact Hparse|].
  unfold me.
  destruct (readBearerToken authorization) as [token|]; [|discriminate].
  destruct (is_empty token); [discriminate|].
  destruct (parseToken token) as [c|] eqn:Hc; [|discriminate].
  destruct (Hparse token c Hc) as [Hcolon _].
  unfold select_user_by_id_and_email.
  destruct (find _ (users d)) as [u|] eqn:Hfind; [|discriminate].
  intros _. apply find_some in Hfind. destruct Hfind as [Hu Hhit].
  apply andb_true_iff in Hhit. destruct Hhit as [_ Hem]. apply String.eqb_eq in Hem.
  exists u. split; [exact Hu|]. split; [now rewrite Hem|reflexivity].
Qed.

(** ** Greeting *)

(** The greeting always names someone: the name in the message is not
    empty and has no white space at either end; it is [Guest] when the
    query has no name or a blank one, and the trimmed name otherwise; and
    asking again with the name that was greeted gives the same greeting. *)
Theorem greeting_names_someone (name : value) (now : Z) :
  exists n,
    trimmed n
    /\ n = (if is_empty (trim (String_or_empty name)) then "Guest"
            else trim (String_or_empty name))
    /\ greeting name now
       = sendSuccess (Some (JObj [("message", JStr ("Hello, " ++ n ++ "!")%string);
                                  ("createdAt", JDate now)])) 200
    /\ greeting (Str n) now = greeting name now.
Proof.
  unfold greeting. cbn [String_or_empty].
  destruct (is_empty (trim (String_or_empty name))) eqn:E.
  - exists "Guest". split; [split; [discriminate|reflexivity]|].
    split; [reflexivity|]. split; reflexivity.
  - exists (trim (String_or_empty name)).
    apply is_empty_false in E. split; [now apply trim_trimmed|].
    split; [reflexivity|]. split; [reflexivity|].
    rewrite trim_idempotent. apply is_empty_false in E. now rewrite E.
Qed.

(** ** Listening *)

Lemma plus_one_Int (z : Z) : 0 <= z < 2 ^ 53 - 1 -> plus_one (Int z) = Int (z + 1).
Proof.
  intros Hz. unfold plus_one.
  destruct (Z.leb_spec 0 (z + 1)); [|lia].
  apply to_double_integer. lia.
Qed.

Lemma PORT_not_set (env_PORT : option string) :
  not_set env_PORT = true -> PORT env_PORT = Int 4000.
Proof.
  destruct env_PORT as [[|c s]|]; [reflexivity|discriminate|reflexivity].
Qed.

Lemma ports_from_S (z : Z) (n : nat) : ports_from z (S n) = Int z :: ports_from (z + 1) n.
Proof.
  unfold ports_from. cbn [seq map]. rewrite Z.add_0_r. f_equal.
  rewrite <- seq_shift, map_map. apply map_ext. intros i. f_equal. lia.
Qed.

Section ListenFacts.

Variable listen : number -> bound.
Variable env_PORT : option string.

Lemma startServer_retries (retriesLeft : nat) (z : Z) :
  not_set env_PORT = true -> 0 <= z -> z + Z.of_nat retriesLeft < 2 ^ 53 ->
  exists k, (k <= retriesLeft)%nat
    /\ fst (startServer listen env_PORT (Int z) retriesLeft) = ports_from z (S k)
    /\ (forall i, (i < k)%nat -> listen (Int (z + Z.of_nat i)) = emits "EADDRINUSE")
    /\ match snd (startServer listen env_PORT (Int z) retriesLeft) with
       | Listens port => port = Int (z + Z.of_nat k) /\ listen port = is_listening
       | Exits code => code = 1 /\ k = retriesLeft
                       /\ listen (Int (z + Z.of_nat k)) = emits "EADDRINUSE"
       | Throws code => listen (Int (z + Z.of_nat k)) = emits code /\ code <> "EADDRINUSE"
       end.
Proof.
  intros Henv. revert z. induction retriesLeft as [|n IH]; intros z Hz Hbound.
  - exists O. cbn [startServer]. rewrite Z.add_0_r.
    destruct (listen (Int z)) as [|code] eqn:El.
    + cbn [fst snd]. repeat split; try lia; try assumption.
      unfold ports_from. cbn. now rewrite Z.add_0_r.
    + destruct (String.eqb_spec code "EADDRINUSE") as [->|Hne]; cbn [fst snd].
      * repeat split; try lia; try assumption.
        unfold ports_from. cbn. now rewrite Z.add_0_r.
      * repeat split; try lia; try assumption.
        unfold ports_from. cbn. now rewrite Z.add_0_r.
  - cbn [startServer]. destruct (listen (Int z)) as [|code] eqn:El.
    + exists O. cbn [fst snd]. rewrite Z.add_0_r. repeat split; try lia; try assumption.
      unfold ports_from. cbn. now rewrite Z.add_0_r.
    + rewrite Henv, andb_true_r.
      destruct (String.eqb_spec code "EADDRINUSE") as [->|Hne].
      * rewrite plus_one_Int by lia.
        destruct (IH (z + 1)) as [k [Hk [Htried [Hbusy Hend]]]]; [lia|lia|].
        destruct (startServer listen env_PORT (Int (z + 1)) n) as [tried end_].
        cbn [fst snd] in *. exists (S k).
        split; [lia|]. split; [rewrite ports_from_S; now f_equal|]. split.
        -- intros [|i] Hi; [now rewrite Z.add_0_r|].
           replace (z + Z.of_nat (S i)) with (z + 1 + Z.of_nat i) by lia.
           apply Hbusy. lia.
        -- replace (z + Z.of_nat (S k)) with (z + 1 + Z.of_nat k) by lia.
           destruct end_ as [port|c|c]; [exact Hend| |exact Hend].
           destruct Hend as [Hc [Hkn Hl]]. now subst.
      * exists O. cbn [fst snd]. rewrite Z.add_0_r. repeat split; try lia; try assumption.
        unfold ports_from. cbn. now rewrite Z.add_0_r.
Qed.

Lemma startServer_no_retry (port : number) (retriesLeft : nat) :
  not_set env_PORT = false ->
  startServer listen env_PORT port retriesLeft
  = ([port], match listen port with
             | is_listening => Listens port
             | emits code => if String.eqb code "EADDRINUSE" then Exits 1 else Throws code
             end).
Proof.
  intros Henv. destruct retriesLeft; cbn [startServer]; destruct (listen port) as [|code];
    try reflexivity; rewrite ?Henv, ?andb_false_r; now destruct (String.eqb code _).
Qed.

End ListenFacts.

(** Start-up takes the first free port.  With [PORT] not set (or empty)
    it begins at 4000 and tries at most eleven ports, 4000 to 4010, in
    order: the ports before the last one tried were all in use; it ends
    listening on the last one tried, or exits with code 1 when all eleven
    are in use, or with the other error the last one gave.  With [PORT]
    set it tries the port once and never another one. *)
Theorem startServer_first_free_port (listen : number -> bound) (env_PORT : option string) :
  (not_set env_PORT = true ->
   exists k, (k <= 10)%nat
     /\ fst (main listen env_PORT) = ports_from 4000 (S k)
     /\ (forall i, (i < k)%nat -> listen (Int (4000 + Z.of_nat i)) = emits "EADDRINUSE")
     /\ match snd (main listen env_PORT) with
        | Listens port => port = Int (4000 + Z.of_nat k) /\ listen port = is_listening
        | Exits code => code = 1 /\ k = 10%nat /\ listen (Int 4010) = emits "EADDRINUSE"
        | Throws code => listen (Int (4000 + Z.of_nat k)) = emits code /\ code <> "EADDRINUSE"
        end)
  /\ (not_set env_PORT = false ->
      main listen env_PORT
      = ([PORT env_PORT],
         match listen (PORT env_PORT) with
         | is_listening => Listens (PORT env_PORT)
         | emits code => if String.eqb code "EADDRINUSE" then Exits 1 else Throws code
         end)).
Proof.
  split; intros Henv.
  - unfold main. rewrite (PORT_not_set env_PORT Henv).
    destruct (startServer_retries listen env_PORT 10 4000 Henv) as [k [Hk [Ht [Hb He]]]];
      [lia|cbn; lia|].
    exists k. split; [exact Hk|]. split; [exact Ht|]. split; [exact Hb|].
    destruct (snd (startServer listen env_PORT (Int 4000) 10)) as [port|code|code];
      [exact He| |exact He].
    destruct He as [Hc [Hk10 Hl]]. subst k. auto.
  - apply startServer_no_retry. exact Henv.
Qed.

Lemma startServer_first_free_port_two_taken :
  let listen := fun port =>
    match port with
    | Int 4000 | Int 4001 => emits "EADDRINUSE"
    | _ => is_listening
    end in
  main listen None = ([Int 4000; Int 4001; Int 4002], Listens (Int 4002))
  /\ main listen (Some "4000") = ([Int 4000], Exits 1)
  /\ exists k, (k <= 10)%nat /\ fst (main listen None) = ports_from 4000 (S k).
Proof.
  intros listen.
  split; [vm_compute; reflexivity|].
  split.
  { assert (HPORT : PORT (Some "4000") = Int 4000) by (vm_compute; reflexivity).
    pose proof (proj2 (startServer_first_free_port listen (Some "4000")) eq_refl) as Hset.
    rewrite HPORT in Hset. exact Hset. }
  destruct (proj1 (startServer_first_free_port listen None) eq_refl) as [k [Hk [Ht _]]].
  exists k. split; [exact Hk|exact Ht].
Defined.

(** ** The two servers *)

Lemma validatePostInput_same (b : body) :
  match Ko.validatePostInput b, validatePostInput b with
  | inl _, inl _ => True
  | inr v, inr v' => v = v'
  | _, _ => False
  end.
Proof.
  unfold Ko.validatePostInput, validatePostInput.
  destruct (is_empty (trim (String_or_empty (property b "title")))); [exact I|].
  destruct (is_empty (trim (String_or_empty (property b "content")))); [exact I|].
  reflexivity.
Qed.

Lemma same_error (message message' : string) (code : Z) :
  400 <= code -> same_but_message (sendError message code) (sendError message' code).
Proof.
  intros Hc. right. exists message, message'. cbn [status sendError]. auto.
Qed.

(** On the posts routes the posts-only server and the full server do the
    same: from the same store, each request leaves the same store and is
    answered with the same status, the answers being equal unless both are
    errors, which differ in the message at most; a success answer
    therefore is the same in both.  Their start-up seeds rows of the same
    ids under the same condition. *)
Theorem posts_only_server_agrees `{CaseMapping} (d : db) (r : Ko.request) (now : Z) :
  snd (Ko.handle d r) = snd (handle d (same_request r))
  /\ status (fst (Ko.handle d r)) = status (fst (handle d (same_request r)))
  /\ same_but_message (fst (Ko.handle d r)) (fst (handle d (same_request r)))
  /\ (status (fst (handle d (same_request r))) < 400 ->
      fst (Ko.handle d r) = fst (handle d (same_request r)))
  /\ map Post.id (posts (Ko.seed_posts now d)) = map Post.id (posts (seed_posts now d))
  /\ posts_seq (Ko.seed_posts now d) = posts_seq (seed_posts now d)
  /\ users (Ko.seed_posts now d) = users (seed_posts now d).
Proof.
  assert (Hsame : snd (Ko.handle d r) = snd (handle d (same_request r))
                  /\ status (fst (Ko.handle d r)) = status (fst (handle d (same_request r)))
                  /\ same_but_message (fst (Ko.handle d r)) (fst (handle d (same_request r)))).
  { destruct r as [|id|b t|id b t|id]; cbn [Ko.handle handle same_request].
    - split; [reflexivity|]. split; [reflexivity|now left].
    - unfold Ko.get_post, get_post. destruct (negb _).
      + split; [reflexivity|]. split; [reflexivity|]. apply same_error. lia.
      + destruct (select_post d (parseId id)).
        * split; [reflexivity|]. split; [reflexivity|now left].
        * split; [reflexivity|]. split; [reflexivity|]. apply same_error. lia.
    - unfold Ko.create_post, create_post. pose proof (validatePostInput_same b) as Hv.
      destruct (Ko.validatePostInput b) as [e|[title content]],
               (validatePostInput b) as [e'|[title' content']]; try contradiction.
      + split; [reflexivity|]. split; [reflexivity|]. apply same_error. lia.
      + injection Hv as <- <-.
        destruct (insert_post d title content t t) as [rowid d'].
        split; [reflexivity|]. split; [reflexivity|now left].
    - unfold Ko.update_post_by_id, update_post_by_id. destruct (negb _).
      + split; [reflexivity|]. split; [reflexivity|]. apply same_error. lia.
      + pose proof (validatePostInput_same b) as Hv.
        destruct (Ko.validatePostInput b) as [e|[title content]],
                 (validatePostInput b) as [e'|[title' content']]; try contradiction.
        * split; [reflexivity|]. split; [reflexivity|]. apply same_error. lia.
        * injection Hv as <- <-.
          destruct (update_post d title content t (parseId id)) as [changes d'].
          destruct (changes =? 0).
          -- split; [reflexivity|]. split; [reflexivity|]. apply same_error. lia.
          -- split; [reflexivity|]. split; [reflexivity|now left].
    - unfold Ko.delete_post_by_id, delete_post_by_id. destruct (negb _).
      + split; [reflexivity|]. split; [reflexivity|]. apply same_error. lia.
      + destruct (delete_post d (parseId id)) as [changes d'].
        destruct (changes =? 0).
        * split; [reflexivity|]. split; [reflexivity|]. apply same_error. lia.
        * split; [reflexivity|]. split; [reflexivity|now left]. }
  destruct Hsame as [Hstore [Hstatus Hanswer]].
  split; [exact Hstore|]. split; [exact Hstatus|]. split; [exact Hanswer|]. split.
  { intros Hok. destruct Hanswer as [Heq|[m [m' [_ [_ Hge]]]]]; [exact Heq|lia]. }
  unfold Ko.seed_posts, seed_posts. destruct (posts d) eqn:E.
  - unfold insert_post. cbn [snd posts posts_seq users]. rewrite E. cbn [map app].
    repeat split.
  - repeat split.
Qed.
